(** * caddy-libp2p-listener: the multiaddr listener and the well-known handler

    A shallow embedding of [module.go] (the network registered under
    ["multiaddr:"], the [Libp2pHandler] middleware with its Caddyfile
    unmarshaler and its provisioning), of the earlier revision of
    [registerMultiaddrURI] that registers under ["multiaddr"], and of
    [app.go] (the [App] record and [parseAppConfig]).

    Go values are modelled as follows.
    - [string] is a byte string: Rocq's [string]; [len], indices and the
      results of [strings.LastIndex] are [Z] (Go's [int]).
    - [[]byte] is [list byte].
    - a Go function returning [(T, error)] from another package returns
      [T + GoError]; the functions of this package run in the monad [M],
      which records the calls made to other packages and ends in a value,
      in a returned error or in a run-time panic. *)

From Stdlib Require Import ZArith List String Ascii Bool Lia Permutation.
From Stdlib.Strings Require Import Byte.
Import ListNotations.
Local Open Scope string_scope.
Local Open Scope list_scope.
Local Open Scope Z_scope.

Set Implicit Arguments.

(** ** Go's string primitives *)

Module GoString.

Definition len (s : string) : Z := Z.of_nat (String.length s).

(** [strings.LastIndex(s, substr)]: the byte index of the last occurrence
    of [substr] in [s], and [-1] when there is none.  [lastIndexFrom]
    walks [s] from the left, [pos] being the index of the head of what is
    left and [acc] the last index at which [substr] was seen. *)
Fixpoint lastIndexFrom (s substr : string) (pos acc : Z) : Z :=
  let acc' := if String.prefix substr s then pos else acc in
  match s with
  | EmptyString => acc'
  | String _ s' => lastIndexFrom s' substr (pos + 1) acc'
  end.

Definition LastIndex (s substr : string) : Z := lastIndexFrom s substr 0 (-1).

(** What a Go program can end in besides returning. *)
Inductive PanicKind : Type :=
| SliceBoundsOutOfRange (index length : Z)
| InterfaceConversion.

(** [s[lo:]]: panics unless [0 <= lo <= len(s)]. *)
Definition sliceFrom (s : string) (lo : Z) : string + PanicKind :=
  if (0 <=? lo) && (lo <=? len s)
  then inl (String.substring (Z.to_nat lo) (String.length s - Z.to_nat lo) s)
  else inr (SliceBoundsOutOfRange lo (len s)).

(** [s[:hi]]: panics unless [0 <= hi <= len(s)]. *)
Definition sliceTo (s : string) (hi : Z) : string + PanicKind :=
  if (0 <=? hi) && (hi <=? len s)
  then inl (String.substring 0 (Z.to_nat hi) s)
  else inr (SliceBoundsOutOfRange hi (len s)).

(** Whether the byte [c] occurs in [s]. *)
Fixpoint contains (c : ascii) (s : string) : bool :=
  match s with
  | EmptyString => false
  | String a s' => Ascii.eqb a c || contains c s'
  end.

End GoString.

(** ** [strconv.Atoi] *)

Module Strconv.

(** The two causes a [*strconv.NumError] carries. *)
Inductive NumError : Type := ErrSyntax | ErrRange.

Definition digit (c : ascii) : option Z :=
  let n := Z.of_nat (nat_of_ascii c) in
  if (48 <=? n) && (n <=? 57) then Some (n - 48) else None.

Definition maxUint64 : Z := 2 ^ 64 - 1.

(** The loop of [ParseUint(s, 10, 64)] over the bytes of a non-empty
    string: a byte that is no decimal digit is a syntax error, leaving
    the range of [uint64] a range error, whichever comes first. *)
Fixpoint parseUintLoop (s : string) (n : Z) : Z + NumError :=
  match s with
  | EmptyString => inl n
  | String c s' =>
      match digit c with
      | None => inr ErrSyntax
      | Some d =>
          if n >=? maxUint64 / 10 + 1 then inr ErrRange
          else
            let n1 := n * 10 + d in
            if n1 >? maxUint64 then inr ErrRange else parseUintLoop s' n1
      end
  end.

Definition ParseUint (s : string) : Z + NumError :=
  match s with
  | EmptyString => inr ErrSyntax
  | _ => parseUintLoop s 0
  end.

(** The loop of [ParseUint(s, 10, bitSize)] for a smaller [bitSize]:
    [maxVal] is [1<<bitSize - 1], and a value above it is a range error
    at the digit that exceeds it. *)
Fixpoint parseUintLoopTo (maxVal : Z) (s : string) (n : Z) : Z + NumError :=
  match s with
  | EmptyString => inl n
  | String c s' =>
      match digit c with
      | None => inr ErrSyntax
      | Some d =>
          if n >=? maxUint64 / 10 + 1 then inr ErrRange
          else
            let n1 := n * 10 + d in
            if n1 >? maxVal then inr ErrRange else parseUintLoopTo maxVal s' n1
      end
  end.

(** [ParseUint(s, 10, bitSize)], for [0 < bitSize <= 64]: no sign, no
    underscore, at least one digit. *)
Definition ParseUintSize (bitSize : Z) (s : string) : Z + NumError :=
  match s with
  | EmptyString => inr ErrSyntax
  | _ => parseUintLoopTo (2 ^ bitSize - 1) s 0
  end.

(** [*strconv.NumError] as a value: the function that failed, its input
    and the cause.  [syntaxError(fn, str)] builds one. *)
Record NumErrorValue : Type := {
  Func : string;
  Num : string;
  Err : NumError
}.

Definition syntaxError (fn str : string) : NumErrorValue :=
  {| Func := fn; Num := str; Err := ErrSyntax |}.

(** [Atoi(s)] is [ParseInt(s, 10, 0)] with [int] of 64 bits: an optional
    sign, then [ParseUint]; the magnitude must fit [int64].  (The fast
    path Atoi has for short strings computes the same result.) *)
Definition Atoi (s : string) : Z + NumError :=
  match s with
  | EmptyString => inr ErrSyntax
  | String c rest =>
      let neg := Ascii.eqb c "-" in
      let digits := if Ascii.eqb c "+" || neg then rest else s in
      match ParseUint digits with
      | inr e => inr e
      | inl un =>
          let cutoff := 2 ^ 63 in
          if negb neg && (un >=? cutoff) then inr ErrRange
          else if neg && (un >? cutoff) then inr ErrRange
          else inl (if neg then - un else un)
      end
  end.

End Strconv.

(** An error value coming from another package, by its message. *)
Definition GoError : Type := string.

(** ** The textual multiaddr parser of go-multiaddr

    [multiaddr.NewMultiaddr] is an external package.  The registration
    function below takes it as a parameter; this module gives the text
    parser ([stringToBytes]) on a part of its domain, so that the scenarios
    of the specification can be run.  [NewMultiaddr s] is [Some r] when the
    library returns [r] for [s], and [None] where this module does not say
    what the library does: at a protocol name that is neither empty nor
    one of the nine of the table below, and at an [ip4] value written with
    a colon (the library also reads the IPv6 text of an IPv4 address).  An
    error is given by the part of its message that names the failure; the
    library puts the address in front of it and, for a value that does
    not parse, the cause behind it. *)

Module Multiaddr.

Inductive Protocol : Type :=
| P_IP4 | P_TCP | P_UDP
| P_TLS | P_HTTP | P_WS | P_QUIC_V1 | P_WEBTRANSPORT | P_WEBRTC_DIRECT.

Inductive Value : Type :=
| NoValue
| IPv4 (a b c d : Z)
| Port (p : Z).

Definition Component : Type := (Protocol * Value)%type.

(** A structured multiaddr: its components, outermost first. *)
Definition Multiaddr : Type := list Component.

(** What is known of a protocol name: a protocol of the table; no
    protocol (for the empty name, which the library registers nothing
    under, [ProtocolWithName] returns the zero [Protocol], of code 0);
    or a name the table has no line for, registered in the library or
    not. *)
Inductive Lookup : Type :=
| Registered (p : Protocol)
| NotRegistered
| NotListed.

Definition ProtocolWithName (name : string) : Lookup :=
  if String.eqb name "" then NotRegistered
  else if String.eqb name "ip4" then Registered P_IP4
  else if String.eqb name "tcp" then Registered P_TCP
  else if String.eqb name "udp" then Registered P_UDP
  else if String.eqb name "tls" then Registered P_TLS
  else if String.eqb name "http" then Registered P_HTTP
  else if String.eqb name "ws" then Registered P_WS
  else if String.eqb name "quic-v1" then Registered P_QUIC_V1
  else if String.eqb name "webtransport" then Registered P_WEBTRANSPORT
  else if String.eqb name "webrtc-direct" then Registered P_WEBRTC_DIRECT
  else NotListed.

(** The size in bits of a protocol's value; [0] is "no value". *)
Definition Size (p : Protocol) : Z :=
  match p with
  | P_IP4 => 32
  | P_TCP | P_UDP => 16
  | _ => 0
  end.

(** [strings.TrimRight(s, c)] for a single byte. *)
Fixpoint trimRight (c : ascii) (s : string) : string :=
  match s with
  | EmptyString => EmptyString
  | String a s' =>
      match trimRight c s' with
      | EmptyString => if Ascii.eqb a c then EmptyString else String a EmptyString
      | t => String a t
      end
  end.

(** [strings.Split(s, sep)] for a single byte: never the empty list. *)
Fixpoint split (sep : ascii) (s : string) : list string :=
  match s with
  | EmptyString => [EmptyString]
  | String c s' =>
      if Ascii.eqb c sep then EmptyString :: split sep s'
      else match split sep s' with
           | [] => [String c EmptyString]
           | w :: ws => String c w :: ws
           end
  end.

(** One field of a dotted quad, as [net.ParseIP] reads it: decimal
    digits, at least one, no leading zero, at most 255. *)
Definition ip4Field (s : string) : option Z :=
  match s with
  | EmptyString => None
  | String c rest =>
      if Ascii.eqb c "0" && negb (String.eqb rest "") then None
      else if (GoString.len s >? 3) then None
      else match Strconv.ParseUint s with
           | inl n => if n <=? 255 then Some n else None
           | inr _ => None
           end
  end.

(** The [ip4] transcoder, [net.ParseIP(s).To4()], on a text without
    colon: four fields between dots, anything else is refused.  With a
    colon the text is read as IPv6, which is left open here. *)
Definition ip4StB (s : string) : option (Value + GoError) :=
  if GoString.contains ":" s then None
  else
    match map ip4Field (split "." s) with
    | [Some a; Some b; Some c; Some d] => Some (inl (IPv4 a b c d))
    | _ => Some (inr ("failed to parse ip4 addr: " ++ s)%string)
    end.

(** The port transcoder of [tcp] and [udp]: [strconv.ParseUint(s, 10, 16)],
    so digits only and at most 65535. *)
Definition portStB (s : string) : option (Value + GoError) :=
  match Strconv.ParseUintSize 16 s with
  | inr _ => Some (inr "failed to parse port addr")
  | inl i => Some (inl (Port i))
  end.

Definition StringToBytes (p : Protocol) (s : string) : option (Value + GoError) :=
  match p with
  | P_IP4 => ip4StB s
  | P_TCP | P_UDP => portStB s
  | _ => Some (inl NoValue)
  end.

(** The loop of [stringToBytes] over the pieces between slashes; it stops
    at the first piece that is refused or left open. *)
Fixpoint components (sp : list string) : option (Multiaddr + GoError) :=
  match sp with
  | [] => Some (inl [])
  | name :: rest =>
      match ProtocolWithName name with
      | NotListed => None
      | NotRegistered => Some (inr ("unknown protocol " ++ name)%string)
      | Registered p =>
          if Size p =? 0 then
            match components rest with
            | Some (inl ma) => Some (inl ((p, NoValue) :: ma))
            | other => other
            end
          else
            match rest with
            | [] => Some (inr "unexpected end of multiaddr")
            | v :: rest' =>
                match StringToBytes p v with
                | None => None
                | Some (inr e) => Some (inr e)
                | Some (inl a) =>
                    match components rest' with
                    | Some (inl ma) => Some (inl ((p, a) :: ma))
                    | other => other
                    end
                end
            end
      end
  end.

Definition NewMultiaddr (s : string) : option (Multiaddr + GoError) :=
  match split "/" (trimRight "/" s) with
  | EmptyString :: [] => Some (inr "empty multiaddr")
  | EmptyString :: sp => components sp
  | _ => Some (inr "must begin with /")
  end.

End Multiaddr.

(** ** app.go: the [libp2p] app *)

(** The two settings of [App] that the listener reads ([logger] is used by
    nothing modelled here). *)
Record App : Type := {
  PrivateKey : string;
  AdvertiseAmino : bool
}.

(** ** The values exchanged with other packages *)

(** Go's [any]: what [cctx.App] hands back, seen through the type
    assertion of [appIface] to a pointer to [App]. *)
Inductive Any : Type :=
| AppPtr (a : App)
| OtherDynamicType (typeName : string).

Module Caddy.
(** [caddy.Context], by its method [App(name)]. *)
Record Context : Type := { AppOf : string -> Any + GoError }.
End Caddy.

(** [context.Context], seen through the assertion [ctx.(caddy.Context)]. *)
Inductive Context : Type :=
| CaddyContext (cctx : Caddy.Context)
| OtherContext (typeName : string).

(** [net.ListenConfig]: passed in and never read. *)
Inductive ListenConfig : Type := DefaultListenConfig.

Module Pem.
(** [pem.Block]. *)
Record Block : Type := {
  Type_ : string;
  Headers : list (string * string);
  Bytes : list byte
}.
End Pem.

Module X509.
(** The dynamic types [x509.ParsePKCS8PrivateKey] returns, and the
    pointer to an ed25519 key that the listener makes: RSA, ECDSA and
    ECDH keys come as pointers, an ed25519 key as a value. *)
Inductive StdKey : Type :=
| RSAPrivateKeyPtr (k : list byte)
| ECDSAPrivateKeyPtr (k : list byte)
| ECDHPrivateKeyPtr (k : list byte)
| Ed25519PrivateKey (k : list byte)
| Ed25519PrivateKeyPtr (k : list byte).
End X509.

Module Dht.
Inductive ModeOpt : Type := ModeAuto | ModeClient | ModeServer | ModeAutoServer.
Inductive Option_ : Type := Mode (m : ModeOpt).
End Dht.

Module Gostream.
Inductive ListenerOption : Type := IgnoreEOF.
End Gostream.

(** The types of go-libp2p that stay opaque. *)
Record Types : Type := {
  PrivKey : Type;
  Host : Type;
  PeerRouting : Type;
  Listener : Type
}.

Module Libp2p.
Inductive TransportCtor : Type := WebRTCNew.

(** [libp2p.Option], for the options the listener builds. *)
Inductive Option_ (T : Types) : Type :=
| ListenAddrs (addrs : list Multiaddr.Multiaddr)
| DefaultTransports
| Transport (ctor : TransportCtor)
| Identity (sk : PrivKey T)
| Routing (rt : Host T -> PeerRouting T + GoError).

Arguments DefaultTransports {T}.
Arguments ListenAddrs {T} addrs.
Arguments Transport {T} ctor.
Arguments Identity {T} sk.
Arguments Routing {T} rt.

Definition isRouting {T} (o : Option_ T) : bool :=
  match o with Routing _ => true | _ => false end.

Definition isIdentity {T} (o : Option_ T) : bool :=
  match o with Identity _ => true | _ => false end.

(** [libp2phttp.WellKnownProtocols] and
    [libp2phttp.ProtocolIDForMultistreamSelect]. *)
Definition WellKnownProtocols : string := "/.well-known/libp2p/protocols".
Definition ProtocolIDForMultistreamSelect : string := "/http/1.1".
End Libp2p.

(** The functions of other packages that [registerMultiaddrURI] calls. *)
Record Externals (T : Types) : Type := {
  (** [os.ReadFile] *)
  ReadFile : string -> list byte + GoError;
  (** [pem.Decode]: the first block, if any, and the rest of the input *)
  Decode : list byte -> option Pem.Block * list byte;
  (** [x509.ParsePKCS8PrivateKey] *)
  ParsePKCS8PrivateKey : list byte -> X509.StdKey + GoError;
  (** [crypto.KeyPairFromStdKey], its private key *)
  KeyPairFromStdKey : X509.StdKey -> PrivKey T + GoError;
  (** [multiaddr.NewMultiaddr] *)
  NewMultiaddr : string -> Multiaddr.Multiaddr + GoError;
  (** [dht.New] *)
  DhtNew : Context -> Host T -> list Dht.Option_ -> PeerRouting T + GoError;
  (** [libp2p.New] *)
  New : list (Libp2p.Option_ T) -> Host T + GoError;
  (** [h.ID()] and [h.Addrs()] *)
  HostID : Host T -> string;
  HostAddrs : Host T -> list Multiaddr.Multiaddr;
  (** [gostream.Listen] *)
  Listen : Host T -> string -> list Gostream.ListenerOption -> Listener T + GoError
}.

(** ** Errors, outcomes and the call log *)

(** The errors [registerMultiaddrURI] returns, one per [return nil, ...]:
    - [ContextTypeError]: "context is not a caddy.Context: %T"
    - [SchemeMismatchError]: "multiaddr URI network only handles multiaddr URIs"
    - [MalformedPort]: "invalid port %w"
    - [MalformedAddress]: "could not parse multiaddr: %w"
    - [AppLookupError]: the error of [cctx.App], as it is
    - [IOError]: the error of [os.ReadFile], as it is
    - [EnvelopeFormatError]: "PEM block not found in input data:\n%s"
    - [UnexpectedKeyType]: "expected PRIVATE KEY type in PEM block but got: %s"
    - [KeyDecodeError]: "parsing PKCS8 format: %w"
    - [KeyConversionError]: "converting std Go key to libp2p key: %w"
    - [HostConstructionError]: the error of [libp2p.New], as it is
    - [ListenError]: the error of [gostream.Listen], as it is *)
Inductive Error : Type :=
| ContextTypeError (typeName : string)
| SchemeMismatchError
| MalformedPort (cause : Strconv.NumError)
| MalformedAddress (cause : GoError)
| AppLookupError (cause : GoError)
| IOError (cause : GoError)
| EnvelopeFormatError (rest : list byte)
| UnexpectedKeyType (blockType : string)
| KeyDecodeError (cause : GoError)
| KeyConversionError (cause : GoError)
| HostConstructionError (cause : GoError)
| ListenError (cause : GoError).

Inductive Outcome (A : Type) : Type :=
| Ok (a : A)
| Fail (e : Error)
| Panic (p : GoString.PanicKind).

Arguments Fail {A} e.
Arguments Panic {A} p.

(** What [fmt.Println] is given. *)
Inductive Printed : Type :=
| PrintedID (id : string)
| PrintedAddrs (addrs : list Multiaddr.Multiaddr).

(** One call to another package, with its arguments. *)
Inductive Event (T : Types) : Type :=
| CallApp (name : string)
| CallReadFile (path : string)
| CallDecode (data : list byte)
| CallParsePKCS8PrivateKey (der : list byte)
| CallKeyPairFromStdKey (k : X509.StdKey)
| CallNewMultiaddr (s : string)
| CallNew (opts : list (Libp2p.Option_ T))
| CallPrintln (what : Printed)
| CallListen (h : Host T) (tag : string) (opts : list Gostream.ListenerOption).

Arguments CallApp {T} name.
Arguments CallReadFile {T} path.
Arguments CallDecode {T} data.
Arguments CallParsePKCS8PrivateKey {T} der.
Arguments CallKeyPairFromStdKey {T} k.
Arguments CallNewMultiaddr {T} s.
Arguments CallPrintln {T} what.
Arguments CallNew {T} opts.
Arguments CallListen {T} h tag opts.

Definition isCallNew {T} (e : Event T) : bool :=
  match e with CallNew _ => true | _ => false end.

Definition isCallListen {T} (e : Event T) : bool :=
  match e with CallListen _ _ _ => true | _ => false end.

(** A run: how it ended, and the calls it made, oldest first. *)
Definition M (T : Types) (A : Type) : Type := (Outcome A * list (Event T))%type.

Definition ret {T A} (a : A) : M T A := (Ok a, []).

Definition bind {T A B} (m : M T A) (f : A -> M T B) : M T B :=
  match m with
  | (Ok a, t) => let (r, t') := f a in (r, t ++ t')
  | (Fail e, t) => (Fail e, t)
  | (Panic p, t) => (Panic p, t)
  end.

Definition fail {T A} (e : Error) : M T A := (Fail e, []).

Definition panic {T A} (p : GoString.PanicKind) : M T A := (Panic p, []).

(** Records the call [ev] and goes on with what it returned. *)
Definition call {T A} (ev : Event T) (result : A) : M T A := (Ok result, [ev]).

(** A slice expression: its value, or the panic. *)
Definition slice {T} (r : string + GoString.PanicKind) : M T string :=
  match r with inl s => ret s | inr p => panic p end.

Notation "x <- m ;; k" := (bind m (fun x => k))
  (at level 61, m at next level, right associativity).
Notation "m ;;; k" := (bind m (fun _ => k))
  (at level 61, right associativity).

Definition outcome {T A} (m : M T A) : Outcome A := fst m.
Definition calls {T A} (m : M T A) : list (Event T) := snd m.

(** The Go idiom [x, err := f(args); if err != nil { return nil, wrap(err) }]:
    the call is recorded, and an error ends the run. *)
Definition callE {T A} (ev : Event T) (result : A + GoError) (wrap : GoError -> Error)
  : M T A :=
  match result with
  | inl a => (Ok a, [ev])
  | inr e => (Fail (wrap e), [ev])
  end.

(** ** module.go: [registerMultiaddrURI], registered under ["multiaddr:"] *)

Module ModuleGo.
Section Registration.
Context {T : Types} (env : Externals T).

(** Lines 112-126: the port after the last colon, the multiaddr before
    it.  [port] keeps Go's zero value when nothing follows the colon. *)
Definition parseAddr (addr : string) : M T (Multiaddr.Multiaddr * Z) :=
  let lastColon := GoString.LastIndex addr ":" in
  port <- (if negb (lastColon =? GoString.len addr - 1) then
             digits <- slice (GoString.sliceFrom addr (lastColon + 1)) ;;
             match Strconv.Atoi digits with
             | inl n => ret n
             | inr e => fail (MalformedPort e)
             end
           else ret 0) ;;
  addr' <- slice (GoString.sliceTo addr lastColon) ;;
  ma <- callE (CallNewMultiaddr ("/" ++ addr')) (NewMultiaddr env ("/" ++ addr'))
              MalformedAddress ;;
  ret (ma, port).

(** Lines 170-172: an [ed25519.PrivateKey] value is replaced by a pointer
    to it. *)
Definition ed25519Pointer (stdKey : X509.StdKey) : X509.StdKey :=
  match stdKey with
  | X509.Ed25519PrivateKey k => X509.Ed25519PrivateKeyPtr k
  | _ => stdKey
  end.

(** Lines 147-178: [sk], [None] being Go's nil. *)
Definition loadIdentity (app : App) : M T (option (PrivKey T)) :=
  if negb (String.eqb (PrivateKey app) "") then
    privFile <- callE (CallReadFile (PrivateKey app)) (ReadFile env (PrivateKey app))
                      IOError ;;
    decoded <- call (CallDecode privFile) (Decode env privFile) ;;
    match decoded with
    | (None, rest) => fail (EnvelopeFormatError rest)
    | (Some pemBlock, _) =>
        if negb (String.eqb (Pem.Type_ pemBlock) "PRIVATE KEY") then
          fail (UnexpectedKeyType (Pem.Type_ pemBlock))
        else
          stdKey <- callE (CallParsePKCS8PrivateKey (Pem.Bytes pemBlock))
                          (ParsePKCS8PrivateKey env (Pem.Bytes pemBlock))
                          KeyDecodeError ;;
          let stdKey := ed25519Pointer stdKey in
          sk <- callE (CallKeyPairFromStdKey stdKey) (KeyPairFromStdKey env stdKey)
                      KeyConversionError ;;
          ret (Some sk)
    end
  else ret None.

(** Lines 185-188: the routing constructor handed to [libp2p.Routing]. *)
Definition clientDHT (ctx : Context) : Host T -> PeerRouting T + GoError :=
  fun host => DhtNew env ctx host [Dht.Mode Dht.ModeClient].

(** Lines 180-189: [opts]. *)
Definition hostOptions (ctx : Context) (ma : Multiaddr.Multiaddr)
           (sk : option (PrivKey T)) (app : App) : list (Libp2p.Option_ T) :=
  let opts := [Libp2p.ListenAddrs [ma]; Libp2p.DefaultTransports;
               Libp2p.Transport Libp2p.WebRTCNew] in
  let opts := match sk with
              | Some k => opts ++ [Libp2p.Identity k]
              | None => opts
              end in
  if AdvertiseAmino app then opts ++ [Libp2p.Routing (clientDHT ctx)] else opts.

(** Lines 103-197: everything before the final [return]. *)
Definition buildHost (ctx : Context) (network addr : string) (cfg : ListenConfig)
  : M T (Host T) :=
  match ctx with
  | OtherContext typeName => fail (ContextTypeError typeName)
  | CaddyContext cctx =>
      if negb (String.eqb network "multiaddr:") then fail SchemeMismatchError
      else
        parsed <- parseAddr addr ;;
        let ma := fst parsed in
        appIface <- callE (CallApp "libp2p") (Caddy.AppOf cctx "libp2p") AppLookupError ;;
        match appIface with
        | OtherDynamicType _ => panic GoString.InterfaceConversion
        | AppPtr app =>
            sk <- loadIdentity app ;;
            let opts := hostOptions ctx ma sk app in
            h <- callE (CallNew opts) (New env opts) HostConstructionError ;;
            call (CallPrintln (PrintedID (HostID env h))) tt ;;;
            call (CallPrintln (PrintedAddrs (HostAddrs env h))) tt ;;;
            ret h
        end
  end.

(** Lines 102-200. *)
Definition registerMultiaddrURI (ctx : Context) (network addr : string)
           (cfg : ListenConfig) : M T (Listener T) :=
  h <- buildHost ctx network addr cfg ;;
  callE (CallListen h Libp2p.ProtocolIDForMultistreamSelect [Gostream.IgnoreEOF])
        (Listen env h Libp2p.ProtocolIDForMultistreamSelect [Gostream.IgnoreEOF])
        ListenError.

End Registration.
End ModuleGo.

(** ** The earlier revision of [registerMultiaddrURI], registered under
    ["multiaddr"] *)

Module Part000.
Section Registration.
Context {T : Types} (env : Externals T).

(** Lines 40-54. *)
Definition parseAddr (addr : string) : M T (Multiaddr.Multiaddr * Z) :=
  let lastColon := GoString.LastIndex addr ":" in
  port <- (if negb (lastColon =? GoString.len addr - 1) then
             digits <- slice (GoString.sliceFrom addr (lastColon + 1)) ;;
             match Strconv.Atoi digits with
             | inl n => ret n
             | inr e => fail (MalformedPort e)
             end
           else ret 0) ;;
  addr' <- slice (GoString.sliceTo addr lastColon) ;;
  ma <- callE (CallNewMultiaddr addr') (NewMultiaddr env addr') MalformedAddress ;;
  ret (ma, port).

(** Lines 98-100. *)
Definition ed25519Pointer (stdKey : X509.StdKey) : X509.StdKey :=
  match stdKey with
  | X509.Ed25519PrivateKey k => X509.Ed25519PrivateKeyPtr k
  | _ => stdKey
  end.

(** Lines 75-106. *)
Definition loadIdentity (app : App) : M T (option (PrivKey T)) :=
  if negb (String.eqb (PrivateKey app) "") then
    privFile <- callE (CallReadFile (PrivateKey app)) (ReadFile env (PrivateKey app))
                      IOError ;;
    decoded <- call (CallDecode privFile) (Decode env privFile) ;;
    match decoded with
    | (None, rest) => fail (EnvelopeFormatError rest)
    | (Some pemBlock, _) =>
        if negb (String.eqb (Pem.Type_ pemBlock) "PRIVATE KEY") then
          fail (UnexpectedKeyType (Pem.Type_ pemBlock))
        else
          stdKey <- callE (CallParsePKCS8PrivateKey (Pem.Bytes pemBlock))
                          (ParsePKCS8PrivateKey env (Pem.Bytes pemBlock))
                          KeyDecodeError ;;
          let stdKey := ed25519Pointer stdKey in
          sk <- callE (CallKeyPairFromStdKey stdKey) (KeyPairFromStdKey env stdKey)
                      KeyConversionError ;;
          ret (Some sk)
    end
  else ret None.

(** Lines 113-116. *)
Definition clientDHT (ctx : Context) : Host T -> PeerRouting T + GoError :=
  fun host => DhtNew env ctx host [Dht.Mode Dht.ModeClient].

(** Lines 108-117. *)
Definition hostOptions (ctx : Context) (ma : Multiaddr.Multiaddr)
           (sk : option (PrivKey T)) (app : App) : list (Libp2p.Option_ T) :=
  let opts := [Libp2p.ListenAddrs [ma]; Libp2p.DefaultTransports;
               Libp2p.Transport Libp2p.WebRTCNew] in
  let opts := match sk with
              | Some k => opts ++ [Libp2p.Identity k]
              | None => opts
              end in
  if AdvertiseAmino app then opts ++ [Libp2p.Routing (clientDHT ctx)] else opts.

(** Lines 31-125. *)
Definition buildHost (ctx : Context) (network addr : string) (cfg : ListenConfig)
  : M T (Host T) :=
  match ctx with
  | OtherContext typeName => fail (ContextTypeError typeName)
  | CaddyContext cctx =>
      if negb (String.eqb network "multiaddr") then fail SchemeMismatchError
      else
        parsed <- parseAddr addr ;;
        let ma := fst parsed in
        appIface <- callE (CallApp "libp2p") (Caddy.AppOf cctx "libp2p") AppLookupError ;;
        match appIface with
        | OtherDynamicType _ => panic GoString.InterfaceConversion
        | AppPtr app =>
            sk <- loadIdentity app ;;
            let opts := hostOptions ctx ma sk app in
            h <- callE (CallNew opts) (New env opts) HostConstructionError ;;
            call (CallPrintln (PrintedID (HostID env h))) tt ;;;
            call (CallPrintln (PrintedAddrs (HostAddrs env h))) tt ;;;
            ret h
        end
  end.

(** Lines 30-128. *)
Definition registerMultiaddrURI (ctx : Context) (network addr : string)
           (cfg : ListenConfig) : M T (Listener T) :=
  h <- buildHost ctx network addr cfg ;;
  callE (CallListen h Libp2p.ProtocolIDForMultistreamSelect [])
        (Listen env h Libp2p.ProtocolIDForMultistreamSelect [])
        ListenError.

End Registration.
End Part000.

(** ** module.go: [Libp2pHandler] *)

Module Handler.
Section Middleware.
(** [http.ResponseWriter] is written to by whoever serves the request:
    a handler takes the writer and returns it as it left it. *)
Variable ResponseWriter : Type.

(** [*http.Request], by the fields a handler can tell requests apart
    with. *)
Record Request : Type := {
  Method : string;
  URLPath : string;
  Header : list (string * string);
  Body : list byte
}.

(** [caddyhttp.Handler]: [ServeHTTP(w, r) error]. *)
Definition NextHandler : Type :=
  ResponseWriter -> Request -> ResponseWriter * option GoError.

(** [Libp2pHandler]: [h], by the [ServeHTTP] of its [WellKnownHandler],
    and the map read from the Caddyfile. *)
Record Libp2pHandler : Type := {
  WellKnownHandler : ResponseWriter -> Request -> ResponseWriter;
  ParsedProtosMap : list (string * string)
}.

(** Lines 73-79. *)
Definition ServeHTTP (l : Libp2pHandler) (w : ResponseWriter) (r : Request)
           (next : NextHandler) : ResponseWriter * option GoError :=
  if String.eqb (URLPath r) Libp2p.WellKnownProtocols then
    let w' := WellKnownHandler l w r in
    (w', None)
  else next w r.

End Middleware.
End Handler.

(** ** A simulated environment

    Stand-ins for the other packages, to run the functions above on
    concrete inputs: a file system of four files, a PEM decoder and a PKCS8
    parser that know their contents, the multiaddr parser of [Multiaddr],
    and a [libp2p.New] that builds a host from its options and runs the
    routing constructor on it. *)

Module Sim.

Record SimHost : Type := {
  simAddrs : list Multiaddr.Multiaddr;
  simIdentity : option X509.StdKey;
  simRouting : option Dht.ModeOpt
}.

Definition simT : Types := {|
  PrivKey := X509.StdKey;
  Host := SimHost;
  PeerRouting := Dht.ModeOpt;
  Listener := (SimHost * string * list Gostream.ListenerOption)%type
|}.

Definition bytes (s : string) : list byte := list_byte_of_string s.

Definition bytesEq (a : list byte) (s : string) : bool :=
  String.eqb (string_of_list_byte a) s.

Definition simReadFile (path : string) : list byte + GoError :=
  if String.eqb path "/keys/notes.txt" then inl (bytes "no armor here")
  else if String.eqb path "/keys/cert.pem" then inl (bytes "CERT")
  else if String.eqb path "/keys/ed25519.pem" then inl (bytes "ED25519")
  else if String.eqb path "/keys/rsa.pem" then inl (bytes "RSA")
  else inr "no such file or directory".

Definition simDecode (data : list byte) : option Pem.Block * list byte :=
  if bytesEq data "CERT" then
    (Some {| Pem.Type_ := "CERTIFICATE"; Pem.Headers := []; Pem.Bytes := bytes "c" |}, [])
  else if bytesEq data "ED25519" then
    (Some {| Pem.Type_ := "PRIVATE KEY"; Pem.Headers := []; Pem.Bytes := bytes "e" |}, [])
  else if bytesEq data "RSA" then
    (Some {| Pem.Type_ := "PRIVATE KEY"; Pem.Headers := []; Pem.Bytes := bytes "r" |}, [])
  else (None, data).

Definition simParsePKCS8 (der : list byte) : X509.StdKey + GoError :=
  if bytesEq der "e" then inl (X509.Ed25519PrivateKey (bytes "seed"))
  else if bytesEq der "r" then inl (X509.RSAPrivateKeyPtr (bytes "modulus"))
  else inr "x509: failed to parse private key".

(** As in go-libp2p, an ed25519 key is taken by pointer only. *)
Definition simKeyPairFromStdKey (k : X509.StdKey) : X509.StdKey + GoError :=
  match k with
  | X509.Ed25519PrivateKey _ => inr "unsupported key type"
  | _ => inl k
  end.

Definition simOpt : Type := Libp2p.Option_ simT.

Fixpoint listenAddrsOf (opts : list simOpt) : list Multiaddr.Multiaddr :=
  match opts with
  | [] => []
  | Libp2p.ListenAddrs l :: rest => l ++ listenAddrsOf rest
  | _ :: rest => listenAddrsOf rest
  end.

Fixpoint identityOf (opts : list simOpt) : option X509.StdKey :=
  match opts with
  | [] => None
  | Libp2p.Identity k :: _ => Some k
  | _ :: rest => identityOf rest
  end.

Fixpoint routingOf (opts : list simOpt) : option (SimHost -> Dht.ModeOpt + GoError) :=
  match opts with
  | [] => None
  | Libp2p.Routing rt :: _ => Some rt
  | _ :: rest => routingOf rest
  end.

Definition simNew (opts : list simOpt) : SimHost + GoError :=
  let h := {| simAddrs := listenAddrsOf opts; simIdentity := identityOf opts;
              simRouting := None |} in
  match routingOf opts with
  | None => inl h
  | Some rt =>
      match rt h with
      | inl r => inl {| simAddrs := simAddrs h; simIdentity := simIdentity h;
                        simRouting := Some r |}
      | inr e => inr e
      end
  end.

Definition simDhtNew (up : bool) (ctx : Context) (h : SimHost) (opts : list Dht.Option_)
  : Dht.ModeOpt + GoError :=
  if up then
    match opts with
    | Dht.Mode m :: _ => inl m
    | [] => inl Dht.ModeAuto
    end
  else inr "dht: no bootstrap peers".

(** The parser of [Multiaddr]; an address that module leaves open is
    refused here. *)
Definition simNewMultiaddr (s : string) : Multiaddr.Multiaddr + GoError :=
  match Multiaddr.NewMultiaddr s with
  | Some r => r
  | None => inr "protocol or value outside the simulated parser"
  end.

(** The environment; [dhtUp] tells whether [dht.New] succeeds. *)
Definition simEnv (dhtUp : bool) : Externals simT := {|
  ReadFile := simReadFile;
  Decode := simDecode;
  ParsePKCS8PrivateKey := simParsePKCS8;
  KeyPairFromStdKey := simKeyPairFromStdKey : X509.StdKey -> PrivKey simT + GoError;
  NewMultiaddr := simNewMultiaddr;
  DhtNew := simDhtNew dhtUp : Context -> Host simT -> _ -> PeerRouting simT + GoError;
  New := simNew : list (Libp2p.Option_ simT) -> Host simT + GoError;
  HostID := (fun _ => "12D3KooW") : Host simT -> string;
  HostAddrs := simAddrs : Host simT -> _;
  Listen := (fun h tag opts => inl (h, tag, opts))
            : Host simT -> _ -> _ -> Listener simT + GoError
|}.

(** A [caddy.Context] whose [libp2p] app is [app]. *)
Definition simCctx (app : App) : Caddy.Context :=
  {| Caddy.AppOf := fun name =>
       if String.eqb name "libp2p" then inl (AppPtr app) else inr "unknown app" |}.

Definition simCtx (app : App) : Context := CaddyContext (simCctx app).

(** Apps: no key file, and one per file of the simulated file system. *)
Definition plainApp : App := {| PrivateKey := ""; AdvertiseAmino := false |}.
Definition notesApp : App :=
  {| PrivateKey := "/keys/notes.txt"; AdvertiseAmino := false |}.
Definition certApp : App :=
  {| PrivateKey := "/keys/cert.pem"; AdvertiseAmino := false |}.
Definition ed25519App : App :=
  {| PrivateKey := "/keys/ed25519.pem"; AdvertiseAmino := true |}.
Definition rsaApp : App :=
  {| PrivateKey := "/keys/rsa.pem"; AdvertiseAmino := true |}.

(** A handler and a next handler that write one line each. *)
Definition simHandler : Handler.Libp2pHandler (list string) :=
  {| Handler.WellKnownHandler := fun w r => w ++ [("well-known: " ++ Handler.Method r)%string];
     Handler.ParsedProtosMap := [("/ipfs/gateway", "/")] |}.

Definition simNext : Handler.NextHandler (list string) :=
  fun w r => (w ++ [("next: " ++ Handler.URLPath r)%string], Some "404"%string).

End Sim.

(** ** Definitions used in the statements *)

(** What [parseAddr] does once the port is known: the multiaddr parser is
    called on [s], and its error is wrapped. *)
Definition parsedWith {T} (env : Externals T) (s : string) (port : Z)
  : M T (Multiaddr.Multiaddr * Z) :=
  (match NewMultiaddr env s with
   | inl ma => Ok (ma, port)
   | inr e => Fail (MalformedAddress e)
   end, [CallNewMultiaddr s]).

(** A call log in which [libp2p.New] and [gostream.Listen] do not occur. *)
Definition noHostCalls {T} (t : list (Event T)) : bool :=
  forallb (fun e => negb (isCallNew e || isCallListen e)) t.

Module Scenario.
(** The multiaddr [/ip4/0.0.0.0/tcp/4001]. *)
Definition ip4_tcp_4001 : Multiaddr.Multiaddr :=
  [(Multiaddr.P_IP4, Multiaddr.IPv4 0 0 0 0); (Multiaddr.P_TCP, Multiaddr.Port 4001)].

Definition E : Externals Sim.simT := Sim.simEnv true.
Definition ctx : Context := Sim.simCtx Sim.plainApp.

(** The specification's "parses as a non-negative integer". *)
Definition nonNegativeInteger (s : string) : bool :=
  match Strconv.Atoi s with
  | inl n => 0 <=? n
  | inr _ => false
  end.
End Scenario.

Ltac normalize_calls :=
  repeat (rewrite <- app_assoc || rewrite <- app_comm_cons || rewrite app_nil_r);
  cbn [List.app].

(** ** The Caddyfile dispenser

    [caddyfile.Dispenser] is an external package: a cursor over the tokens
    of one directive.  The methods the two unmarshalers use are given here
    as the library defines them; a method that moves the cursor returns the
    dispenser it leaves. *)

Module Caddyfile.

(** [caddyfile.Token]. *)
Record Token : Type := {
  File : string;
  imports : list string;
  Line : Z;
  Text : string;
  heredocMarker : string
}.

(** [strings.Count(s, "\n")]. *)
Fixpoint countNewlines (s : string) : Z :=
  match s with
  | EmptyString => 0
  | String c s' => (if Ascii.eqb c "010" then 1 else 0) + countNewlines s'
  end.

Definition NumLineBreaks (t : Token) : Z :=
  countNewlines (Text t) + (if String.eqb (heredocMarker t) "" then 0 else 2).

Fixpoint sameImports (a b : list string) : bool :=
  match a, b with
  | [], [] => true
  | x :: a', y :: b' => String.eqb x y && sameImports a' b'
  | _, _ => false
  end.

(** [isNextOnNewLine(t1, t2)]: another file, another import chain, or
    [t2] starts below the line [t1] ends on. *)
Definition isNextOnNewLine (t1 t2 : Token) : bool :=
  if negb (String.eqb (File t1) (File t2)) then true
  else if negb (sameImports (imports t1) (imports t2)) then true
  else Line t1 + NumLineBreaks t1 <? Line t2.

Record Dispenser : Type := {
  tokens : list Token;
  cursor : Z;
  nesting : Z
}.

(** [caddyfile.NewDispenser(tokens)]. *)
Definition NewDispenser (toks : list Token) : Dispenser :=
  {| tokens := toks; cursor := -1; nesting := 0 |}.

Definition size (d : Dispenser) : Z := Z.of_nat (List.length (tokens d)).

Definition zeroToken : Token :=
  {| File := ""; imports := []; Line := 0; Text := ""; heredocMarker := "" |}.

Definition inRange (d : Dispenser) : bool := (0 <=? cursor d) && (cursor d <? size d).

(** [d.tokens[i]], for an index in range. *)
Definition tokenAt (d : Dispenser) (i : Z) : Token :=
  nth (Z.to_nat i) (tokens d) zeroToken.

(** [d.Token()]: the current token, the zero token out of range. *)
Definition CurrentToken (d : Dispenser) : Token :=
  if inRange d then tokenAt d (cursor d) else zeroToken.

(** [d.Val()]. *)
Definition Val (d : Dispenser) : string :=
  if inRange d then Text (tokenAt d (cursor d)) else "".

Definition moveTo (d : Dispenser) (c : Z) : Dispenser :=
  {| tokens := tokens d; cursor := c; nesting := nesting d |}.

Definition nest (d : Dispenser) (n : Z) : Dispenser :=
  {| tokens := tokens d; cursor := cursor d; nesting := n |}.

(** [d.Next()]. *)
Definition Next (d : Dispenser) : bool * Dispenser :=
  if cursor d <? size d - 1 then (true, moveTo d (cursor d + 1)) else (false, d).

(** [d.nextOnSameLine()]. *)
Definition nextOnSameLine (d : Dispenser) : bool * Dispenser :=
  if cursor d <? 0 then (true, moveTo d (cursor d + 1))
  else if cursor d >=? size d - 1 then (false, d)
  else
    let curr := tokenAt d (cursor d) in
    let next := tokenAt d (cursor d + 1) in
    if negb (isNextOnNewLine curr next) then (true, moveTo d (cursor d + 1))
    else (false, d).

(** [d.NextArg()]: a block opening is not an argument. *)
Definition NextArg (d : Dispenser) : bool * Dispenser :=
  let (same, d1) := nextOnSameLine d in
  if negb same then (false, d1)
  else if String.eqb (Val d1) "{" then (false, moveTo d1 (cursor d1 - 1))
  else (true, d1).

(** The condition [d.Val() == brace && !d.nextOnSameLine()], with Go's
    short circuit: the cursor is moved only when the text is [brace] and
    the next token is on the same line. *)
Definition braceAtLineEnd (brace : string) (d : Dispenser) : bool * Dispenser :=
  if String.eqb (Val d) brace then
    let (same, d1) := nextOnSameLine d in (negb same, d1)
  else (false, d).

(** [d.NextBlock(initialNestingLevel)]. *)
Definition NextBlock (initialNestingLevel : Z) (d : Dispenser) : bool * Dispenser :=
  if nesting d >? initialNestingLevel then
    let (ok, d1) := Next d in
    if negb ok then (false, d1)
    else
      let (closing, d2) := braceAtLineEnd "}" d1 in
      let d3 :=
        if closing then nest d2 (nesting d2 - 1)
        else
          let (opening, d2') := braceAtLineEnd "{" d2 in
          if opening then nest d2' (nesting d2' + 1) else d2' in
      (nesting d3 >? initialNestingLevel, d3)
  else
    let (same, d1) := nextOnSameLine d in
    if negb same then (false, d1)
    else if negb (String.eqb (Val d1) "{") then (false, moveTo d1 (cursor d1 - 1))
    else
      let d2 := snd (Next d1) in
      if String.eqb (Val d2) "}" then (false, d2)
      else (true, nest d2 (nesting d2 + 1)).

(** What a dispenser error says, and where: the errors come from
    [d.ArgErr], [d.Err], [d.Errf] and [d.WrapErr], which all add the file
    and the line of the current token.  The one error this package hands
    to [d.WrapErr] is the [*strconv.NumError] of [strconv.ParseBool]. *)
Inductive Complaint : Type :=
| UnexpectedOpenBrace
| WrongArgumentCount (after : string)
| Message (msg : string)
| Wrapped (cause : Strconv.NumErrorValue).

Record Error : Type := {
  complaint : Complaint;
  atFile : string;
  atLine : Z
}.

Definition errorAt (d : Dispenser) (c : Complaint) : Error :=
  {| complaint := c; atFile := File (CurrentToken d); atLine := Line (CurrentToken d) |}.

(** [d.Err(msg)]. *)
Definition Err (d : Dispenser) (msg : string) : Error := errorAt d (Message msg).

(** [d.WrapErr(err)]. *)
Definition WrapErr (d : Dispenser) (cause : Strconv.NumErrorValue) : Error :=
  errorAt d (Wrapped cause).

(** [d.ArgErr()]. *)
Definition ArgErr (d : Dispenser) : Error :=
  if String.eqb (Val d) "{" then errorAt d UnexpectedOpenBrace
  else errorAt d (WrongArgumentCount (Val d)).

(** What is left to read, as a number of loop turns: every turn of a
    [for d.NextBlock(0)] loop moves the cursor forward. *)
Definition turnsLeft (d : Dispenser) : nat := Z.to_nat (size d - cursor d).

End Caddyfile.

(** [strconv.ParseBool]: six spellings of true, six of false; any other
    string is a syntax error that carries the string. *)
Definition ParseBool (str : string) : bool + Strconv.NumErrorValue :=
  if String.eqb str "1" || String.eqb str "t" || String.eqb str "T"
     || String.eqb str "TRUE" || String.eqb str "true" || String.eqb str "True"
  then inl true
  else if String.eqb str "0" || String.eqb str "f" || String.eqb str "F"
          || String.eqb str "FALSE" || String.eqb str "false" || String.eqb str "False"
  then inl false
  else inr (Strconv.syntaxError "ParseBool" str).

(** ** Go maps from protocol IDs to paths

    [map[protocol.ID]libp2phttp.ProtocolMeta], the metadata being its
    [Path]: an association list in which a key occurs once. *)

Module ProtoMap.

Definition t : Type := list (string * string).

(** [m[k]], with the [ok] of the two-value form. *)
Fixpoint get (k : string) (m : t) : option string :=
  match m with
  | [] => None
  | (k', v) :: m' => if String.eqb k' k then Some v else get k m'
  end.

Fixpoint remove (k : string) (m : t) : t :=
  match m with
  | [] => []
  | (k', v) :: m' => if String.eqb k' k then remove k m' else (k', v) :: remove k m'
  end.

(** [m[k] = v]. *)
Definition set (k v : string) (m : t) : t := (k, v) :: remove k m.

Definition keys (m : t) : list string := map fst m.

End ProtoMap.

(** ** module.go: the Caddyfile side of [Libp2pHandler] *)

Module HandlerConfig.
Section Unmarshal.
Variable ResponseWriter : Type.

(** Lines 54-68, the [for d.NextBlock(0)] loop: the map, the dispenser
    and the error it ends with; [None] when [turns] turns were not
    enough. *)
Fixpoint unmarshalLoop (turns : nat) (d : Caddyfile.Dispenser) (m : ProtoMap.t)
  : option (ProtoMap.t * Caddyfile.Dispenser * option Caddyfile.Error) :=
  match turns with
  | O => None
  | S turns' =>
      let (more, d) := Caddyfile.NextBlock 0 d in
      if negb more then Some (m, d, None)
      else
        let key := Caddyfile.Val d in
        let (hasArg, d) := Caddyfile.NextArg d in
        if negb hasArg then Some (m, d, Some (Caddyfile.ArgErr d))
        else
          let t := Caddyfile.Val d in
          if negb (String.eqb t "=>") then Some (m, d, Some (Caddyfile.Err d "expected =>"))
          else
            let (hasArg, d) := Caddyfile.NextArg d in
            if negb hasArg then Some (m, d, Some (Caddyfile.ArgErr d))
            else
              let value := Caddyfile.Val d in
              unmarshalLoop turns' d (ProtoMap.set key value m)
  end.

(** Lines 51-70: [l] with its new map, the dispenser as it is left, and
    the error. *)
Definition UnmarshalCaddyfile (l : Handler.Libp2pHandler ResponseWriter)
           (d : Caddyfile.Dispenser)
  : option (Handler.Libp2pHandler ResponseWriter * Caddyfile.Dispenser
            * option Caddyfile.Error) :=
  let d := snd (Caddyfile.Next d) in
  match unmarshalLoop (S (Caddyfile.turnsLeft d)) d [] with
  | None => None
  | Some (m, d, err) =>
      Some ({| Handler.WellKnownHandler := Handler.WellKnownHandler l;
               Handler.ParsedProtosMap := m |}, d, err)
  end.

(** Lines 90-94: [m] starts as the zero [Libp2pHandler], whose [h] serves
    as [zeroHost]; the handler is returned beside the error. *)
Definition parseCaddyfile
           (zeroHost : ResponseWriter -> Handler.Request -> ResponseWriter)
           (d : Caddyfile.Dispenser)
  : option (Handler.Libp2pHandler ResponseWriter * option Caddyfile.Error) :=
  let m := {| Handler.WellKnownHandler := zeroHost; Handler.ParsedProtosMap := [] |} in
  match UnmarshalCaddyfile m d with
  | None => None
  | Some (m, _, err) => Some (m, err)
  end.

End Unmarshal.

(** [WellKnownHandler.AddProtocolMeta(p, meta)] of go-libp2p, on the
    handler's [wellKnownMapping]. *)
Definition AddProtocolMeta (p meta : string) (wellKnownMapping : ProtoMap.t) : ProtoMap.t :=
  ProtoMap.set p meta wellKnownMapping.

(** Lines 43-48: what [Provision] makes of the mapping of
    [l.h.WellKnownHandler], and its error, always nil.  [order] is the
    order in which [range] yields the entries of [l.ParsedProtosMap],
    which Go leaves open. *)
Definition Provision (order : list (string * string)) (wellKnownMapping : ProtoMap.t)
  : ProtoMap.t * option GoError :=
  (fold_left (fun mapping kv => AddProtocolMeta (fst kv) (snd kv) mapping)
             order wellKnownMapping,
   None).

End HandlerConfig.

(** ** app.go: [parseAppConfig] *)

Module AppConfig.

(** What [parseAppConfig] returns: its first value is [app] beside the
    error of the first test, nil beside every other error, and else the
    [httpcaddyfile.App] named [Name] whose [Value] is the JSON encoding
    of [app], kept here as [app] itself. *)
Inductive Returned : Type :=
| AppAndError (app : App) (err : Caddyfile.Error)
| NilAndError (err : Caddyfile.Error)
| HttpcaddyfileApp (Name : string) (Value : App).

Definition setAdvertiseAmino (v : bool) (app : App) : App :=
  {| PrivateKey := PrivateKey app; AdvertiseAmino := v |}.

Definition setPrivateKey (path : string) (app : App) : App :=
  {| PrivateKey := path; AdvertiseAmino := AdvertiseAmino app |}.

(** Lines 58-80, the [for d.NextBlock(0)] loop. *)
Fixpoint optionsLoop (turns : nat) (d : Caddyfile.Dispenser) (app : App)
  : option (Returned * Caddyfile.Dispenser) :=
  match turns with
  | O => None
  | S turns' =>
      let (more, d) := Caddyfile.NextBlock 0 d in
      if negb more then Some (HttpcaddyfileApp "libp2p" app, d)
      else
        let val := Caddyfile.Val d in
        if String.eqb val "advertise_amino" then
          let (hasArg, d) := Caddyfile.NextArg d in
          if hasArg then
            match ParseBool (Caddyfile.Val d) with
            | inr err => Some (NilAndError (Caddyfile.WrapErr d err), d)
            | inl v => optionsLoop turns' d (setAdvertiseAmino v app)
            end
          else optionsLoop turns' d (setAdvertiseAmino true app)
        else if String.eqb val "private_key" then
          let (hasArg, d) := Caddyfile.NextArg d in
          if negb hasArg then Some (NilAndError (Caddyfile.ArgErr d), d)
          else optionsLoop turns' d (setPrivateKey (Caddyfile.Val d) app)
        else
          Some (NilAndError
                  (Caddyfile.Err d ("unrecognized directive: " ++ Caddyfile.Val d)), d)
  end.

(** Lines 51-85. *)
Definition parseAppConfig (d : Caddyfile.Dispenser)
  : option (Returned * Caddyfile.Dispenser) :=
  let app := {| PrivateKey := ""; AdvertiseAmino := false |} in
  let (ok, d) := Caddyfile.Next d in
  if negb ok then Some (AppAndError app (Caddyfile.ArgErr d), d)
  else optionsLoop (S (Caddyfile.turnsLeft d)) d app.

End AppConfig.

(** ** Token lists of well-formed blocks

    The shapes of input the statements about the two unmarshalers speak
    of.  They fix nothing about files, lines or import chains beyond what
    the dispenser tests. *)

Module Block.
Import Caddyfile.

(** The dispenser over [before ++ current :: after] with its cursor on
    [current]. *)
Definition focus (before : list Token) (current : Token) (after : list Token)
           (level : Z) : Dispenser :=
  {| tokens := before ++ current :: after;
     cursor := Z.of_nat (List.length before);
     nesting := level |}.

(** A token of the file [Caddyfile], outside any import. *)
Definition tok (line : Z) (text : string) : Token :=
  {| File := "Caddyfile"; imports := []; Line := line; Text := text;
     heredocMarker := "" |}.

Definition isBrace (s : string) : bool := String.eqb s "{" || String.eqb s "}".

(** [t] is the last token of its line. *)
Definition endsLine (t : Token) (after : list Token) : bool :=
  match after with
  | [] => true
  | next :: _ => isNextOnNewLine t next
  end.

(** After [name] no block opens: nothing follows, or what follows is on
    another line or is no opening brace. *)
Definition noBlock (name : Token) (rest : list Token) : bool :=
  match rest with
  | [] => true
  | next :: _ => isNextOnNewLine name next || negb (String.eqb (Text next) "{")
  end.

(** [open] is a brace on the line of [name]. *)
Definition opensBlock (name open : Token) : bool :=
  negb (isNextOnNewLine name open) && String.eqb (Text open) "{".

(** [close] is a closing brace that ends its line. *)
Definition closesBlock (close : Token) (rest : list Token) : bool :=
  String.eqb (Text close) "}" && endsLine close rest.

(** A line [key => value] of the [well_known-libp2p] block. *)
Record Entry : Type := { keyTok : Token; arrowTok : Token; valueTok : Token }.

Definition entryTokens (e : Entry) : list Token := [keyTok e; arrowTok e; valueTok e].

Definition wellFormedEntry (e : Entry) : bool :=
  negb (isBrace (Text (keyTok e)))
  && String.eqb (Text (arrowTok e)) "=>"
  && negb (String.eqb (Text (valueTok e)) "{")
  && negb (isNextOnNewLine (keyTok e) (arrowTok e))
  && negb (isNextOnNewLine (arrowTok e) (valueTok e)).

(** What the loop body does with one entry. *)
Definition storeEntry (m : ProtoMap.t) (e : Entry) : ProtoMap.t :=
  ProtoMap.set (Text (keyTok e)) (Text (valueTok e)) m.

(** The map the entries spell out, the later entry winning. *)
Definition stored (entries : list Entry) : ProtoMap.t := fold_left storeEntry entries [].

(** A line the loop stops at: a key alone, a key followed by something
    else than the arrow, a key and an arrow without value. *)
Inductive BadLine : Type :=
| KeyOnly (key : Token)
| NotArrow (key other : Token)
| NoValue (key arrow : Token).

Definition badTokens (bad : BadLine) : list Token :=
  match bad with
  | KeyOnly key => [key]
  | NotArrow key other => [key; other]
  | NoValue key arrow => [key; arrow]
  end.

(** [after] is what follows the line. *)
Definition isBadLine (bad : BadLine) (after : list Token) : bool :=
  match bad with
  | KeyOnly key => negb (isBrace (Text key)) && endsLine key after
  | NotArrow key other =>
      negb (isBrace (Text key)) && negb (isNextOnNewLine key other)
      && negb (String.eqb (Text other) "{") && negb (String.eqb (Text other) "=>")
  | NoValue key arrow =>
      negb (isBrace (Text key)) && negb (isNextOnNewLine key arrow)
      && String.eqb (Text arrow) "=>" && endsLine arrow after
  end.

(** The tokens of the line before the one the cursor stops on, and that
    one. *)
Definition badBefore (bad : BadLine) : list Token :=
  match bad with
  | KeyOnly _ => []
  | NotArrow key _ => [key]
  | NoValue key _ => [key]
  end.

Definition culprit (bad : BadLine) : Token :=
  match bad with
  | KeyOnly key => key
  | NotArrow _ other => other
  | NoValue _ arrow => arrow
  end.

Definition badComplaint (bad : BadLine) : Complaint :=
  match bad with
  | KeyOnly key => WrongArgumentCount (Text key)
  | NotArrow _ _ => Message "expected =>"
  | NoValue _ arrow => WrongArgumentCount (Text arrow)
  end.

(** The path of the last entry for [id]. *)
Definition lastPath (id : string) (entries : list Entry) : option string :=
  fold_left (fun found e => if String.eqb (Text (keyTok e)) id
                            then Some (Text (valueTok e)) else found)
            entries None.

(** A line of the [libp2p] block: [advertise_amino] alone,
    [advertise_amino] with an argument, [private_key] with its path. *)
Inductive Directive : Type :=
| Advertise (name : Token)
| AdvertiseArg (name arg : Token)
| KeyPath (name arg : Token).

Definition directiveTokens (dir : Directive) : list Token :=
  match dir with
  | Advertise name => [name]
  | AdvertiseArg name arg => [name; arg]
  | KeyPath name arg => [name; arg]
  end.

Definition nameOf (dir : Directive) : Token :=
  match dir with
  | Advertise name => name
  | AdvertiseArg name _ => name
  | KeyPath name _ => name
  end.

(** The first token of the directives [dirs] followed by [next]. *)
Definition firstToken (dirs : list Directive) (next : Token) : Token :=
  match dirs with
  | [] => next
  | dir :: _ => nameOf dir
  end.

(** [next] is the token after the directive. *)
Definition wellFormedDirective (dir : Directive) (next : Token) : bool :=
  match dir with
  | Advertise name =>
      String.eqb (Text name) "advertise_amino" && isNextOnNewLine name next
  | AdvertiseArg name arg =>
      String.eqb (Text name) "advertise_amino"
      && negb (isNextOnNewLine name arg)
      && negb (String.eqb (Text arg) "{")
      && match ParseBool (Text arg) with inl _ => true | inr _ => false end
  | KeyPath name arg =>
      String.eqb (Text name) "private_key"
      && negb (isNextOnNewLine name arg)
      && negb (String.eqb (Text arg) "{")
  end.

(** [next] is the token after the directives. *)
Fixpoint wellFormedDirectives (dirs : list Directive) (next : Token) : bool :=
  match dirs with
  | [] => true
  | dir :: dirs' =>
      wellFormedDirective dir (firstToken dirs' next) && wellFormedDirectives dirs' next
  end.

(** What one directive sets. *)
Definition applyDirective (dir : Directive) (app : App) : App :=
  match dir with
  | Advertise _ => AppConfig.setAdvertiseAmino true app
  | AdvertiseArg _ arg =>
      match ParseBool (Text arg) with
      | inl v => AppConfig.setAdvertiseAmino v app
      | inr _ => app
      end
  | KeyPath _ arg => AppConfig.setPrivateKey (Text arg) app
  end.

Definition configured (dirs : list Directive) : App :=
  fold_left (fun app dir => applyDirective dir app) dirs
            {| PrivateKey := ""; AdvertiseAmino := false |}.

(** A line of the [libp2p] block the loop stops at: a directive it does
    not know, [advertise_amino] with an argument that is no boolean,
    [private_key] without path. *)
Inductive BadDirective : Type :=
| Unknown (name : Token)
| BadBool (name arg : Token)
| KeyWithoutPath (name : Token).

Definition badDirectiveTokens (bad : BadDirective) : list Token :=
  match bad with
  | Unknown name => [name]
  | BadBool name arg => [name; arg]
  | KeyWithoutPath name => [name]
  end.

Definition badName (bad : BadDirective) : Token :=
  match bad with
  | Unknown name => name
  | BadBool name _ => name
  | KeyWithoutPath name => name
  end.

Definition isBadDirective (bad : BadDirective) (after : list Token) : bool :=
  match bad with
  | Unknown name =>
      negb (isBrace (Text name))
      && negb (String.eqb (Text name) "advertise_amino")
      && negb (String.eqb (Text name) "private_key")
  | BadBool name arg =>
      String.eqb (Text name) "advertise_amino"
      && negb (isNextOnNewLine name arg)
      && negb (String.eqb (Text arg) "{")
      && match ParseBool (Text arg) with inl _ => false | inr _ => true end
  | KeyWithoutPath name =>
      String.eqb (Text name) "private_key" && endsLine name after
  end.

Definition badDirectiveBefore (bad : BadDirective) : list Token :=
  match bad with
  | BadBool name _ => [name]
  | _ => []
  end.

Definition badDirectiveCulprit (bad : BadDirective) : Token :=
  match bad with
  | Unknown name => name
  | BadBool _ arg => arg
  | KeyWithoutPath name => name
  end.

Definition badDirectiveComplaint (bad : BadDirective) : Complaint :=
  match bad with
  | Unknown name => Message ("unrecognized directive: " ++ Text name)
  | BadBool _ arg =>
      Wrapped {| Strconv.Func := "ParseBool"; Strconv.Num := Text arg;
                 Strconv.Err := Strconv.ErrSyntax |}
  | KeyWithoutPath name => WrongArgumentCount (Text name)
  end.

(** The directives that spell out [app], a setting at its zero value
    being left out. *)
Definition directivesOf (app : App) : list Directive :=
  (if String.eqb (PrivateKey app) "" then []
   else [KeyPath (tok 2 "private_key") (tok 2 (PrivateKey app))])
  ++ (if AdvertiseAmino app then [Advertise (tok 3 "advertise_amino")] else []).

(** The [libp2p] block that spells out [app]. *)
Definition render (app : App) : list Token :=
  tok 1 "libp2p" :: tok 1 "{"
  :: flat_map directiveTokens (directivesOf app) ++ [tok 4 "}"].

End Block.

(** A port the address parser lets through: nothing, or what
    [strconv.Atoi] accepts; in both cases without colon. *)
Definition acceptedPort (port : string) : bool :=
  negb (GoString.contains ":" port)
  && match port with
     | EmptyString => true
     | _ => match Strconv.Atoi port with inl _ => true | inr _ => false end
     end.

(** The errors of lines 147-178. *)
Definition isIdentityError (e : Error) : bool :=
  match e with
  | IOError _ | EnvelopeFormatError _ | UnexpectedKeyType _
  | KeyDecodeError _ | KeyConversionError _ => true
  | _ => false
  end.

(** ** Sample blocks for the simulated environment *)

Module SimConfig.
Import Caddyfile Block.

Definition entry (line : Z) (id path : string) : Entry :=
  {| keyTok := tok line id; arrowTok := tok line "=>"; valueTok := tok line path |}.

(** Three entries, the third for the protocol ID of the first. *)
Definition gatewayEntries : list Entry :=
  [entry 2 "/ipfs/gateway" "/"; entry 3 "/echo/1.0.0" "/echo"; entry 4 "/ipfs/gateway" "/gw"].

Definition blockName : Token := tok 1 "well_known-libp2p".
Definition blockOpen : Token := tok 1 "{".
Definition blockClose : Token := tok 5 "}".

Definition plainHandler : Handler.Libp2pHandler (list string) :=
  {| Handler.WellKnownHandler := fun w _ => w;
     Handler.ParsedProtosMap := [("/stale", "/old")] |}.

Definition zeroHost : list string -> Handler.Request -> list string := fun w _ => w.

(** The [libp2p] option with both settings, the second given twice. *)
Definition optionLines : list Directive :=
  [KeyPath (tok 2 "private_key") (tok 2 "/keys/ed25519.pem");
   AdvertiseArg (tok 3 "advertise_amino") (tok 3 "false");
   Advertise (tok 4 "advertise_amino")].

Definition optionName : Token := tok 1 "libp2p".

(** An app whose key file does not exist. *)
Definition missingKeyApp : App :=
  {| PrivateKey := "/keys/missing.pem"; AdvertiseAmino := false |}.

End SimConfig.

(** * Properties *)

(** ** The models on concrete inputs *)

Example atoi_4001 : Strconv.Atoi "4001" = inl 4001.
Proof. reflexivity. Qed.

Example atoi_neg : Strconv.Atoi "-5" = inl (-5).
Proof. reflexivity. Qed.

Example atoi_empty : Strconv.Atoi "" = inr Strconv.ErrSyntax.
Proof. reflexivity. Qed.

Example atoi_junk : Strconv.Atoi "40x1" = inr Strconv.ErrSyntax.
Proof. reflexivity. Qed.

Example atoi_big : Strconv.Atoi "9223372036854775808" = inr Strconv.ErrRange.
Proof. vm_compute. reflexivity. Qed.

Example lastIndex_ex : GoString.LastIndex "/ip4/0.0.0.0/tcp/4001:4001" ":" = 21.
Proof. reflexivity. Qed.

Example lastIndex_none : GoString.LastIndex "4001" ":" = -1.
Proof. reflexivity. Qed.

Example lastIndex_empty : GoString.LastIndex "" ":" = -1.
Proof. reflexivity. Qed.

Example multiaddr_ip4_tcp :
  Multiaddr.NewMultiaddr "/ip4/0.0.0.0/tcp/4001"
  = Some (inl [(Multiaddr.P_IP4, Multiaddr.IPv4 0 0 0 0);
               (Multiaddr.P_TCP, Multiaddr.Port 4001)]).
Proof. reflexivity. Qed.

Example multiaddr_double_slash :
  Multiaddr.NewMultiaddr "//ip4/0.0.0.0/tcp/4001" = Some (inr "unknown protocol ").
Proof. reflexivity. Qed.

Example multiaddr_no_slash :
  Multiaddr.NewMultiaddr "ip4/0.0.0.0/tcp/4001" = Some (inr "must begin with /").
Proof. reflexivity. Qed.

Example multiaddr_empty : Multiaddr.NewMultiaddr "" = Some (inr "empty multiaddr").
Proof. reflexivity. Qed.

Example multiaddr_signed_port :
  Multiaddr.NewMultiaddr "/ip4/0.0.0.0/tcp/-1" = Some (inr "failed to parse port addr").
Proof. reflexivity. Qed.

Example multiaddr_port_range :
  Multiaddr.NewMultiaddr "/ip4/0.0.0.0/tcp/65535"
  = Some (inl [(Multiaddr.P_IP4, Multiaddr.IPv4 0 0 0 0);
               (Multiaddr.P_TCP, Multiaddr.Port 65535)])
  /\ Multiaddr.NewMultiaddr "/ip4/0.0.0.0/tcp/65536"
     = Some (inr "failed to parse port addr").
Proof. split; reflexivity. Qed.

Example multiaddr_left_open :
  Multiaddr.NewMultiaddr "/ip6/::1/tcp/4001" = None
  /\ Multiaddr.NewMultiaddr "/ip4/::ffff:127.0.0.1/tcp/4001" = None.
Proof. split; reflexivity. Qed.

Example parseBool_yes :
  ParseBool "yes"
  = inr {| Strconv.Func := "ParseBool"; Strconv.Num := "yes";
           Strconv.Err := Strconv.ErrSyntax |}
  /\ ParseBool "True" = inl true /\ ParseBool "F" = inl false.
Proof. repeat split; reflexivity. Qed.

(** ** Go strings: the last colon *)

Module GoStringFacts.
Import GoString.

Lemma prefix_colon (s : string) :
  String.prefix ":" s
  = match s with String c _ => Ascii.eqb c ":" | EmptyString => false end.
Proof.
  destruct s as [|c s]; [reflexivity|].
  change (String.prefix ":" (String c s))
    with (if ascii_dec ":" c then String.prefix "" s else false).
  destruct (ascii_dec ":" c) as [<-|Hne].
  - rewrite Ascii.eqb_refl. now destruct s.
  - symmetry. apply Ascii.eqb_neq. congruence.
Qed.

Lemma len_cons (c : ascii) (s : string) : len (String c s) = len s + 1.
Proof. unfold len. simpl String.length. lia. Qed.

Lemma len_nonneg (s : string) : 0 <= len s.
Proof. unfold len. lia. Qed.

Lemma length_app (s t : string) :
  String.length (s ++ t) = (String.length s + String.length t)%nat.
Proof. induction s as [|c s IH]; simpl; [reflexivity|now rewrite IH]. Qed.

Lemma len_app (s t : string) : len (s ++ t) = len s + len t.
Proof. unfold len. rewrite length_app. lia. Qed.

Lemma lastIndexFrom_no_colon (s : string) (pos acc : Z) :
  contains ":" s = false -> lastIndexFrom s ":" pos acc = acc.
Proof.
  revert pos acc. induction s as [|c s IH]; intros pos acc H.
  - reflexivity.
  - simpl in H. apply orb_false_iff in H as [Hc Hs].
    cbn [lastIndexFrom]. rewrite prefix_colon, Hc. now apply IH.
Qed.

Lemma lastIndexFrom_split (pre suf : string) (pos acc : Z) :
  contains ":" suf = false ->
  lastIndexFrom (pre ++ String ":" suf) ":" pos acc = pos + len pre.
Proof.
  intros Hsuf. revert pos acc. induction pre as [|c pre IH]; intros pos acc.
  - cbn [append lastIndexFrom]. rewrite prefix_colon, Ascii.eqb_refl.
    rewrite lastIndexFrom_no_colon by assumption. unfold len. simpl. lia.
  - cbn [append lastIndexFrom]. rewrite IH, len_cons. lia.
Qed.

Lemma LastIndex_split (pre suf : string) :
  contains ":" suf = false -> LastIndex (pre ++ String ":" suf) ":" = len pre.
Proof. intros H. unfold LastIndex. now rewrite lastIndexFrom_split. Qed.

Lemma LastIndex_no_colon (s : string) :
  contains ":" s = false -> LastIndex s ":" = -1.
Proof. intros H. unfold LastIndex. now apply lastIndexFrom_no_colon. Qed.

(** A string with a colon splits at its last colon. *)
Lemma split_last_colon (s : string) :
  contains ":" s = true ->
  exists pre suf, s = (pre ++ String ":" suf)%string /\ contains ":" suf = false.
Proof.
  induction s as [|c s IH]; intros H; [discriminate|].
  destruct (contains ":" s) eqn:Hs.
  - destruct (IH eq_refl) as (pre & suf & -> & Hsuf).
    exists (String c pre), suf. split; [reflexivity|assumption].
  - simpl in H. rewrite Hs, orb_false_r in H. apply Ascii.eqb_eq in H. subst c.
    exists EmptyString, s. split; [reflexivity|assumption].
Qed.

Lemma contains_app (c : ascii) (s t : string) :
  contains c (s ++ t) = contains c s || contains c t.
Proof.
  induction s as [|a s IH]; simpl; [reflexivity|].
  now rewrite IH, orb_assoc.
Qed.

Lemma substring_all (s : string) : String.substring 0 (String.length s) s = s.
Proof. induction s as [|c s IH]; simpl; [reflexivity|now rewrite IH]. Qed.

Lemma substring_prefix (pre rest : string) :
  String.substring 0 (String.length pre) (pre ++ rest) = pre.
Proof.
  induction pre as [|c pre IH]; simpl.
  - now destruct rest.
  - now rewrite IH.
Qed.

Lemma substring_suffix (pre rest : string) :
  String.substring (String.length pre) (String.length rest) (pre ++ rest) = rest.
Proof.
  induction pre as [|c pre IH]; simpl; [apply substring_all|exact IH].
Qed.

Lemma sliceTo_split (pre suf : string) :
  sliceTo (pre ++ String ":" suf) (len pre) = inl pre.
Proof.
  unfold sliceTo. rewrite len_app, len_cons.
  pose proof (len_nonneg pre). pose proof (len_nonneg suf).
  replace ((0 <=? len pre) && (len pre <=? len pre + (len suf + 1))) with true
    by (symmetry; apply andb_true_iff; split; apply Z.leb_le; lia).
  unfold len. rewrite Nat2Z.id. now rewrite substring_prefix.
Qed.

Lemma app_colon_assoc (pre suf : string) :
  (pre ++ String ":" suf)%string = ((pre ++ ":") ++ suf)%string.
Proof. induction pre as [|c pre IH]; simpl; [reflexivity|now rewrite IH]. Qed.

Lemma sliceFrom_split (pre suf : string) :
  sliceFrom (pre ++ String ":" suf) (len pre + 1) = inl suf.
Proof.
  unfold sliceFrom. rewrite len_app, len_cons.
  pose proof (len_nonneg pre). pose proof (len_nonneg suf).
  replace ((0 <=? len pre + 1) && (len pre + 1 <=? len pre + (len suf + 1))) with true
    by (symmetry; apply andb_true_iff; split; apply Z.leb_le; lia).
  unfold len. rewrite app_colon_assoc.
  replace (Z.to_nat (Z.of_nat (String.length pre) + 1))
    with (String.length (pre ++ ":")%string) by (rewrite length_app; simpl; lia).
  replace (String.length ((pre ++ ":") ++ suf)%string
           - String.length (pre ++ ":")%string)%nat
    with (String.length suf) by (rewrite (length_app (pre ++ ":") suf); lia).
  now rewrite substring_suffix.
Qed.

Lemma sliceTo_minus_one (s : string) :
  sliceTo s (-1) = inr (SliceBoundsOutOfRange (-1) (len s)).
Proof. reflexivity. Qed.

Lemma sliceFrom_zero (s : string) : sliceFrom s 0 = inl s.
Proof.
  unfold sliceFrom. pose proof (len_nonneg s).
  replace ((0 <=? 0) && (0 <=? len s)) with true
    by (symmetry; apply andb_true_iff; split; apply Z.leb_le; lia).
  simpl Z.to_nat. rewrite Nat.sub_0_r. now rewrite substring_all.
Qed.
End GoStringFacts.

Section ParseFacts.
Context {T : Types} (env : Externals T).
Import GoString GoStringFacts.

Lemma finish_parse (s : string) (port : Z) :
  (ma <- callE (CallNewMultiaddr s) (NewMultiaddr env s) MalformedAddress ;;
   ret (T := T) (ma, port)) = parsedWith env s port.
Proof. unfold parsedWith, callE, bind, ret. now destruct (NewMultiaddr env s). Qed.

Lemma ModuleGo_parseAddr_split (pre suf : string) :
  contains ":" suf = false ->
  ModuleGo.parseAddr env (pre ++ String ":" suf) =
  match suf with
  | EmptyString => parsedWith env ("/" ++ pre) 0
  | _ => match Strconv.Atoi suf with
         | inl n => parsedWith env ("/" ++ pre) n
         | inr e => (Fail (MalformedPort e), [])
         end
  end.
Proof.
  intros Hsuf. unfold ModuleGo.parseAddr.
  rewrite (LastIndex_split pre suf Hsuf), len_app, len_cons.
  rewrite sliceFrom_split, sliceTo_split.
  destruct suf as [|c suf].
  - replace (len pre =? len pre + (len "" + 1) - 1) with true
      by (symmetry; apply Z.eqb_eq; unfold len; simpl; lia).
    cbn [negb]. unfold slice. cbn [bind ret app].
    rewrite <- (finish_parse ("/" ++ pre) 0). unfold bind, ret, callE.
    now destruct (NewMultiaddr env ("/" ++ pre)).
  - replace (len pre =? len pre + (len (String c suf) + 1) - 1) with false
      by (symmetry; apply Z.eqb_neq; rewrite len_cons; pose proof (len_nonneg suf); lia).
    cbn [negb]. unfold slice. cbn [bind ret app].
    destruct (Strconv.Atoi (String c suf)) as [n|e]; [|reflexivity].
    cbn [bind ret app fail].
    rewrite <- (finish_parse ("/" ++ pre) n). unfold bind, ret, callE.
    now destruct (NewMultiaddr env ("/" ++ pre)).
Qed.

Lemma Part000_parseAddr_split (pre suf : string) :
  contains ":" suf = false ->
  Part000.parseAddr env (pre ++ String ":" suf) =
  match suf with
  | EmptyString => parsedWith env pre 0
  | _ => match Strconv.Atoi suf with
         | inl n => parsedWith env pre n
         | inr e => (Fail (MalformedPort e), [])
         end
  end.
Proof.
  intros Hsuf. unfold Part000.parseAddr.
  rewrite (LastIndex_split pre suf Hsuf), len_app, len_cons.
  rewrite sliceFrom_split, sliceTo_split.
  destruct suf as [|c suf].
  - replace (len pre =? len pre + (len "" + 1) - 1) with true
      by (symmetry; apply Z.eqb_eq; unfold len; simpl; lia).
    cbn [negb]. unfold slice. cbn [bind ret app].
    rewrite <- (finish_parse pre 0). unfold bind, ret, callE.
    now destruct (NewMultiaddr env pre).
  - replace (len pre =? len pre + (len (String c suf) + 1) - 1) with false
      by (symmetry; apply Z.eqb_neq; rewrite len_cons; pose proof (len_nonneg suf); lia).
    cbn [negb]. unfold slice. cbn [bind ret app].
    destruct (Strconv.Atoi (String c suf)) as [n|e]; [|reflexivity].
    cbn [bind ret app fail].
    rewrite <- (finish_parse pre n). unfold bind, ret, callE.
    now destruct (NewMultiaddr env pre).
Qed.

(** Without a colon, [lastColon] is [-1]: the port is read from the whole
    string, and the slice that should drop it is out of bounds. *)
Lemma ModuleGo_parseAddr_no_colon (addr : string) :
  contains ":" addr = false ->
  ModuleGo.parseAddr env addr =
  match addr with
  | EmptyString => (Panic (SliceBoundsOutOfRange (-1) 0), [])
  | _ => match Strconv.Atoi addr with
         | inl _ => (Panic (SliceBoundsOutOfRange (-1) (len addr)), [])
         | inr e => (Fail (MalformedPort e), [])
         end
  end.
Proof.
  intros H. unfold ModuleGo.parseAddr. rewrite (LastIndex_no_colon addr H).
  destruct addr as [|c s]; [reflexivity|].
  replace (-1 =? len (String c s) - 1) with false
    by (symmetry; apply Z.eqb_neq; rewrite len_cons; pose proof (len_nonneg s); lia).
  change (-1 + 1) with 0. rewrite sliceFrom_zero, sliceTo_minus_one.
  cbn [negb slice bind ret app]. now destruct (Strconv.Atoi (String c s)).
Qed.

Lemma Part000_parseAddr_no_colon (addr : string) :
  contains ":" addr = false ->
  Part000.parseAddr env addr =
  match addr with
  | EmptyString => (Panic (SliceBoundsOutOfRange (-1) 0), [])
  | _ => match Strconv.Atoi addr with
         | inl _ => (Panic (SliceBoundsOutOfRange (-1) (len addr)), [])
         | inr e => (Fail (MalformedPort e), [])
         end
  end.
Proof.
  intros H. unfold Part000.parseAddr. rewrite (LastIndex_no_colon addr H).
  destruct addr as [|c s]; [reflexivity|].
  replace (-1 =? len (String c s) - 1) with false
    by (symmetry; apply Z.eqb_neq; rewrite len_cons; pose proof (len_nonneg s); lia).
  change (-1 + 1) with 0. rewrite sliceFrom_zero, sliceTo_minus_one.
  cbn [negb slice bind ret app]. now destruct (Strconv.Atoi (String c s)).
Qed.

Lemma parsedWith_noHost (s : string) (port : Z) :
  noHostCalls (calls (parsedWith env s port)) = true.
Proof. reflexivity. Qed.

Lemma ModuleGo_parseAddr_noHost (addr : string) :
  noHostCalls (calls (ModuleGo.parseAddr env addr)) = true.
Proof.
  destruct (contains ":" addr) eqn:Hc.
  - destruct (split_last_colon addr Hc) as (pre & suf & -> & Hsuf).
    rewrite (ModuleGo_parseAddr_split pre suf Hsuf).
    destruct suf; [reflexivity|]. now destruct (Strconv.Atoi _).
  - rewrite (ModuleGo_parseAddr_no_colon addr Hc).
    destruct addr; [reflexivity|]. now destruct (Strconv.Atoi _).
Qed.

Lemma ModuleGo_loadIdentity_noHost (app : App) :
  noHostCalls (calls (ModuleGo.loadIdentity env app)) = true.
Proof.
  unfold ModuleGo.loadIdentity.
  destruct (negb (PrivateKey app =? "")%string); [|reflexivity].
  destruct (ReadFile env (PrivateKey app)) as [data|e]; [|reflexivity].
  cbn [callE bind call].
  destruct (Decode env data) as [[blk|] rest]; [|reflexivity].
  destruct (negb (Pem.Type_ blk =? "PRIVATE KEY")%string); [reflexivity|].
  destruct (ParsePKCS8PrivateKey env (Pem.Bytes blk)) as [k|e]; [|reflexivity].
  cbn [callE bind].
  now destruct (KeyPairFromStdKey env (ModuleGo.ed25519Pointer k)).
Qed.

Lemma noHostCalls_app (t u : list (Event T)) :
  noHostCalls (t ++ u) = noHostCalls t && noHostCalls u.
Proof. apply forallb_app. Qed.

Lemma noHostCalls_not_New (t : list (Event T)) (opts : list (Libp2p.Option_ T)) :
  noHostCalls t = true -> ~ In (CallNew opts) t.
Proof.
  intros H Hin. unfold noHostCalls in H. rewrite forallb_forall in H.
  now specialize (H _ Hin).
Qed.

Lemma noHostCalls_filter_New (t : list (Event T)) :
  noHostCalls t = true -> filter isCallNew t = [].
Proof.
  induction t as [|e t IH]; [reflexivity|]. cbn [noHostCalls forallb filter].
  intros H. apply andb_true_iff in H as [He Ht].
  destruct e; cbn in He |- *; try discriminate; now apply IH.
Qed.

Lemma noHostCalls_no_Listen (t : list (Event T)) :
  noHostCalls t = true -> existsb isCallListen t = false.
Proof.
  induction t as [|e t IH]; [reflexivity|]. cbn [noHostCalls forallb existsb].
  intros H. apply andb_true_iff in H as [He Ht].
  destruct e; cbn in He |- *; try discriminate; now apply IH.
Qed.
End ParseFacts.

Section RegistrationFacts.
Context {T : Types} (env : Externals T).
Variables (cctx : Caddy.Context) (app : App).
Hypothesis HApp : Caddy.AppOf cctx "libp2p" = inl (AppPtr app).

(** A failure while loading the identity ends the registration, before
    [libp2p.New] and [gostream.Listen]. *)
Lemma register_identity_fails (e : Error) (t : list (Event T)) :
  ModuleGo.loadIdentity env app = (Fail e, t) ->
  forall network addr cfg,
    noHostCalls (calls (ModuleGo.registerMultiaddrURI env (CaddyContext cctx) network addr cfg)) = true
    /\ (forall l, outcome (ModuleGo.registerMultiaddrURI env (CaddyContext cctx) network addr cfg) <> Ok l)
    /\ (network = "multiaddr:" ->
        forall r t0, ModuleGo.parseAddr env addr = (Ok r, t0) ->
        outcome (ModuleGo.registerMultiaddrURI env (CaddyContext cctx) network addr cfg) = Fail e).
Proof.
  intros Hload network addr cfg.
  pose proof (ModuleGo_loadIdentity_noHost env app) as Ht. rewrite Hload in Ht.
  pose proof (ModuleGo_parseAddr_noHost env addr) as Hp.
  unfold ModuleGo.registerMultiaddrURI, ModuleGo.buildHost.
  destruct (String.eqb_spec network "multiaddr:") as [->|Hne]; cbn [negb].
  - destruct (ModuleGo.parseAddr env addr) as [[r|e0|p] t0]; cbn [bind fail];
      [|repeat split; [exact Hp|discriminate|intros _ r t1 [=]]..].
    rewrite HApp. cbn [callE bind]. rewrite Hload. cbn [bind List.app calls outcome fst snd].
    repeat split.
    + cbn [calls snd] in Hp, Ht. rewrite noHostCalls_app, Hp. cbn [andb].
      exact Ht.
    + discriminate.
  - repeat split; [discriminate|congruence].
Qed.

(** The two ways a registration can go: it ends before [libp2p.New] is
    called, or it calls [libp2p.New] once, with [hostOptions], and
    listens if that gave a host. *)
Lemma register_shape (network addr : string) (cfg : ListenConfig) :
  (noHostCalls (calls (ModuleGo.registerMultiaddrURI env (CaddyContext cctx) network addr cfg)) = true
   /\ forall l, outcome (ModuleGo.registerMultiaddrURI env (CaddyContext cctx) network addr cfg) <> Ok l)
  \/ exists t ma sk,
      noHostCalls t = true /\
      ModuleGo.registerMultiaddrURI env (CaddyContext cctx) network addr cfg =
      let opts := ModuleGo.hostOptions env (CaddyContext cctx) ma sk app in
      let tag := Libp2p.ProtocolIDForMultistreamSelect in
      match New env opts with
      | inr e => (Fail (HostConstructionError e), t ++ [CallNew opts])
      | inl h =>
          (match Listen env h tag [Gostream.IgnoreEOF] with
           | inl l => Ok l
           | inr e => Fail (ListenError e)
           end,
           t ++ [CallNew opts;
                 CallPrintln (PrintedID (HostID env h));
                 CallPrintln (PrintedAddrs (HostAddrs env h));
                 CallListen h tag [Gostream.IgnoreEOF]])
      end.
Proof.
  pose proof (ModuleGo_loadIdentity_noHost env app) as Ht.
  pose proof (ModuleGo_parseAddr_noHost env addr) as Hp.
  unfold ModuleGo.registerMultiaddrURI, ModuleGo.buildHost.
  destruct (String.eqb_spec network "multiaddr:") as [->|Hne]; cbn [negb];
    [|left; split; [reflexivity|discriminate]].
  destruct (ModuleGo.parseAddr env addr) as [[r|e0|p] t0]; cbn [bind fail];
    [|left; split; [exact Hp|discriminate]..].
  rewrite HApp. cbn [callE bind].
  destruct (ModuleGo.loadIdentity env app) as [[sk|e1|p1] t1]; cbn [bind List.app];
    cbn [calls snd] in Hp, Ht.
  2,3: left; split; [|discriminate]; cbn [calls snd];
       rewrite noHostCalls_app, Hp; exact Ht.
  right. exists (t0 ++ CallApp "libp2p" :: t1), (fst r), sk. split.
  - rewrite noHostCalls_app, Hp. exact Ht.
  - cbv zeta. destruct (New env _) as [h|e]; cbn [bind call ret List.app callE].
    + destruct (Listen env h _ _); cbn [callE]; normalize_calls; reflexivity.
    + normalize_calls. reflexivity.
Qed.
End RegistrationFacts.

(** ** The claims

    Each theorem below is named after the claim it settles. *)

(** C1, as stated, fails on module.go: the raw address
    ["/ip4/0.0.0.0/tcp/4001:4001"] is cut at the last colon, ["/"] is put
    in front of the segment, and the multiaddr parser refuses
    ["//ip4/0.0.0.0/tcp/4001"]; the registration fails with
    MalformedAddress. *)
Lemma C1_counterexample :
  ModuleGo.parseAddr Scenario.E "/ip4/0.0.0.0/tcp/4001:4001"
  = (Fail (MalformedAddress "unknown protocol "),
     [CallNewMultiaddr "//ip4/0.0.0.0/tcp/4001"])
  /\ ModuleGo.registerMultiaddrURI Scenario.E Scenario.ctx "multiaddr:"
       "/ip4/0.0.0.0/tcp/4001:4001" DefaultListenConfig
     = (Fail (MalformedAddress "unknown protocol "),
        [CallNewMultiaddr "//ip4/0.0.0.0/tcp/4001"]).
Proof. split; vm_compute; reflexivity. Qed.

(** C1, amended: when the multiaddr parser reads the text
    ["/ip4/0.0.0.0/tcp/4001"] as the multiaddr of [ip4 0.0.0.0] and
    [tcp 4001], module.go parses the raw address
    ["ip4/0.0.0.0/tcp/4001:4001"] (no leading slash: the function adds
    it) into that multiaddr with port [4001], and
    ["ip4/0.0.0.0/tcp/4001:"] into the same multiaddr with the port left
    at zero, Go's value for "no explicit port"; the earlier revision does
    so for the two strings of the claim, which have the leading slash.
    Nothing else is asked of the parser. *)
Theorem C1_scenarios (T : Types) (env : Externals T) :
  NewMultiaddr env "/ip4/0.0.0.0/tcp/4001" = inl Scenario.ip4_tcp_4001 ->
  ModuleGo.parseAddr env "ip4/0.0.0.0/tcp/4001:4001"
  = (Ok (Scenario.ip4_tcp_4001, 4001), [CallNewMultiaddr "/ip4/0.0.0.0/tcp/4001"])
  /\ ModuleGo.parseAddr env "ip4/0.0.0.0/tcp/4001:"
     = (Ok (Scenario.ip4_tcp_4001, 0), [CallNewMultiaddr "/ip4/0.0.0.0/tcp/4001"])
  /\ Part000.parseAddr env "/ip4/0.0.0.0/tcp/4001:4001"
     = (Ok (Scenario.ip4_tcp_4001, 4001), [CallNewMultiaddr "/ip4/0.0.0.0/tcp/4001"])
  /\ Part000.parseAddr env "/ip4/0.0.0.0/tcp/4001:"
     = (Ok (Scenario.ip4_tcp_4001, 0), [CallNewMultiaddr "/ip4/0.0.0.0/tcp/4001"]).
Proof.
  intros Hparser.
  pose proof (ModuleGo_parseAddr_split env "ip4/0.0.0.0/tcp/4001" "4001" eq_refl) as H1.
  pose proof (ModuleGo_parseAddr_split env "ip4/0.0.0.0/tcp/4001" "" eq_refl) as H2.
  pose proof (Part000_parseAddr_split env "/ip4/0.0.0.0/tcp/4001" "4001" eq_refl) as H3.
  pose proof (Part000_parseAddr_split env "/ip4/0.0.0.0/tcp/4001" "" eq_refl) as H4.
  change (Strconv.Atoi "4001") with (@inl Z Strconv.NumError 4001) in H1, H3.
  cbn [append] in H1, H2, H3, H4. unfold parsedWith in H1, H2, H3, H4.
  rewrite Hparser in H1, H2, H3, H4.
  rewrite H1, H2, H3, H4. repeat split; reflexivity.
Qed.

(** C1, amended, at the simulated environment. *)
Lemma C1_scenarios_witness :
  ModuleGo.parseAddr Scenario.E "ip4/0.0.0.0/tcp/4001:4001"
  = (Ok (Scenario.ip4_tcp_4001, 4001), [CallNewMultiaddr "/ip4/0.0.0.0/tcp/4001"]).
Proof.
  apply (C1_scenarios Scenario.E). reflexivity.
Defined.

(** C2, as stated, fails: in ["ip4/0.0.0.0/tcp/4001:-5"] the last colon
    is not the final byte and what follows it, ["-5"], is no non-negative
    integer; [strconv.Atoi] accepts it, the port is [-5] and the
    registration returns a listener. *)
Lemma C2_counterexample :
  GoString.LastIndex "ip4/0.0.0.0/tcp/4001:-5" ":" = 20
  /\ GoString.len "ip4/0.0.0.0/tcp/4001:-5" - 1 = 22
  /\ GoString.sliceFrom "ip4/0.0.0.0/tcp/4001:-5" (20 + 1) = inl "-5"%string
  /\ Scenario.nonNegativeInteger "-5" = false
  /\ ModuleGo.parseAddr Scenario.E "ip4/0.0.0.0/tcp/4001:-5"
     = (Ok (Scenario.ip4_tcp_4001, -5), [CallNewMultiaddr "/ip4/0.0.0.0/tcp/4001"])
  /\ outcome (ModuleGo.registerMultiaddrURI Scenario.E Scenario.ctx "multiaddr:"
                "ip4/0.0.0.0/tcp/4001:-5" DefaultListenConfig)
     = Ok ({| Sim.simAddrs := [Scenario.ip4_tcp_4001]; Sim.simIdentity := None;
              Sim.simRouting := None |},
           Libp2p.ProtocolIDForMultistreamSelect, [Gostream.IgnoreEOF]).
Proof. repeat split; vm_compute; reflexivity. Qed.

(** C2, amended: when the raw address is [pre], a colon and a non-empty
    [suf] without colon, the last colon is the one after [pre] and [suf]
    is the text given to [strconv.Atoi].  If [Atoi] rejects it, parsing
    fails with MalformedPort, and so does the registration, which has
    called nothing: no host, no listener.  If [Atoi] accepts it, negative
    or not, its value is the port and parsing goes on to the multiaddr. *)
Theorem C2_malformed_port (T : Types) (env : Externals T) (pre suf : string) :
  GoString.contains ":" suf = false ->
  String.eqb suf "" = false ->
  GoString.LastIndex (pre ++ String ":" suf) ":" = GoString.len pre
  /\ GoString.sliceFrom (pre ++ String ":" suf) (GoString.len pre + 1) = inl suf
  /\ (forall e, Strconv.Atoi suf = inr e ->
      ModuleGo.parseAddr env (pre ++ String ":" suf) = (Fail (MalformedPort e), [])
      /\ forall cctx cfg,
          ModuleGo.registerMultiaddrURI env (CaddyContext cctx) "multiaddr:"
            (pre ++ String ":" suf) cfg
          = (Fail (MalformedPort e), []))
  /\ (forall n, Strconv.Atoi suf = inl n ->
      ModuleGo.parseAddr env (pre ++ String ":" suf) = parsedWith env ("/" ++ pre) n).
Proof.
  intros Hsuf Hne.
  pose proof (ModuleGo_parseAddr_split env pre suf Hsuf) as Hp.
  destruct suf as [|c suf]; [discriminate|].
  split; [now apply GoStringFacts.LastIndex_split|].
  split; [apply GoStringFacts.sliceFrom_split|].
  split.
  - intros e He. rewrite He in Hp. split; [exact Hp|].
    intros cctx cfg. unfold ModuleGo.registerMultiaddrURI, ModuleGo.buildHost.
    cbn [String.eqb Ascii.eqb Bool.eqb negb]. rewrite Hp. reflexivity.
  - intros n Hn. now rewrite Hn in Hp.
Qed.

(** C2, amended, at the port ["40x1"]. *)
Lemma C2_malformed_port_witness :
  ModuleGo.registerMultiaddrURI Scenario.E Scenario.ctx "multiaddr:"
    "ip4/0.0.0.0/tcp/4001:40x1" DefaultListenConfig
  = (Fail (MalformedPort Strconv.ErrSyntax), []).
Proof.
  refine (proj2 (proj1 (proj2 (proj2
    (@C2_malformed_port Sim.simT Scenario.E "ip4/0.0.0.0/tcp/4001" "40x1" _ _)))
    Strconv.ErrSyntax _) _ DefaultListenConfig); reflexivity.
Defined.

(** C5, as stated, fails on module.go: for ["/ip4/0.0.0.0/tcp/4001:"],
    everything before the trailing colon is ["/ip4/0.0.0.0/tcp/4001"],
    which the multiaddr parser accepts; module.go does not parse that
    string but ["//ip4/0.0.0.0/tcp/4001"], and fails. *)
Lemma C5_counterexample :
  Multiaddr.NewMultiaddr "/ip4/0.0.0.0/tcp/4001" = Some (inl Scenario.ip4_tcp_4001)
  /\ ModuleGo.parseAddr Scenario.E ("/ip4/0.0.0.0/tcp/4001" ++ ":")
     = (Fail (MalformedAddress "unknown protocol "),
        [CallNewMultiaddr "//ip4/0.0.0.0/tcp/4001"])
  /\ ModuleGo.parseAddr Scenario.E ("/ip4/0.0.0.0/tcp/4001" ++ ":")
     <> parsedWith Scenario.E "/ip4/0.0.0.0/tcp/4001" 0.
Proof. repeat split; try (vm_compute; reflexivity). vm_compute. discriminate. Qed.

(** C5, amended: for every raw address ending in a colon, the port keeps
    Go's zero value (no port is read) and the multiaddr parser is given
    ["/"] followed by everything before that colon; the earlier revision
    gives it everything before the colon as it is. *)
Theorem C5_trailing_colon (T : Types) (env : Externals T) (pre : string) :
  ModuleGo.parseAddr env (pre ++ ":") = parsedWith env ("/" ++ pre) 0
  /\ Part000.parseAddr env (pre ++ ":") = parsedWith env pre 0.
Proof.
  split.
  - exact (ModuleGo_parseAddr_split env pre "" eq_refl).
  - exact (Part000_parseAddr_split env pre "" eq_refl).
Qed.

(** C8: a network token other than ["multiaddr:"] (other than
    ["multiaddr"] for the earlier revision) ends the registration with an
    error before any call is made: no multiaddr is parsed, no host built,
    no listener created.  The error is the scheme mismatch, or the context
    error when the context is no [caddy.Context], which is tested first. *)
Theorem C8_other_network_rejected (T : Types) (env : Externals T)
        (ctx : Context) (network addr : string) (cfg : ListenConfig) :
  let rejected :=
    match ctx with
    | OtherContext typeName => ContextTypeError typeName
    | CaddyContext _ => SchemeMismatchError
    end in
  (String.eqb network "multiaddr:" = false ->
   ModuleGo.registerMultiaddrURI env ctx network addr cfg = (Fail rejected, []))
  /\ (String.eqb network "multiaddr" = false ->
      Part000.registerMultiaddrURI env ctx network addr cfg = (Fail rejected, [])).
Proof.
  split; intros H;
    [unfold ModuleGo.registerMultiaddrURI, ModuleGo.buildHost
    |unfold Part000.registerMultiaddrURI, Part000.buildHost];
    destruct ctx; rewrite ?H; reflexivity.
Qed.

(** C8 at the tokens ["tcp"] and, for the earlier revision, ["multiaddr:"]. *)
Lemma C8_other_network_rejected_witness :
  ModuleGo.registerMultiaddrURI Scenario.E Scenario.ctx "tcp" "127.0.0.1:8080"
    DefaultListenConfig = (Fail SchemeMismatchError, [])
  /\ Part000.registerMultiaddrURI Scenario.E Scenario.ctx "multiaddr:"
       "ip4/127.0.0.1/tcp/8080:" DefaultListenConfig = (Fail SchemeMismatchError, []).
Proof.
  split.
  - apply (proj1 (C8_other_network_rejected Scenario.E Scenario.ctx "tcp"
                    "127.0.0.1:8080" DefaultListenConfig)). reflexivity.
  - apply (proj2 (C8_other_network_rejected Scenario.E Scenario.ctx "multiaddr:"
                    "ip4/127.0.0.1/tcp/8080:" DefaultListenConfig)). reflexivity.
Defined.

(** C9 does not hold: on the empty string, and on ["4001"], which has no
    colon and is a number, [lastColon] is [-1] and the slice that drops
    the port panics, in both revisions, and the registration with it. *)
Theorem C9_slice_out_of_bounds (T : Types) (env : Externals T)
        (cctx : Caddy.Context) (cfg : ListenConfig) :
  ModuleGo.parseAddr env "" = (Panic (GoString.SliceBoundsOutOfRange (-1) 0), [])
  /\ ModuleGo.parseAddr env "4001" = (Panic (GoString.SliceBoundsOutOfRange (-1) 4), [])
  /\ Part000.parseAddr env "" = (Panic (GoString.SliceBoundsOutOfRange (-1) 0), [])
  /\ Part000.parseAddr env "4001" = (Panic (GoString.SliceBoundsOutOfRange (-1) 4), [])
  /\ ModuleGo.registerMultiaddrURI env (CaddyContext cctx) "multiaddr:" "" cfg
     = (Panic (GoString.SliceBoundsOutOfRange (-1) 0), [])
  /\ ModuleGo.registerMultiaddrURI env (CaddyContext cctx) "multiaddr:" "4001" cfg
     = (Panic (GoString.SliceBoundsOutOfRange (-1) 4), []).
Proof. repeat split; reflexivity. Qed.

(** C3: for an app whose key file can be read, a file without PEM block
    makes identity loading fail with EnvelopeFormatError, carrying the
    rest of the input, and a block whose type is not ["PRIVATE KEY"] with
    UnexpectedKeyType.  In both cases every registration that uses this
    app calls neither [libp2p.New] nor [gostream.Listen] and returns no
    listener, and it fails with that very error once the token is right
    and the address parses. *)
Theorem C3_key_file_rejected (T : Types) (env : Externals T)
        (cctx : Caddy.Context) (app : App) (data : list byte) :
  Caddy.AppOf cctx "libp2p" = inl (AppPtr app) ->
  String.eqb (PrivateKey app) "" = false ->
  ReadFile env (PrivateKey app) = inl data ->
  let rejected (e : Error) :=
    ModuleGo.loadIdentity env app
    = (Fail e, [CallReadFile (PrivateKey app); CallDecode data])
    /\ forall network addr cfg,
        noHostCalls
          (calls (ModuleGo.registerMultiaddrURI env (CaddyContext cctx) network addr cfg))
        = true
        /\ (forall l,
             outcome (ModuleGo.registerMultiaddrURI env (CaddyContext cctx) network addr cfg)
             <> Ok l)
        /\ (network = "multiaddr:" ->
            forall r t0, ModuleGo.parseAddr env addr = (Ok r, t0) ->
            outcome (ModuleGo.registerMultiaddrURI env (CaddyContext cctx) network addr cfg)
            = Fail e) in
  (forall rest, Decode env data = (None, rest) -> rejected (EnvelopeFormatError rest))
  /\ (forall pemBlock rest,
       Decode env data = (Some pemBlock, rest) ->
       String.eqb (Pem.Type_ pemBlock) "PRIVATE KEY" = false ->
       rejected (UnexpectedKeyType (Pem.Type_ pemBlock))).
Proof.
  intros HApp Hpath Hread rejected.
  assert (Hnone : forall rest, Decode env data = (None, rest) ->
            ModuleGo.loadIdentity env app
            = (Fail (EnvelopeFormatError rest),
               [CallReadFile (PrivateKey app); CallDecode data])).
  { intros rest Hdec. unfold ModuleGo.loadIdentity.
    rewrite Hpath, Hread. cbn [negb callE bind call]. rewrite Hdec. reflexivity. }
  assert (Htype : forall blk rest, Decode env data = (Some blk, rest) ->
            String.eqb (Pem.Type_ blk) "PRIVATE KEY" = false ->
            ModuleGo.loadIdentity env app
            = (Fail (UnexpectedKeyType (Pem.Type_ blk)),
               [CallReadFile (PrivateKey app); CallDecode data])).
  { intros blk rest Hdec Hty. unfold ModuleGo.loadIdentity.
    rewrite Hpath, Hread. cbn [negb callE bind call]. rewrite Hdec, Hty. reflexivity. }
  split.
  - intros rest Hdec. split; [now apply Hnone|].
    intros network addr cfg.
    exact (register_identity_fails env cctx HApp (Hnone rest Hdec) network addr cfg).
  - intros blk rest Hdec Hty. split; [now apply (Htype blk rest)|].
    intros network addr cfg.
    exact (register_identity_fails env cctx HApp (Htype blk rest Hdec Hty) network addr cfg).
Qed.

(** C3 at a text file and at a certificate. *)
Lemma C3_key_file_rejected_witness :
  outcome (ModuleGo.registerMultiaddrURI Scenario.E (Sim.simCtx Sim.notesApp)
             "multiaddr:" "ip4/0.0.0.0/tcp/4001:" DefaultListenConfig)
  = Fail (EnvelopeFormatError (Sim.bytes "no armor here"))
  /\ outcome (ModuleGo.registerMultiaddrURI Scenario.E (Sim.simCtx Sim.certApp)
                "multiaddr:" "ip4/0.0.0.0/tcp/4001:" DefaultListenConfig)
     = Fail (UnexpectedKeyType "CERTIFICATE").
Proof.
  split.
  - refine (proj2 (proj2 (proj2 (proj1
      (@C3_key_file_rejected Sim.simT Scenario.E (Sim.simCctx Sim.notesApp)
         Sim.notesApp (Sim.bytes "no armor here") _ _ _)
      (Sim.bytes "no armor here") _) "multiaddr:" "ip4/0.0.0.0/tcp/4001:"
      DefaultListenConfig)) _ (Scenario.ip4_tcp_4001, 0) _ _); reflexivity.
  - refine (proj2 (proj2 (proj2 (proj2
      (@C3_key_file_rejected Sim.simT Scenario.E (Sim.simCctx Sim.certApp)
         Sim.certApp (Sim.bytes "CERT") _ _ _)
      {| Pem.Type_ := "CERTIFICATE"; Pem.Headers := []; Pem.Bytes := Sim.bytes "c" |}
      [] _ _) "multiaddr:" "ip4/0.0.0.0/tcp/4001:"
      DefaultListenConfig)) _ (Scenario.ip4_tcp_4001, 0) _ _); reflexivity.
Defined.

(** C7: when the key file decodes to [stdKey], the key-conversion routine
    [crypto.KeyPairFromStdKey] is called once, after the PKCS8 parser: with
    the pointer to [k] when [stdKey] is the ed25519 value [k], and with
    [stdKey] itself in every other case. *)
Theorem C7_ed25519_by_pointer (T : Types) (env : Externals T) (app : App)
        (data rest : list byte) (pemBlock : Pem.Block) (stdKey : X509.StdKey) :
  String.eqb (PrivateKey app) "" = false ->
  ReadFile env (PrivateKey app) = inl data ->
  Decode env data = (Some pemBlock, rest) ->
  String.eqb (Pem.Type_ pemBlock) "PRIVATE KEY" = true ->
  ParsePKCS8PrivateKey env (Pem.Bytes pemBlock) = inl stdKey ->
  let convertedFrom (given : X509.StdKey) :=
    ModuleGo.loadIdentity env app
    = (match KeyPairFromStdKey env given with
       | inl sk => Ok (Some sk)
       | inr e => Fail (KeyConversionError e)
       end,
       [CallReadFile (PrivateKey app); CallDecode data;
        CallParsePKCS8PrivateKey (Pem.Bytes pemBlock);
        CallKeyPairFromStdKey given]) in
  (forall k, stdKey = X509.Ed25519PrivateKey k ->
             convertedFrom (X509.Ed25519PrivateKeyPtr k))
  /\ ((forall k, stdKey <> X509.Ed25519PrivateKey k) -> convertedFrom stdKey).
Proof.
  intros Hpath Hread Hdec Hty Hparse convertedFrom.
  assert (Hrun : convertedFrom (ModuleGo.ed25519Pointer stdKey)).
  { unfold convertedFrom, ModuleGo.loadIdentity.
    rewrite Hpath, Hread. cbn [negb callE bind call]. rewrite Hdec, Hty.
    cbn [negb]. rewrite Hparse. cbn [callE bind List.app].
    now destruct (KeyPairFromStdKey env (ModuleGo.ed25519Pointer stdKey)). }
  split.
  - intros k ->. exact Hrun.
  - intros Hother. destruct stdKey; try exact Hrun. now destruct (Hother k).
Qed.

(** C7 at an ed25519 key and at an RSA key. *)
Lemma C7_ed25519_by_pointer_witness :
  ModuleGo.loadIdentity Scenario.E Sim.ed25519App
  = (Ok (Some (X509.Ed25519PrivateKeyPtr (Sim.bytes "seed"))),
     [CallReadFile "/keys/ed25519.pem"; CallDecode (Sim.bytes "ED25519");
      CallParsePKCS8PrivateKey (Sim.bytes "e");
      CallKeyPairFromStdKey (X509.Ed25519PrivateKeyPtr (Sim.bytes "seed"))])
  /\ ModuleGo.loadIdentity Scenario.E Sim.rsaApp
     = (Ok (Some (X509.RSAPrivateKeyPtr (Sim.bytes "modulus"))),
        [CallReadFile "/keys/rsa.pem"; CallDecode (Sim.bytes "RSA");
         CallParsePKCS8PrivateKey (Sim.bytes "r");
         CallKeyPairFromStdKey (X509.RSAPrivateKeyPtr (Sim.bytes "modulus"))]).
Proof.
  split.
  - refine (proj1
      (@C7_ed25519_by_pointer Sim.simT Scenario.E Sim.ed25519App
         (Sim.bytes "ED25519") []
         {| Pem.Type_ := "PRIVATE KEY"; Pem.Headers := []; Pem.Bytes := Sim.bytes "e" |}
         (X509.Ed25519PrivateKey (Sim.bytes "seed")) _ _ _ _ _)
      (Sim.bytes "seed") _); reflexivity.
  - refine (proj2
      (@C7_ed25519_by_pointer Sim.simT Scenario.E Sim.rsaApp
         (Sim.bytes "RSA") []
         {| Pem.Type_ := "PRIVATE KEY"; Pem.Headers := []; Pem.Bytes := Sim.bytes "r" |}
         (X509.RSAPrivateKeyPtr (Sim.bytes "modulus")) _ _ _ _ _)
      _); try reflexivity. intros k. discriminate.
Defined.

(** C4: let [opts] be the options a registration passes to [libp2p.New].
    With [AdvertiseAmino] false, no option of [opts] is a routing option.
    With it true, [opts] ends in one routing option, whose constructor is
    [dht.New] in client mode and returns what [dht.New] returns, its error
    included.  If [libp2p.New] fails on [opts], as it does when the routing
    constructor fails, the registration returns that error: [libp2p.New]
    was its last call and its only one, and nothing was listened on. *)
Theorem C4_routing_follows_flag (T : Types) (env : Externals T)
        (cctx : Caddy.Context) (app : App)
        (network addr : string) (cfg : ListenConfig) (opts : list (Libp2p.Option_ T)) :
  Caddy.AppOf cctx "libp2p" = inl (AppPtr app) ->
  In (CallNew opts)
     (calls (ModuleGo.registerMultiaddrURI env (CaddyContext cctx) network addr cfg)) ->
  (AdvertiseAmino app = false -> existsb Libp2p.isRouting opts = false)
  /\ (AdvertiseAmino app = true ->
      exists base,
        opts = base ++ [Libp2p.Routing (ModuleGo.clientDHT env (CaddyContext cctx))]
        /\ existsb Libp2p.isRouting base = false)
  /\ (forall host,
       ModuleGo.clientDHT env (CaddyContext cctx) host
       = DhtNew env (CaddyContext cctx) host [Dht.Mode Dht.ModeClient])
  /\ (forall e, New env opts = inr e ->
       exists before,
         noHostCalls before = true
         /\ ModuleGo.registerMultiaddrURI env (CaddyContext cctx) network addr cfg
            = (Fail (HostConstructionError e), before ++ [CallNew opts])).
Proof.
  intros HApp Hin.
  assert (Hopts : exists t ma sk,
            noHostCalls t = true
            /\ opts = ModuleGo.hostOptions env (CaddyContext cctx) ma sk app
            /\ (forall e, New env opts = inr e ->
                ModuleGo.registerMultiaddrURI env (CaddyContext cctx) network addr cfg
                = (Fail (HostConstructionError e), t ++ [CallNew opts]))).
  { destruct (register_shape env cctx HApp network addr cfg)
      as [[Hno _]|(t & ma & sk & Ht & Hrun)].
    - now destruct (noHostCalls_not_New _ opts Hno).
    - cbv zeta in Hrun. exists t, ma, sk. split; [exact Ht|].
      assert (Heq : opts = ModuleGo.hostOptions env (CaddyContext cctx) ma sk app).
      { rewrite Hrun in Hin.
        destruct (New env _) as [h|e]; cbn [calls snd] in Hin;
          apply in_app_or in Hin as [Hin|Hin];
          try (now destruct (noHostCalls_not_New _ opts Ht));
          cbn [In] in Hin; intuition (try discriminate); congruence. }
      split; [exact Heq|].
      intros e He. rewrite Hrun. rewrite <- Heq, He. reflexivity. }
  destruct Hopts as (t & ma & sk & Ht & -> & Hfail).
  repeat split.
  - intros Hflag. unfold ModuleGo.hostOptions. rewrite Hflag. now destruct sk.
  - intros Hflag. unfold ModuleGo.hostOptions. rewrite Hflag.
    eexists. split; [reflexivity|]. now destruct sk.
  - intros e He. exists t. split; [exact Ht|exact (Hfail e He)].
Qed.

(** C4 with a DHT that cannot be built, and with routing off. *)
Lemma C4_routing_follows_flag_witness :
  (exists before,
     noHostCalls before = true
     /\ ModuleGo.registerMultiaddrURI (Sim.simEnv false) (Sim.simCtx Sim.rsaApp)
          "multiaddr:" "ip4/0.0.0.0/tcp/4001:" DefaultListenConfig
        = (Fail (HostConstructionError "dht: no bootstrap peers"),
           before ++
           [CallNew (ModuleGo.hostOptions (Sim.simEnv false) (Sim.simCtx Sim.rsaApp)
                       Scenario.ip4_tcp_4001
                       (Some (X509.RSAPrivateKeyPtr (Sim.bytes "modulus")))
                       Sim.rsaApp)]))
  /\ existsb Libp2p.isRouting
       (ModuleGo.hostOptions Scenario.E Scenario.ctx Scenario.ip4_tcp_4001 None Sim.plainApp)
     = false.
Proof.
  split.
  - refine (proj2 (proj2 (proj2
      (@C4_routing_follows_flag Sim.simT (Sim.simEnv false) (Sim.simCctx Sim.rsaApp)
         Sim.rsaApp "multiaddr:" "ip4/0.0.0.0/tcp/4001:" DefaultListenConfig
         (ModuleGo.hostOptions (Sim.simEnv false) (Sim.simCtx Sim.rsaApp)
            Scenario.ip4_tcp_4001
            (Some (X509.RSAPrivateKeyPtr (Sim.bytes "modulus"))) Sim.rsaApp)
         _ _))) "dht: no bootstrap peers" _); try reflexivity.
    cbn. do 6 right. left. reflexivity.
  - refine (proj1
      (@C4_routing_follows_flag Sim.simT Scenario.E (Sim.simCctx Sim.plainApp)
         Sim.plainApp "multiaddr:" "ip4/0.0.0.0/tcp/4001:" DefaultListenConfig
         (ModuleGo.hostOptions Scenario.E Scenario.ctx Scenario.ip4_tcp_4001 None
            Sim.plainApp)
         _ _) _); try reflexivity.
    cbn. do 2 right. left. reflexivity.
Defined.

(** C6: a request whose path is the well-known path is served by the
    well-known handler and [nil] is returned, whatever its method and
    whatever the next handler is, which is therefore not run; a request
    with any other path gets what the next handler does with the same
    writer and the same request. *)
Theorem C6_well_known_intercepted (ResponseWriter : Type)
        (l : Handler.Libp2pHandler ResponseWriter) (w : ResponseWriter)
        (r : Handler.Request) (next : Handler.NextHandler ResponseWriter) :
  (Handler.URLPath r = Libp2p.WellKnownProtocols ->
   Handler.ServeHTTP l w r next = (Handler.WellKnownHandler l w r, None)
   /\ forall other : Handler.NextHandler ResponseWriter,
        Handler.ServeHTTP l w r other = Handler.ServeHTTP l w r next)
  /\ (String.eqb (Handler.URLPath r) Libp2p.WellKnownProtocols = false ->
      Handler.ServeHTTP l w r next = next w r).
Proof.
  unfold Handler.ServeHTTP. split.
  - intros ->. rewrite String.eqb_refl. split; [reflexivity|].
    intros other. reflexivity.
  - intros ->. reflexivity.
Qed.

(** C6 at a POST to the well-known path and at a GET of another path. *)
Lemma C6_well_known_intercepted_witness :
  Handler.ServeHTTP Sim.simHandler []
    {| Handler.Method := "POST"; Handler.URLPath := "/.well-known/libp2p/protocols";
       Handler.Header := []; Handler.Body := [] |} Sim.simNext
  = (["well-known: POST"%string], None)
  /\ Handler.ServeHTTP Sim.simHandler []
       {| Handler.Method := "GET"; Handler.URLPath := "/index.html";
          Handler.Header := []; Handler.Body := [] |} Sim.simNext
     = (["next: /index.html"%string], Some "404"%string).
Proof.
  split.
  - refine (proj1 (proj1
      (@C6_well_known_intercepted (list string) Sim.simHandler []
         {| Handler.Method := "POST"; Handler.URLPath := "/.well-known/libp2p/protocols";
            Handler.Header := []; Handler.Body := [] |} Sim.simNext) _)).
    reflexivity.
  - refine (proj2
      (@C6_well_known_intercepted (list string) Sim.simHandler []
         {| Handler.Method := "GET"; Handler.URLPath := "/index.html";
            Handler.Header := []; Handler.Body := [] |} Sim.simNext) _).
    reflexivity.
Defined.

(** ** The two revisions side by side *)

Section Revisions.
Context {T : Types} (env : Externals T).

(** With a colon in [addr], module.go parses [addr] as the earlier
    revision parses ["/" ++ addr]. *)
Lemma parseAddr_shifted (addr : string) :
  GoString.contains ":" addr = true ->
  ModuleGo.parseAddr env addr = Part000.parseAddr env ("/" ++ addr).
Proof.
  intros Hc.
  destruct (GoStringFacts.split_last_colon addr Hc) as (pre & suf & -> & Hsuf).
  change ("/" ++ (pre ++ String ":" suf))%string
    with (("/" ++ pre) ++ String ":" suf)%string.
  rewrite (ModuleGo_parseAddr_split env pre suf Hsuf).
  rewrite (Part000_parseAddr_split env ("/" ++ pre) suf Hsuf).
  reflexivity.
Qed.

(** A string with a colon never makes [parseAddr] panic. *)
Lemma parseAddr_colon_no_panic (addr : string) (p : GoString.PanicKind) :
  GoString.contains ":" addr = true ->
  outcome (ModuleGo.parseAddr env addr) <> Panic p.
Proof.
  intros Hc.
  destruct (GoStringFacts.split_last_colon addr Hc) as (pre & suf & -> & Hsuf).
  rewrite (ModuleGo_parseAddr_split env pre suf Hsuf). unfold parsedWith.
  destruct suf.
  - cbn. now destruct (NewMultiaddr env _).
  - destruct (Strconv.Atoi _); cbn; [now destruct (NewMultiaddr env _)|discriminate].
Qed.
End Revisions.

(** C10, as stated, fails: on the token ["multiaddr:"] module.go builds a
    host and returns a listener, and the earlier revision rejects the
    token; on its own token ["multiaddr"] the earlier revision is given
    the same address, hands a different string to the multiaddr parser and
    fails, and where it succeeds it listens without [IgnoreEOF]. *)
Lemma C10_counterexample :
  outcome (ModuleGo.registerMultiaddrURI Scenario.E Scenario.ctx "multiaddr:"
             "ip4/0.0.0.0/tcp/4001:4001" DefaultListenConfig)
  = Ok ({| Sim.simAddrs := [Scenario.ip4_tcp_4001]; Sim.simIdentity := None;
           Sim.simRouting := None |},
        Libp2p.ProtocolIDForMultistreamSelect, [Gostream.IgnoreEOF])
  /\ Part000.registerMultiaddrURI Scenario.E Scenario.ctx "multiaddr:"
       "ip4/0.0.0.0/tcp/4001:4001" DefaultListenConfig
     = (Fail SchemeMismatchError, [])
  /\ Part000.registerMultiaddrURI Scenario.E Scenario.ctx "multiaddr"
       "ip4/0.0.0.0/tcp/4001:4001" DefaultListenConfig
     = (Fail (MalformedAddress "must begin with /"),
        [CallNewMultiaddr "ip4/0.0.0.0/tcp/4001"])
  /\ outcome (Part000.registerMultiaddrURI Scenario.E Scenario.ctx "multiaddr"
                "/ip4/0.0.0.0/tcp/4001:4001" DefaultListenConfig)
     = Ok ({| Sim.simAddrs := [Scenario.ip4_tcp_4001]; Sim.simIdentity := None;
              Sim.simRouting := None |},
           Libp2p.ProtocolIDForMultistreamSelect, []).
Proof. repeat split; vm_compute; reflexivity. Qed.

(** C10, amended: for every context and every address with a colon,
    module.go on the token ["multiaddr:"] and [addr] makes the calls and
    builds the host that the earlier revision makes and builds on the token
    ["multiaddr"] and ["/" ++ addr]; module.go then listens with
    [IgnoreEOF], the earlier revision with no option.  Each revision
    rejects the token of the other. *)
Theorem C10_revisions_agree_up_to_token_slash_and_eof
        (T : Types) (env : Externals T) (ctx : Context) (addr : string)
        (cfg : ListenConfig) :
  GoString.contains ":" addr = true ->
  let tag := Libp2p.ProtocolIDForMultistreamSelect in
  let listenWith (opts : list Gostream.ListenerOption) (h : Host T) :=
    callE (CallListen h tag opts) (Listen env h tag opts) ListenError in
  ModuleGo.buildHost env ctx "multiaddr:" addr cfg
  = Part000.buildHost env ctx "multiaddr" ("/" ++ addr) cfg
  /\ ModuleGo.registerMultiaddrURI env ctx "multiaddr:" addr cfg
     = bind (Part000.buildHost env ctx "multiaddr" ("/" ++ addr) cfg)
            (listenWith [Gostream.IgnoreEOF])
  /\ Part000.registerMultiaddrURI env ctx "multiaddr" ("/" ++ addr) cfg
     = bind (Part000.buildHost env ctx "multiaddr" ("/" ++ addr) cfg) (listenWith [])
  /\ outcome (ModuleGo.buildHost env ctx "multiaddr" addr cfg)
     = outcome (Part000.buildHost env ctx "multiaddr:" ("/" ++ addr) cfg)
  /\ (forall cctx, ctx = CaddyContext cctx ->
      ModuleGo.registerMultiaddrURI env ctx "multiaddr" addr cfg
      = (Fail SchemeMismatchError, [])
      /\ Part000.registerMultiaddrURI env ctx "multiaddr:" ("/" ++ addr) cfg
         = (Fail SchemeMismatchError, [])).
Proof.
  intros Hc tag listenWith.
  assert (Hbuild : ModuleGo.buildHost env ctx "multiaddr:" addr cfg
                   = Part000.buildHost env ctx "multiaddr" ("/" ++ addr) cfg).
  { unfold ModuleGo.buildHost, Part000.buildHost.
    destruct ctx as [cctx|typeName]; [|reflexivity].
    cbn [String.eqb Ascii.eqb Bool.eqb negb andb].
    rewrite <- (parseAddr_shifted env addr Hc). reflexivity. }
  split; [exact Hbuild|].
  split; [unfold ModuleGo.registerMultiaddrURI; rewrite Hbuild; reflexivity|].
  split; [reflexivity|].
  split; [destruct ctx; reflexivity|].
  intros cctx ->. split; reflexivity.
Qed.

Lemma C10_revisions_agree_up_to_token_slash_and_eof_witness :
  ModuleGo.buildHost Scenario.E (Sim.simCtx Sim.ed25519App) "multiaddr:"
    "ip4/0.0.0.0/tcp/4001:4001" DefaultListenConfig
  = Part000.buildHost Scenario.E (Sim.simCtx Sim.ed25519App) "multiaddr"
      "/ip4/0.0.0.0/tcp/4001:4001" DefaultListenConfig.
Proof.
  refine (proj1
    (@C10_revisions_agree_up_to_token_slash_and_eof Sim.simT Scenario.E
       (Sim.simCtx Sim.ed25519App) "ip4/0.0.0.0/tcp/4001:4001" DefaultListenConfig _)).
  reflexivity.
Defined.

(** ** The dispenser: what its methods keep *)

Module CaddyfileFacts.
Import Caddyfile.

Lemma Next_inv (d d' : Dispenser) (b : bool) :
  Next d = (b, d') ->
  tokens d' = tokens d /\ nesting d' = nesting d
  /\ (if b then cursor d' = cursor d + 1 /\ cursor d < size d - 1 else d' = d).
Proof.
  unfold Next. destruct (cursor d <? size d - 1) eqn:H; intros [= <- <-].
  - apply Z.ltb_lt in H. cbn. auto.
  - auto.
Qed.

Lemma nextOnSameLine_inv (d d' : Dispenser) (b : bool) :
  nextOnSameLine d = (b, d') ->
  tokens d' = tokens d /\ nesting d' = nesting d
  /\ (if b then cursor d' = cursor d + 1 /\ (cursor d < 0 \/ cursor d < size d - 1)
      else d' = d).
Proof.
  unfold nextOnSameLine.
  destruct (cursor d <? 0) eqn:H0.
  { intros [= <- <-]. apply Z.ltb_lt in H0. cbn. auto. }
  destruct (cursor d >=? size d - 1) eqn:H1.
  { intros [= <- <-]. auto. }
  destruct (negb (isNextOnNewLine _ _)); intros [= <- <-]; cbn; auto.
  repeat split; auto. right. rewrite Z.geb_leb in H1. apply Z.leb_gt in H1. exact H1.
Qed.

Lemma NextArg_inv (d d' : Dispenser) (b : bool) :
  NextArg d = (b, d') ->
  tokens d' = tokens d /\ nesting d' = nesting d
  /\ cursor d <= cursor d' <= cursor d + 1.
Proof.
  unfold NextArg. destruct (nextOnSameLine d) as [same d1] eqn:H1.
  apply nextOnSameLine_inv in H1 as (Ht & Hn & Hc).
  destruct same; cbn [negb].
  - destruct Hc as [Hc _].
    destruct (String.eqb (Val d1) "{"); intros [= <- <-]; cbn; repeat split; auto; lia.
  - subst d1. intros [= <- <-]. repeat split; auto; lia.
Qed.

Lemma braceAtLineEnd_inv (brace : string) (d d' : Dispenser) (b : bool) :
  braceAtLineEnd brace d = (b, d') ->
  tokens d' = tokens d /\ nesting d' = nesting d
  /\ cursor d <= cursor d' <= cursor d + 1.
Proof.
  unfold braceAtLineEnd. destruct (String.eqb (Val d) brace).
  - destruct (nextOnSameLine d) as [same d1] eqn:H1.
    apply nextOnSameLine_inv in H1 as (Ht & Hn & Hc).
    intros [= <- <-]. destruct same.
    + destruct Hc as [Hc _]. repeat split; auto; lia.
    + subst d1. repeat split; auto; lia.
  - intros [= <- <-]. repeat split; auto; lia.
Qed.

Lemma size_eq (d d' : Dispenser) : tokens d' = tokens d -> size d' = size d.
Proof. unfold size. now intros ->. Qed.

Lemma Val_inRange (d : Dispenser) (s : string) :
  Val d = s -> s <> ""%string -> 0 <= cursor d < size d.
Proof.
  unfold Val, inRange. intros H Hs.
  destruct ((0 <=? cursor d) && (cursor d <? size d)) eqn:Hr; [|congruence].
  apply andb_true_iff in Hr as [Ha Hb].
  apply Z.leb_le in Ha. apply Z.ltb_lt in Hb. lia.
Qed.

(** A successful [NextBlock] has moved the cursor forward, and there was
    something left to read. *)
Lemma NextBlock_inv (level : Z) (d d' : Dispenser) (b : bool) :
  NextBlock level d = (b, d') ->
  tokens d' = tokens d
  /\ (b = true -> cursor d < cursor d' /\ cursor d < size d).
Proof.
  unfold NextBlock. destruct (nesting d >? level).
  - destruct (Next d) as [ok d1] eqn:H1.
    apply Next_inv in H1 as (Ht1 & _ & Hc1).
    destruct ok; cbn [negb].
    + destruct Hc1 as [Hc1 Hlt].
      destruct (braceAtLineEnd "}" d1) as [closing d2] eqn:H2.
      apply braceAtLineEnd_inv in H2 as (Ht2 & _ & Hc2).
      destruct closing.
      * intros [= <- <-]. cbn. split; [congruence|]. intros _. lia.
      * destruct (braceAtLineEnd "{" d2) as [opening d3] eqn:H3.
        apply braceAtLineEnd_inv in H3 as (Ht3 & _ & Hc3).
        destruct opening; intros [= <- <-]; cbn;
          (split; [congruence|]); intros _; lia.
    + subst d1. intros [= <- <-]. split; [reflexivity|discriminate].
  - destruct (nextOnSameLine d) as [same d1] eqn:H1.
    apply nextOnSameLine_inv in H1 as (Ht1 & _ & Hc1).
    destruct same; cbn [negb].
    + destruct Hc1 as [Hc1 _].
      destruct (String.eqb_spec (Val d1) "{") as [Hval|Hval]; cbn [negb].
      * pose proof (Val_inRange d1 Hval ltac:(discriminate)) as Hr.
        rewrite (size_eq _ _ Ht1) in Hr.
        destruct (Next d1) as [ok d2] eqn:H2.
        apply Next_inv in H2 as (Ht2 & _ & Hc2). cbn [snd].
        assert (Hge : cursor d1 <= cursor d2)
          by (destruct ok; [lia|subst d2; lia]).
        destruct (String.eqb (Val d2) "}"); intros [= <- <-]; cbn;
          (split; [congruence|]); [discriminate|intros _; lia].
      * intros [= <- <-]. cbn. split; [exact Ht1|discriminate].
    + subst d1. intros [= <- <-]. split; [reflexivity|discriminate].
Qed.

Lemma turnsLeft_decreases (d d' : Dispenser) :
  tokens d' = tokens d -> cursor d < cursor d' -> cursor d < size d ->
  (turnsLeft d' < turnsLeft d)%nat.
Proof.
  intros Ht Hc Hs. unfold turnsLeft. rewrite (size_eq _ _ Ht). lia.
Qed.

End CaddyfileFacts.

(** ** Both unmarshalers return *)

Section Termination.
Variable ResponseWriter : Type.
Import Caddyfile CaddyfileFacts.

Lemma unmarshalLoop_returns (turns : nat) :
  forall d m, (turnsLeft d < turns)%nat ->
  HandlerConfig.unmarshalLoop turns d m <> None.
Proof.
  induction turns as [|turns IH]; intros d m Hlt; [lia|].
  cbn [HandlerConfig.unmarshalLoop].
  destruct (NextBlock 0 d) as [more d1] eqn:H1.
  apply NextBlock_inv in H1 as (Ht1 & Hc1).
  destruct more; cbn [negb]; [|discriminate].
  destruct (Hc1 eq_refl) as [Hfwd Hleft].
  destruct (NextArg d1) as [a1 d2] eqn:H2.
  apply NextArg_inv in H2 as (Ht2 & _ & Hc2).
  destruct a1; cbn [negb]; [|discriminate].
  destruct (negb (String.eqb (Val d2) "=>")); [discriminate|].
  destruct (NextArg d2) as [a2 d3] eqn:H3.
  apply NextArg_inv in H3 as (Ht3 & _ & Hc3).
  destruct a2; cbn [negb]; [|discriminate].
  apply IH.
  assert (turnsLeft d3 < turnsLeft d)%nat
    by (apply turnsLeft_decreases; [congruence|lia|exact Hleft]).
  lia.
Qed.

Lemma optionsLoop_returns (turns : nat) :
  forall d app, (turnsLeft d < turns)%nat ->
  AppConfig.optionsLoop turns d app <> None.
Proof.
  induction turns as [|turns IH]; intros d app Hlt; [lia|].
  cbn [AppConfig.optionsLoop].
  destruct (NextBlock 0 d) as [more d1] eqn:H1.
  apply NextBlock_inv in H1 as (Ht1 & Hc1).
  destruct more; cbn [negb]; [|discriminate].
  destruct (Hc1 eq_refl) as [Hfwd Hleft].
  destruct (String.eqb (Val d1) "advertise_amino").
  - destruct (NextArg d1) as [a1 d2] eqn:H2.
    apply NextArg_inv in H2 as (Ht2 & _ & Hc2).
    assert (turnsLeft d2 < turnsLeft d)%nat
      by (apply turnsLeft_decreases; [congruence|lia|exact Hleft]).
    destruct a1.
    + destruct (ParseBool (Val d2)); [|discriminate]. apply IH. lia.
    + apply IH. lia.
  - destruct (String.eqb (Val d1) "private_key"); [|discriminate].
    destruct (NextArg d1) as [a1 d2] eqn:H2.
    apply NextArg_inv in H2 as (Ht2 & _ & Hc2).
    destruct a1; cbn [negb]; [|discriminate].
    apply IH.
    assert (turnsLeft d2 < turnsLeft d)%nat
      by (apply turnsLeft_decreases; [congruence|lia|exact Hleft]).
    lia.
Qed.

(** More turns than needed change nothing. *)
Lemma unmarshalLoop_more_turns (turns : nat) :
  forall d m r, HandlerConfig.unmarshalLoop turns d m = Some r ->
  forall extra, HandlerConfig.unmarshalLoop (turns + extra) d m = Some r.
Proof.
  induction turns as [|turns IH]; intros d m r H extra; [discriminate|].
  cbn [HandlerConfig.unmarshalLoop Nat.add] in H |- *.
  destruct (NextBlock 0 d) as [more d1].
  destruct (negb more); [exact H|].
  destruct (NextArg d1) as [a1 d2].
  destruct (negb a1); [exact H|].
  destruct (negb (String.eqb (Val d2) "=>")); [exact H|].
  destruct (NextArg d2) as [a2 d3].
  destruct (negb a2); [exact H|].
  now apply IH.
Qed.

Lemma optionsLoop_more_turns (turns : nat) :
  forall d app r, AppConfig.optionsLoop turns d app = Some r ->
  forall extra, AppConfig.optionsLoop (turns + extra) d app = Some r.
Proof.
  induction turns as [|turns IH]; intros d app r H extra; [discriminate|].
  cbn [AppConfig.optionsLoop Nat.add] in H |- *.
  destruct (NextBlock 0 d) as [more d1].
  destruct (negb more); [exact H|].
  destruct (String.eqb (Val d1) "advertise_amino").
  - destruct (NextArg d1) as [a1 d2]. destruct a1.
    + destruct (ParseBool (Val d2)); [|exact H]. now apply IH.
    + now apply IH.
  - destruct (String.eqb (Val d1) "private_key"); [|exact H].
    destruct (NextArg d1) as [a1 d2].
    destruct (negb a1); [exact H|]. now apply IH.
Qed.

End Termination.

(** ** The dispenser on a list of tokens split at the cursor *)

Module FocusFacts.
Import Caddyfile Block.

Lemma size_focus (pre : list Token) (cur : Token) (post : list Token) (n : Z) :
  size (focus pre cur post n) = Z.of_nat (List.length pre) + 1 + Z.of_nat (List.length post).
Proof. unfold size, focus. cbn [tokens]. rewrite length_app. cbn [List.length]. lia. Qed.

Lemma inRange_focus (pre : list Token) (cur : Token) (post : list Token) (n : Z) :
  inRange (focus pre cur post n) = true.
Proof.
  unfold inRange. rewrite size_focus. cbn [cursor focus].
  apply andb_true_iff. split; [apply Z.leb_le|apply Z.ltb_lt]; lia.
Qed.

Lemma tokenAt_focus (pre : list Token) (cur : Token) (post : list Token) (n : Z) :
  tokenAt (focus pre cur post n) (Z.of_nat (List.length pre)) = cur.
Proof. unfold tokenAt, focus. cbn [tokens]. rewrite Nat2Z.id. apply nth_middle. Qed.

Lemma Val_focus (pre : list Token) (cur : Token) (post : list Token) (n : Z) :
  Val (focus pre cur post n) = Text cur.
Proof. unfold Val. rewrite inRange_focus. cbn [cursor focus]. now rewrite tokenAt_focus. Qed.

Lemma CurrentToken_focus (pre : list Token) (cur : Token) (post : list Token) (n : Z) :
  CurrentToken (focus pre cur post n) = cur.
Proof.
  unfold CurrentToken. rewrite inRange_focus. cbn [cursor focus]. apply tokenAt_focus.
Qed.

Lemma focus_step (pre : list Token) (cur next : Token) (post : list Token) (n : Z) :
  moveTo (focus pre cur (next :: post) n) (Z.of_nat (List.length pre) + 1)
  = focus (pre ++ [cur]) next post n.
Proof.
  unfold moveTo, focus. cbn [tokens nesting]. f_equal.
  - now rewrite <- app_assoc.
  - rewrite length_app. cbn [List.length]. lia.
Qed.

Lemma tokenAt_focus_next (pre : list Token) (cur next : Token) (post : list Token) (n : Z) :
  tokenAt (focus pre cur (next :: post) n) (Z.of_nat (List.length pre) + 1) = next.
Proof.
  unfold tokenAt, focus. cbn [tokens].
  replace (Z.to_nat (Z.of_nat (List.length pre) + 1)) with (List.length (pre ++ [cur]))
    by (rewrite length_app; cbn [List.length]; lia).
  replace (pre ++ cur :: next :: post) with ((pre ++ [cur]) ++ next :: post)
    by (now rewrite <- app_assoc).
  apply nth_middle.
Qed.

Lemma Next_focus (pre : list Token) (cur next : Token) (post : list Token) (n : Z) :
  Next (focus pre cur (next :: post) n) = (true, focus (pre ++ [cur]) next post n).
Proof.
  unfold Next. rewrite size_focus. cbn [cursor focus List.length].
  replace (Z.of_nat (List.length pre) <?
           Z.of_nat (List.length pre) + 1 + Z.of_nat (S (List.length post)) - 1)
    with true by (symmetry; apply Z.ltb_lt; lia).
  now rewrite <- focus_step.
Qed.

Lemma Next_focus_last (pre : list Token) (cur : Token) (n : Z) :
  Next (focus pre cur [] n) = (false, focus pre cur [] n).
Proof.
  unfold Next. rewrite size_focus. cbn [cursor focus List.length].
  replace (Z.of_nat (List.length pre) <? Z.of_nat (List.length pre) + 1 + Z.of_nat 0 - 1)
    with false by (symmetry; apply Z.ltb_ge; lia).
  reflexivity.
Qed.

Lemma nextOnSameLine_focus (pre : list Token) (cur next : Token) (post : list Token)
      (n : Z) :
  nextOnSameLine (focus pre cur (next :: post) n)
  = if isNextOnNewLine cur next then (false, focus pre cur (next :: post) n)
    else (true, focus (pre ++ [cur]) next post n).
Proof.
  unfold nextOnSameLine. rewrite size_focus. cbn [cursor focus List.length].
  replace (Z.of_nat (List.length pre) <? 0) with false
    by (symmetry; apply Z.ltb_ge; lia).
  replace (Z.of_nat (List.length pre) >=?
           Z.of_nat (List.length pre) + 1 + Z.of_nat (S (List.length post)) - 1)
    with false by (symmetry; rewrite Z.geb_leb; apply Z.leb_gt; lia).
  fold (focus pre cur (next :: post) n).
  rewrite tokenAt_focus, tokenAt_focus_next.
  destruct (isNextOnNewLine cur next); cbn [negb]; [reflexivity|].
  now rewrite focus_step.
Qed.

Lemma nextOnSameLine_focus_last (pre : list Token) (cur : Token) (n : Z) :
  nextOnSameLine (focus pre cur [] n) = (false, focus pre cur [] n).
Proof.
  unfold nextOnSameLine. rewrite size_focus. cbn [cursor focus List.length].
  replace (Z.of_nat (List.length pre) <? 0) with false
    by (symmetry; apply Z.ltb_ge; lia).
  replace (Z.of_nat (List.length pre) >=? Z.of_nat (List.length pre) + 1 + Z.of_nat 0 - 1)
    with true by (symmetry; rewrite Z.geb_leb; apply Z.leb_le; lia).
  reflexivity.
Qed.

(** [nextOnSameLine] on a token that ends its line. *)
Lemma nextOnSameLine_endsLine (pre : list Token) (cur : Token) (post : list Token) (n : Z) :
  endsLine cur post = true ->
  nextOnSameLine (focus pre cur post n) = (false, focus pre cur post n).
Proof.
  destruct post as [|next post]; cbn [endsLine]; intros H.
  - apply nextOnSameLine_focus_last.
  - now rewrite nextOnSameLine_focus, H.
Qed.

(** An argument on the line of the current token. *)
Lemma NextArg_focus (pre : list Token) (cur arg : Token) (post : list Token) (n : Z) :
  isNextOnNewLine cur arg = false ->
  String.eqb (Text arg) "{" = false ->
  NextArg (focus pre cur (arg :: post) n) = (true, focus (pre ++ [cur]) arg post n).
Proof.
  intros Hline Htext. unfold NextArg.
  rewrite nextOnSameLine_focus, Hline. cbn [negb]. now rewrite Val_focus, Htext.
Qed.

(** No argument: the line ends with the current token. *)
Lemma NextArg_endsLine (pre : list Token) (cur : Token) (post : list Token) (n : Z) :
  endsLine cur post = true ->
  NextArg (focus pre cur post n) = (false, focus pre cur post n).
Proof. intros H. unfold NextArg. now rewrite nextOnSameLine_endsLine. Qed.

Lemma Next_NewDispenser (first : Token) (rest : list Token) :
  Next (NewDispenser (first :: rest)) = (true, focus [] first rest 0).
Proof.
  unfold Next, NewDispenser, size. cbn [cursor tokens].
  replace (-1 <? Z.of_nat (List.length (first :: rest)) - 1) with true
    by (symmetry; apply Z.ltb_lt; cbn [List.length]; lia).
  reflexivity.
Qed.

(** [NextBlock(0)] before a block: it opens on the line of the current
    token and its first token is not the closing brace. *)
Lemma NextBlock_opens (name open first : Token) (post : list Token) :
  opensBlock name open = true ->
  String.eqb (Text first) "}" = false ->
  NextBlock 0 (focus [] name (open :: first :: post) 0)
  = (true, focus [name; open] first post 1).
Proof.
  unfold opensBlock. intros Hopen Hfirst.
  apply andb_true_iff in Hopen as [Hline Hbrace]. apply negb_true_iff in Hline.
  unfold NextBlock. cbn [nesting focus]. change (0 >? 0) with false. cbv iota.
  rewrite nextOnSameLine_focus, Hline. cbn [negb].
  rewrite Val_focus, Hbrace. cbn [negb].
  rewrite Next_focus. cbn [snd]. rewrite Val_focus, Hfirst. reflexivity.
Qed.

(** [NextBlock(0)] before an empty block. *)
Lemma NextBlock_opens_empty (name open close : Token) (post : list Token) :
  opensBlock name open = true ->
  String.eqb (Text close) "}" = true ->
  NextBlock 0 (focus [] name (open :: close :: post) 0)
  = (false, focus [name; open] close post 0).
Proof.
  unfold opensBlock. intros Hopen Hclose.
  apply andb_true_iff in Hopen as [Hline Hbrace]. apply negb_true_iff in Hline.
  unfold NextBlock. cbn [nesting focus]. change (0 >? 0) with false. cbv iota.
  rewrite nextOnSameLine_focus, Hline. cbn [negb].
  rewrite Val_focus, Hbrace. cbn [negb].
  rewrite Next_focus. cbn [snd]. rewrite Val_focus, Hclose. reflexivity.
Qed.

(** [NextBlock(0)] inside the block, before a token that is no brace. *)
Lemma NextBlock_inside (pre : list Token) (cur next : Token) (post : list Token) :
  isBrace (Text next) = false ->
  NextBlock 0 (focus pre cur (next :: post) 1)
  = (true, focus (pre ++ [cur]) next post 1).
Proof.
  unfold isBrace. intros Hplain. apply orb_false_iff in Hplain as [Hopen Hclose].
  unfold NextBlock. cbn [nesting focus]. change (1 >? 0) with true. cbv iota.
  rewrite Next_focus. cbn [negb]. unfold braceAtLineEnd.
  rewrite Val_focus, Hclose. cbv iota beta.
  rewrite Val_focus, Hopen. reflexivity.
Qed.

(** [NextBlock(0)] inside the block, before its closing brace. *)
Lemma NextBlock_closes (pre : list Token) (cur close : Token) (rest : list Token) :
  closesBlock close rest = true ->
  NextBlock 0 (focus pre cur (close :: rest) 1)
  = (false, focus (pre ++ [cur]) close rest 0).
Proof.
  unfold closesBlock. intros H. apply andb_true_iff in H as [Hclose Hend].
  unfold NextBlock. cbn [nesting focus]. change (1 >? 0) with true. cbv iota.
  rewrite Next_focus. cbn [negb]. unfold braceAtLineEnd.
  rewrite Val_focus, Hclose, (nextOnSameLine_endsLine _ _ _ _ Hend). reflexivity.
Qed.

End FocusFacts.

(** ** Go maps as association lists *)

Module ProtoMapFacts.
Import ProtoMap.

Lemma get_remove_same (k : string) (m : t) : get k (remove k m) = None.
Proof.
  induction m as [|[k' v] m IH]; [reflexivity|]. cbn [remove].
  destruct (String.eqb k' k) eqn:E; [exact IH|]. cbn [get]. now rewrite E.
Qed.

Lemma get_remove_other (k k' : string) (m : t) :
  String.eqb k' k = false -> get k (remove k' m) = get k m.
Proof.
  intros Hne. induction m as [|[k0 v] m IH]; [reflexivity|]. cbn [remove get].
  destruct (String.eqb_spec k0 k') as [->|H0].
  - rewrite Hne. exact IH.
  - cbn [get]. now rewrite IH.
Qed.

Lemma get_set_same (k v : string) (m : t) : get k (set k v m) = Some v.
Proof. unfold set. cbn [get]. now rewrite String.eqb_refl. Qed.

Lemma get_set_other (k k' v : string) (m : t) :
  String.eqb k' k = false -> get k (set k' v m) = get k m.
Proof. intros Hne. unfold set. cbn [get]. rewrite Hne. now apply get_remove_other. Qed.

Lemma get_set (k k' v : string) (m : t) :
  get k (set k' v m) = if String.eqb k' k then Some v else get k m.
Proof.
  destruct (String.eqb_spec k' k) as [->|Hne].
  - apply get_set_same.
  - apply get_set_other. now apply String.eqb_neq.
Qed.

Lemma keys_remove_incl (k x : string) (m : t) :
  In x (keys (remove k m)) -> In x (keys m) /\ x <> k.
Proof.
  induction m as [|[k' v] m IH]; [intros []|]. cbn [remove].
  destruct (String.eqb_spec k' k) as [->|Hne]; cbn [keys map fst In].
  - intros H. destruct (IH H). auto.
  - intros [<-|H]; [auto|]. destruct (IH H). auto.
Qed.

Lemma NoDup_remove (k : string) (m : t) : NoDup (keys m) -> NoDup (keys (remove k m)).
Proof.
  induction m as [|[k' v] m IH]; [intros; constructor|].
  cbn [keys map fst]. intros H. inversion H as [|? ? Hnin Hnd]; subst.
  cbn [remove]. destruct (String.eqb k' k); [now apply IH|].
  cbn [keys map fst]. constructor; [|now apply IH].
  intros Hin. apply keys_remove_incl in Hin as [Hin _]. now apply Hnin.
Qed.

(** Assignment keeps a key from occurring twice. *)
Lemma NoDup_set (k v : string) (m : t) : NoDup (keys m) -> NoDup (keys (set k v m)).
Proof.
  intros H. unfold set. cbn [keys map fst]. constructor; [|now apply NoDup_remove].
  intros Hin. now apply keys_remove_incl in Hin as [_ Hne].
Qed.

Lemma get_In (k v : string) (m : t) :
  NoDup (keys m) -> In (k, v) m -> get k m = Some v.
Proof.
  induction m as [|[k' v'] m IH]; [intros _ []|].
  cbn [keys map fst]. intros H Hin. inversion H as [|? ? Hnin Hnd]; subst.
  cbn [get]. destruct Hin as [[= -> ->]|Hin].
  - now rewrite String.eqb_refl.
  - destruct (String.eqb_spec k' k) as [->|Hne]; [|now apply IH].
    destruct Hnin. change k with (fst (k, v)). now apply in_map.
Qed.

Lemma get_None (k : string) (m : t) : ~ In k (keys m) -> get k m = None.
Proof.
  induction m as [|[k' v'] m IH]; [reflexivity|]. cbn [keys map fst In get].
  intros H. destruct (String.eqb_spec k' k) as [->|Hne]; [tauto|]. apply IH. tauto.
Qed.

End ProtoMapFacts.

(** ** [UnmarshalCaddyfile] on a well-formed block *)

Section UnmarshalFacts.
Import Caddyfile Block FocusFacts.

Lemma wellFormedEntry_inv (e : Entry) :
  wellFormedEntry e = true ->
  isBrace (Text (keyTok e)) = false
  /\ String.eqb (Text (arrowTok e)) "=>" = true
  /\ String.eqb (Text (valueTok e)) "{" = false
  /\ isNextOnNewLine (keyTok e) (arrowTok e) = false
  /\ isNextOnNewLine (arrowTok e) (valueTok e) = false.
Proof.
  unfold wellFormedEntry. intros H.
  repeat (apply andb_true_iff in H as [H ?]).
  repeat split; try (now apply negb_true_iff); assumption.
Qed.

(** One turn of the loop body on a well-formed entry, the cursor being on
    its key. *)
Lemma unmarshal_entry (turns : nat) (pre : list Token) (e : Entry) (post : list Token)
      (m : ProtoMap.t) (d : Dispenser) :
  wellFormedEntry e = true ->
  NextBlock 0 d = (true, focus pre (keyTok e) (arrowTok e :: valueTok e :: post) 1) ->
  HandlerConfig.unmarshalLoop (S turns) d m
  = HandlerConfig.unmarshalLoop turns
      (focus (pre ++ [keyTok e; arrowTok e]) (valueTok e) post 1) (storeEntry m e).
Proof.
  intros Hwf Hblock.
  destruct (wellFormedEntry_inv e Hwf) as (Hkey & Harrow & Hvalue & Hka & Hav).
  cbn [HandlerConfig.unmarshalLoop]. rewrite Hblock. cbn [negb].
  rewrite Val_focus.
  rewrite NextArg_focus by (assumption || (apply String.eqb_eq in Harrow; now rewrite Harrow)).
  cbn [negb]. rewrite Val_focus, Harrow. cbn [negb].
  rewrite NextArg_focus by assumption. cbn [negb].
  rewrite Val_focus. rewrite <- app_assoc. reflexivity.
Qed.

Lemma unmarshal_entries (entries : list Entry) :
  forall (turns : nat) (pre : list Token) (cur : Token) (post : list Token) (m : ProtoMap.t),
  forallb wellFormedEntry entries = true ->
  exists pre' cur',
    pre' ++ [cur'] = (pre ++ [cur]) ++ flat_map entryTokens entries
    /\ HandlerConfig.unmarshalLoop (List.length entries + turns)
         (focus pre cur (flat_map entryTokens entries ++ post) 1) m
       = HandlerConfig.unmarshalLoop turns (focus pre' cur' post 1)
           (fold_left storeEntry entries m).
Proof.
  induction entries as [|e entries IH]; intros turns pre cur post m Hwf.
  - exists pre, cur. split; [now rewrite app_nil_r|reflexivity].
  - cbn [forallb] in Hwf. apply andb_true_iff in Hwf as [He Hes].
    destruct (IH turns (pre ++ [cur] ++ [keyTok e; arrowTok e]) (valueTok e) post
                 (storeEntry m e) Hes) as (pre' & cur' & Hsplit & Hrun).
    exists pre', cur'. split.
    + rewrite Hsplit. cbn [flat_map entryTokens List.app].
      rewrite <- !app_assoc. reflexivity.
    + cbn [List.length Nat.add flat_map entryTokens List.app fold_left].
      erewrite (@unmarshal_entry _ (pre ++ [cur]) e).
      * rewrite <- Hrun. rewrite <- !app_assoc. reflexivity.
      * exact He.
      * apply NextBlock_inside.
        now destruct (wellFormedEntry_inv e He) as (Hkey & _).
Qed.

Lemma length_entries (entries : list Entry) :
  List.length (flat_map entryTokens entries) = (3 * List.length entries)%nat.
Proof.
  induction entries as [|e entries IH]; [reflexivity|].
  cbn [flat_map entryTokens List.app List.length]. rewrite IH. lia.
Qed.

Lemma get_stored (id : string) (entries : list Entry) :
  forall m found,
  ProtoMap.get id m = found ->
  ProtoMap.get id (fold_left storeEntry entries m)
  = fold_left (fun found e => if String.eqb (Text (keyTok e)) id
                              then Some (Text (valueTok e)) else found)
              entries found.
Proof.
  induction entries as [|e entries IH]; intros m found Hm; [exact Hm|].
  cbn [fold_left]. apply IH. unfold storeEntry.
  rewrite ProtoMapFacts.get_set. now rewrite Hm.
Qed.

Lemma NoDup_stored (entries : list Entry) :
  forall m, NoDup (ProtoMap.keys m) ->
  NoDup (ProtoMap.keys (fold_left storeEntry entries m)).
Proof.
  induction entries as [|e entries IH]; intros m Hm; [exact Hm|].
  cbn [fold_left]. apply IH. now apply ProtoMapFacts.NoDup_set.
Qed.

(** The run of the loop over a whole block, from the directive name. *)
Lemma unmarshal_block (name open close : Token) (entries : list Entry) (rest : list Token)
      (extra : nat) :
  opensBlock name open = true ->
  forallb wellFormedEntry entries = true ->
  closesBlock close rest = true ->
  HandlerConfig.unmarshalLoop (S (List.length entries) + extra)
    (focus [] name (open :: flat_map entryTokens entries ++ close :: rest) 0) []
  = Some (stored entries,
          focus (name :: open :: flat_map entryTokens entries) close rest 0, None).
Proof.
  intros Hopen Hwf Hclose.
  assert (Hc : String.eqb (Text close) "}" = true)
    by (unfold closesBlock in Hclose; now apply andb_true_iff in Hclose as [? _]).
  destruct entries as [|e entries].
  - cbn [flat_map List.app List.length Nat.add HandlerConfig.unmarshalLoop].
    now rewrite NextBlock_opens_empty.
  - cbn [forallb] in Hwf. apply andb_true_iff in Hwf as [He Hes].
    destruct (wellFormedEntry_inv e He) as (Hkey & _).
    unfold isBrace in Hkey. apply orb_false_iff in Hkey as [_ Hkey].
    cbn [flat_map entryTokens List.app List.length Nat.add].
    erewrite (@unmarshal_entry _ [name; open] e);
      [|exact He|now apply NextBlock_opens].
    replace (S (List.length entries + extra)) with ((List.length entries + 1) + extra)%nat
      by lia.
    apply unmarshalLoop_more_turns.
    destruct (unmarshal_entries entries 1 ([name; open] ++ [keyTok e; arrowTok e])
                (valueTok e) (close :: rest) (storeEntry [] e) Hes)
      as (pre' & cur' & Hsplit & Hrun).
    rewrite Hrun. cbn [HandlerConfig.unmarshalLoop].
    rewrite NextBlock_closes by exact Hclose. cbn [negb].
    rewrite Hsplit. reflexivity.
Qed.

End UnmarshalFacts.

Section UnmarshalRuns.
Variable ResponseWriter : Type.
Import Caddyfile Block FocusFacts.

Lemma turns_suffice (name : Token) (post : list Token) (needed : nat) :
  (needed <= S (List.length post))%nat ->
  exists extra, S (turnsLeft (focus [] name post 0)) = (needed + extra)%nat.
Proof.
  intros H. exists (S (turnsLeft (focus [] name post 0)) - needed)%nat.
  unfold turnsLeft. rewrite size_focus. cbn [cursor focus List.length]. lia.
Qed.

(** The loop reaches the key that follows well-formed entries with the
    map of these entries. *)
Lemma unmarshal_prefix (name open key : Token) (entries : list Entry) (post : list Token)
      (turns : nat) :
  opensBlock name open = true ->
  forallb wellFormedEntry entries = true ->
  isBrace (Text key) = false ->
  exists d,
    NextBlock 0 d = (true, focus (name :: open :: flat_map entryTokens entries) key post 1)
    /\ HandlerConfig.unmarshalLoop (List.length entries + S turns)
         (focus [] name (open :: flat_map entryTokens entries ++ key :: post) 0) []
       = HandlerConfig.unmarshalLoop (S turns) d (stored entries).
Proof.
  intros Hopen Hwf Hkey.
  assert (Hk : String.eqb (Text key) "}" = false)
    by (unfold isBrace in Hkey; now apply orb_false_iff in Hkey as [_ ?]).
  destruct entries as [|e entries].
  - eexists. split; [|reflexivity]. now apply NextBlock_opens.
  - cbn [forallb] in Hwf. apply andb_true_iff in Hwf as [He Hes].
    destruct (wellFormedEntry_inv e He) as (Hkey' & _).
    unfold isBrace in Hkey'. apply orb_false_iff in Hkey' as [_ Hkey'].
    destruct (unmarshal_entries entries (S turns) ([name; open] ++ [keyTok e; arrowTok e])
                (valueTok e) (key :: post) (storeEntry [] e) Hes)
      as (pre' & cur' & Hsplit & Hrun).
    exists (focus pre' cur' (key :: post) 1). split.
    + rewrite NextBlock_inside by exact Hkey. now rewrite Hsplit.
    + cbn [flat_map entryTokens List.app List.length Nat.add].
      erewrite (@unmarshal_entry _ [name; open] e);
        [|exact He|now apply NextBlock_opens].
      exact Hrun.
Qed.

End UnmarshalRuns.

(** ** The two unmarshalers: what they return *)

Section ConfigTheorems.
Variable ResponseWriter : Type.
Import Caddyfile Block FocusFacts.

(** X6: [UnmarshalCaddyfile] and [parseCaddyfile] return on every
    dispenser, whatever its tokens, cursor and nesting: the turns given to
    the loop are enough, because every turn moves the cursor forward. *)
Theorem X6_UnmarshalCaddyfile_returns
        (l : Handler.Libp2pHandler ResponseWriter)
        (zeroHost : ResponseWriter -> Handler.Request -> ResponseWriter)
        (d : Dispenser) :
  (exists l' d' err, HandlerConfig.UnmarshalCaddyfile l d = Some (l', d', err))
  /\ (exists m err, HandlerConfig.parseCaddyfile zeroHost d = Some (m, err)).
Proof.
  assert (H : forall l0 : Handler.Libp2pHandler ResponseWriter,
             exists l' d' err, HandlerConfig.UnmarshalCaddyfile l0 d = Some (l', d', err)).
  { intros l0. unfold HandlerConfig.UnmarshalCaddyfile.
    destruct (HandlerConfig.unmarshalLoop _ (snd (Next d)) []) as [[[m d'] err]|] eqn:E.
    - eauto.
    - now apply unmarshalLoop_returns in E; [|lia]. }
  split; [apply H|].
  unfold HandlerConfig.parseCaddyfile.
  destruct (H {| Handler.WellKnownHandler := zeroHost; Handler.ParsedProtosMap := [] |})
    as (l' & d' & err & ->). eauto.
Qed.

(** The run of [UnmarshalCaddyfile] over a whole block. *)
Lemma UnmarshalCaddyfile_block
      (l : Handler.Libp2pHandler ResponseWriter)
      (name open close : Token) (entries : list Entry) (rest : list Token) :
  opensBlock name open = true ->
  forallb wellFormedEntry entries = true ->
  closesBlock close rest = true ->
  HandlerConfig.UnmarshalCaddyfile l
    (NewDispenser (name :: open :: flat_map entryTokens entries ++ close :: rest))
  = Some ({| Handler.WellKnownHandler := Handler.WellKnownHandler l;
             Handler.ParsedProtosMap := stored entries |},
          focus (name :: open :: flat_map entryTokens entries) close rest 0,
          None).
Proof.
  intros Hopen Hwf Hclose.
  unfold HandlerConfig.UnmarshalCaddyfile. rewrite Next_NewDispenser. cbn [snd].
  destruct (@turns_suffice name
              (open :: flat_map entryTokens entries ++ close :: rest)
              (S (List.length entries))) as [extra ->].
  { cbn [List.length]. rewrite length_app, length_entries. lia. }
  now rewrite (@unmarshal_block name open close entries rest extra Hopen Hwf Hclose).
Qed.

(** X7: on a well-formed block (the brace on the line of the directive
    name, lines [key => value] whose keys are no braces and whose values
    are no opening brace, a closing brace that ends its line)
    [UnmarshalCaddyfile] returns no error, leaves the cursor on the closing
    brace, and replaces the map of [l] by the one the entries spell out:
    every protocol ID has the path of its last entry, and IDs without
    entry are absent, whatever the map held before. *)
Theorem X7_UnmarshalCaddyfile_block
        (l : Handler.Libp2pHandler ResponseWriter)
        (name open close : Token) (entries : list Entry) (rest : list Token) :
  opensBlock name open = true ->
  forallb wellFormedEntry entries = true ->
  closesBlock close rest = true ->
  HandlerConfig.UnmarshalCaddyfile l
    (NewDispenser (name :: open :: flat_map entryTokens entries ++ close :: rest))
  = Some ({| Handler.WellKnownHandler := Handler.WellKnownHandler l;
             Handler.ParsedProtosMap := stored entries |},
          focus (name :: open :: flat_map entryTokens entries) close rest 0,
          None)
  /\ (forall id, ProtoMap.get id (stored entries) = lastPath id entries)
  /\ NoDup (ProtoMap.keys (stored entries)).
Proof.
  intros Hopen Hwf Hclose. split; [|split].
  - now apply UnmarshalCaddyfile_block.
  - intros id. unfold stored, lastPath. now apply get_stored.
  - unfold stored. apply NoDup_stored. constructor.
Qed.

(** X8: when well-formed entries are followed by a line that is a key
    alone, a key followed by something else than [=>], or a key and [=>]
    without value, [UnmarshalCaddyfile] stops there whatever comes after:
    the error names the cause and the file and line of the token the
    cursor is left on, and the map holds the entries before that line.
    [parseCaddyfile] returns the handler with this map beside the error. *)
Theorem X8_UnmarshalCaddyfile_bad_line
        (l : Handler.Libp2pHandler ResponseWriter)
        (zeroHost : ResponseWriter -> Handler.Request -> ResponseWriter)
        (name open : Token) (entries : list Entry) (bad : BadLine) (after : list Token) :
  opensBlock name open = true ->
  forallb wellFormedEntry entries = true ->
  isBadLine bad after = true ->
  let toks := name :: open :: flat_map entryTokens entries ++ badTokens bad ++ after in
  let err := {| complaint := badComplaint bad;
                atFile := File (culprit bad); atLine := Line (culprit bad) |} in
  HandlerConfig.UnmarshalCaddyfile l (NewDispenser toks)
  = Some ({| Handler.WellKnownHandler := Handler.WellKnownHandler l;
             Handler.ParsedProtosMap := stored entries |},
          focus (name :: open :: flat_map entryTokens entries ++ badBefore bad)
                (culprit bad) after 1,
          Some err)
  /\ HandlerConfig.parseCaddyfile zeroHost (NewDispenser toks)
     = Some ({| Handler.WellKnownHandler := zeroHost;
                Handler.ParsedProtosMap := stored entries |}, Some err).
Proof.
  intros Hopen Hwf Hbad toks err.
  assert (Hrun : forall l0 : Handler.Libp2pHandler ResponseWriter,
            HandlerConfig.UnmarshalCaddyfile l0 (NewDispenser toks)
            = Some ({| Handler.WellKnownHandler := Handler.WellKnownHandler l0;
                       Handler.ParsedProtosMap := stored entries |},
                    focus (name :: open :: flat_map entryTokens entries ++ badBefore bad)
                          (culprit bad) after 1,
                    Some err)).
  { intros l0. unfold HandlerConfig.UnmarshalCaddyfile, toks.
    rewrite Next_NewDispenser. cbn [snd].
    destruct (@turns_suffice name
                (open :: flat_map entryTokens entries ++ badTokens bad ++ after)
                (List.length entries + 1)) as [extra ->].
    { cbn [List.length]. rewrite length_app, length_entries. lia. }
    assert (Hloop : HandlerConfig.unmarshalLoop (List.length entries + 1)
              (focus [] name
                 (open :: flat_map entryTokens entries ++ badTokens bad ++ after) 0) []
              = Some (stored entries,
                      focus (name :: open :: flat_map entryTokens entries ++ badBefore bad)
                            (culprit bad) after 1,
                      Some err));
      [|now rewrite (unmarshalLoop_more_turns _ _ _ Hloop extra)].
    destruct bad as [key|key other|key arrow];
      cbn [isBadLine badTokens badBefore culprit badComplaint List.app] in *;
      repeat (apply andb_true_iff in Hbad as [Hbad ?]);
      repeat match goal with H : negb _ = true |- _ => apply negb_true_iff in H end.
    - destruct (@unmarshal_prefix name open key entries after 0 Hopen Hwf Hbad)
        as (d & Hblock & ->).
      cbn [HandlerConfig.unmarshalLoop]. rewrite Hblock. cbn [negb]. rewrite ?Val_focus.
      rewrite NextArg_endsLine by assumption. cbn [negb].
      rewrite app_nil_r. unfold ArgErr, errorAt.
      rewrite Val_focus, CurrentToken_focus.
      unfold isBrace in Hbad. apply orb_false_iff in Hbad as [-> _]. reflexivity.
    - destruct (@unmarshal_prefix name open key entries (other :: after) 0 Hopen Hwf Hbad)
        as (d & Hblock & ->).
      cbn [HandlerConfig.unmarshalLoop]. rewrite Hblock. cbn [negb]. rewrite ?Val_focus.
      rewrite NextArg_focus by assumption. cbn [negb].
      rewrite Val_focus. rewrite H. cbn [negb].
      unfold Err, errorAt. rewrite CurrentToken_focus.
      replace ((name :: open :: flat_map entryTokens entries) ++ [key])
        with (name :: open :: flat_map entryTokens entries ++ [key]) by reflexivity.
      reflexivity.
    - assert (Hab : String.eqb (Text arrow) "{" = false)
        by (apply String.eqb_eq in H0; now rewrite H0).
      destruct (@unmarshal_prefix name open key entries (arrow :: after) 0 Hopen Hwf Hbad)
        as (d & Hblock & ->).
      cbn [HandlerConfig.unmarshalLoop]. rewrite Hblock. cbn [negb]. rewrite ?Val_focus.
      rewrite NextArg_focus by assumption. cbn [negb].
      rewrite Val_focus, H0. cbn [negb].
      rewrite NextArg_endsLine by assumption. cbn [negb].
      unfold ArgErr, errorAt. rewrite Val_focus, CurrentToken_focus, Hab.
      replace ((name :: open :: flat_map entryTokens entries) ++ [key])
        with (name :: open :: flat_map entryTokens entries ++ [key]) by reflexivity.
      reflexivity. }
  split; [apply Hrun|].
  unfold HandlerConfig.parseCaddyfile. now rewrite Hrun.
Qed.

End ConfigTheorems.

(** ** [parseAppConfig] on a well-formed block *)

Section AppConfigFacts.
Import Caddyfile Block FocusFacts.

(** [strconv.ParseBool] fails in one way: a syntax error that carries
    its argument. *)
Lemma ParseBool_error (str : string) (e : Strconv.NumErrorValue) :
  ParseBool str = inr e ->
  e = {| Strconv.Func := "ParseBool"; Strconv.Num := str;
         Strconv.Err := Strconv.ErrSyntax |}.
Proof.
  unfold ParseBool, Strconv.syntaxError.
  repeat match goal with
         | |- context [if ?b then _ else _] => destruct b
         end; intros H; try discriminate; now inversion H.
Qed.

(** The loop never returns an app beside an error: its errors come with
    nil. *)
Lemma optionsLoop_first_nil (turns : nat) (d d' : Dispenser) (app app' : App)
      (err : Error) :
  AppConfig.optionsLoop turns d app <> Some (AppConfig.AppAndError app' err, d').
Proof.
  revert d app. induction turns as [|turns IH]; intros d app;
    cbn [AppConfig.optionsLoop]; [discriminate|].
  destruct (NextBlock 0 d) as [more d1]. destruct more; cbn [negb]; [|discriminate].
  destruct (String.eqb (Val d1) "advertise_amino").
  - destruct (NextArg d1) as [hasArg d2]. destruct hasArg; [|apply IH].
    destruct (ParseBool (Val d2)); [apply IH|discriminate].
  - destruct (String.eqb (Val d1) "private_key"); [|discriminate].
    destruct (NextArg d1) as [hasArg d2]. destruct hasArg; cbn [negb];
      [apply IH|discriminate].
Qed.

Lemma directive_name_plain (dir : Directive) (next : Token) :
  wellFormedDirective dir next = true -> isBrace (Text (nameOf dir)) = false.
Proof.
  destruct dir as [name|name arg|name arg]; cbn [wellFormedDirective nameOf]; intros H;
    repeat (apply andb_true_iff in H as [H ?]);
    apply String.eqb_eq in H; now rewrite H.
Qed.

Lemma firstToken_head (dirs : list Directive) (next : Token) (post : list Token) :
  exists tl,
    flat_map directiveTokens dirs ++ next :: post = firstToken dirs next :: tl.
Proof.
  destruct dirs as [|dir dirs]; [now exists post|].
  cbn [flat_map firstToken]. destruct dir; cbn [directiveTokens nameOf List.app];
    eexists; reflexivity.
Qed.

(** One turn of the loop on a well-formed directive: [d] is a dispenser
    that [NextBlock] moves to its name. *)
Lemma options_directive (turns : nat) (pre : list Token) (dir : Directive)
      (next : Token) (post : list Token) (app : App) (d : Dispenser) (args : list Token) :
  wellFormedDirective dir next = true ->
  directiveTokens dir = nameOf dir :: args ->
  NextBlock 0 d = (true, focus pre (nameOf dir) (args ++ next :: post) 1) ->
  exists pre' cur',
    pre' ++ [cur'] = pre ++ directiveTokens dir
    /\ AppConfig.optionsLoop (S turns) d app
       = AppConfig.optionsLoop turns (focus pre' cur' (next :: post) 1) (applyDirective dir app).
Proof.
  intros Hwf Hargs Hblock.
  destruct dir as [name|name arg|name arg];
    cbn [wellFormedDirective nameOf directiveTokens applyDirective] in *;
    injection Hargs as <-; cbn [List.app] in Hblock;
    repeat (apply andb_true_iff in Hwf as [Hwf ?]);
    repeat match goal with H : negb _ = true |- _ => apply negb_true_iff in H end.
  - exists pre, name. split; [reflexivity|].
    cbn [AppConfig.optionsLoop]. rewrite Hblock. cbn [negb].
    rewrite Val_focus, Hwf.
    rewrite NextArg_endsLine by assumption. reflexivity.
  - exists (pre ++ [name]), arg. split; [now rewrite <- app_assoc|].
    cbn [AppConfig.optionsLoop]. rewrite Hblock. cbn [negb].
    rewrite Val_focus, Hwf.
    rewrite NextArg_focus by assumption. rewrite Val_focus.
    now destruct (ParseBool (Text arg)).
  - exists (pre ++ [name]), arg. split; [now rewrite <- app_assoc|].
    cbn [AppConfig.optionsLoop]. rewrite Hblock. cbn [negb].
    rewrite Val_focus. apply String.eqb_eq in Hwf. rewrite Hwf.
    cbn [String.eqb Ascii.eqb Bool.eqb]. cbv iota.
    rewrite NextArg_focus by assumption. cbn [negb]. now rewrite Val_focus.
Qed.

Lemma directive_args (dir : Directive) :
  exists args, directiveTokens dir = nameOf dir :: args.
Proof. destruct dir; eexists; reflexivity. Qed.

Lemma options_directives (dirs : list Directive) :
  forall (turns : nat) (pre : list Token) (cur next : Token) (post : list Token) (app : App),
  wellFormedDirectives dirs next = true ->
  exists pre' cur',
    pre' ++ [cur'] = (pre ++ [cur]) ++ flat_map directiveTokens dirs
    /\ AppConfig.optionsLoop (List.length dirs + turns)
         (focus pre cur (flat_map directiveTokens dirs ++ next :: post) 1) app
       = AppConfig.optionsLoop turns (focus pre' cur' (next :: post) 1)
           (fold_left (fun app dir => applyDirective dir app) dirs app).
Proof.
  induction dirs as [|dir dirs IH]; intros turns pre cur next post app Hwf.
  - exists pre, cur. split; [now rewrite app_nil_r|reflexivity].
  - cbn [wellFormedDirectives] in Hwf. apply andb_true_iff in Hwf as [Hdir Hdirs].
    destruct (directive_args dir) as [args Hargs].
    destruct (firstToken_head dirs next post) as [tl Htl].
    destruct (@options_directive (List.length dirs + turns) (pre ++ [cur]) dir
                (firstToken dirs next) tl app
                (focus pre cur (flat_map directiveTokens (dir :: dirs) ++ next :: post) 1)
                args Hdir Hargs) as (pre1 & cur1 & Hsplit1 & Hrun1).
    { cbn [flat_map]. rewrite Hargs. cbn [List.app]. rewrite <- app_assoc, Htl.
      apply NextBlock_inside. exact (directive_name_plain dir _ Hdir). }
    rewrite <- Htl in Hrun1.
    destruct (IH turns pre1 cur1 next post (applyDirective dir app) Hdirs)
      as (pre' & cur' & Hsplit & Hrun).
    exists pre', cur'. split.
    + rewrite Hsplit, Hsplit1. cbn [flat_map]. now rewrite <- !app_assoc.
    + cbn [List.length Nat.add fold_left]. rewrite Hrun1. exact Hrun.
Qed.

(** The loop reaches the token that follows well-formed directives with
    what they configure. *)
Lemma options_prefix (name open next : Token) (dirs : list Directive) (post : list Token)
      (turns : nat) :
  opensBlock name open = true ->
  wellFormedDirectives dirs next = true ->
  isBrace (Text next) = false ->
  exists d,
    NextBlock 0 d
    = (true, focus (name :: open :: flat_map directiveTokens dirs) next post 1)
    /\ AppConfig.optionsLoop (List.length dirs + S turns)
         (focus [] name (open :: flat_map directiveTokens dirs ++ next :: post) 0)
         {| PrivateKey := ""; AdvertiseAmino := false |}
       = AppConfig.optionsLoop (S turns) d (configured dirs).
Proof.
  intros Hopen Hwf Hnext.
  destruct dirs as [|dir dirs].
  - eexists. split; [|reflexivity]. apply NextBlock_opens; [exact Hopen|].
    unfold isBrace in Hnext. now apply orb_false_iff in Hnext as [_ ?].
  - cbn [wellFormedDirectives] in Hwf. apply andb_true_iff in Hwf as [Hdir Hdirs].
    destruct (directive_args dir) as [args Hargs].
    destruct (firstToken_head dirs next post) as [tl Htl].
    pose proof (directive_name_plain dir _ Hdir) as Hplain.
    destruct (@options_directive (List.length dirs + S turns) [name; open] dir
                (firstToken dirs next) tl {| PrivateKey := ""; AdvertiseAmino := false |}
                (focus [] name
                   (open :: flat_map directiveTokens (dir :: dirs) ++ next :: post) 0)
                args Hdir Hargs) as (pre1 & cur1 & Hsplit1 & Hrun1).
    { cbn [flat_map]. rewrite Hargs. cbn [List.app]. rewrite <- app_assoc, Htl.
      apply NextBlock_opens; [exact Hopen|].
      unfold isBrace in Hplain. now apply orb_false_iff in Hplain as [_ ?]. }
    rewrite <- Htl in Hrun1.
    destruct (options_directives dirs (S turns) pre1 cur1 next post
                (applyDirective dir {| PrivateKey := ""; AdvertiseAmino := false |}) Hdirs)
      as (pre' & cur' & Hsplit & Hrun).
    exists (focus pre' cur' (next :: post) 1). split.
    + rewrite NextBlock_inside by exact Hnext.
      rewrite Hsplit, Hsplit1. cbn [flat_map List.app]. now rewrite <- ?app_assoc.
    + cbn [List.length Nat.add]. rewrite Hrun1. exact Hrun.
Qed.

(** The run of the loop over a whole block, from the directive name. *)
Lemma options_block (name open close : Token) (dirs : list Directive) (rest : list Token)
      (extra : nat) :
  opensBlock name open = true ->
  wellFormedDirectives dirs close = true ->
  closesBlock close rest = true ->
  AppConfig.optionsLoop (S (List.length dirs) + extra)
    (focus [] name (open :: flat_map directiveTokens dirs ++ close :: rest) 0)
    {| PrivateKey := ""; AdvertiseAmino := false |}
  = Some (AppConfig.HttpcaddyfileApp "libp2p" (configured dirs),
          focus (name :: open :: flat_map directiveTokens dirs) close rest 0).
Proof.
  intros Hopen Hwf Hclose.
  assert (Hc : String.eqb (Text close) "}" = true)
    by (unfold closesBlock in Hclose; now apply andb_true_iff in Hclose as [? _]).
  destruct dirs as [|dir dirs].
  - cbn [flat_map List.app List.length Nat.add AppConfig.optionsLoop].
    now rewrite NextBlock_opens_empty.
  - cbn [wellFormedDirectives] in Hwf. apply andb_true_iff in Hwf as [Hdir Hdirs].
    destruct (directive_args dir) as [args Hargs].
    destruct (firstToken_head dirs close rest) as [tl Htl].
    pose proof (directive_name_plain dir _ Hdir) as Hplain.
    destruct (@options_directive (List.length dirs + 1 + extra) [name; open] dir
                (firstToken dirs close) tl {| PrivateKey := ""; AdvertiseAmino := false |}
                (focus [] name
                   (open :: flat_map directiveTokens (dir :: dirs) ++ close :: rest) 0)
                args Hdir Hargs) as (pre1 & cur1 & Hsplit1 & Hrun1).
    { cbn [flat_map]. rewrite Hargs. cbn [List.app]. rewrite <- app_assoc, Htl.
      apply NextBlock_opens; [exact Hopen|].
      unfold isBrace in Hplain. now apply orb_false_iff in Hplain as [_ ?]. }
    rewrite <- Htl in Hrun1.
    replace (S (List.length (dir :: dirs)) + extra)%nat
      with (S (List.length dirs + 1 + extra)) by (cbn [List.length]; lia).
    rewrite Hrun1. apply optionsLoop_more_turns.
    destruct (options_directives dirs 1 pre1 cur1 close rest
                (applyDirective dir {| PrivateKey := ""; AdvertiseAmino := false |}) Hdirs)
      as (pre' & cur' & Hsplit & Hrun).
    rewrite Hrun. cbn [AppConfig.optionsLoop].
    rewrite NextBlock_closes by exact Hclose. cbn [negb].
    rewrite Hsplit, Hsplit1. cbn [flat_map List.app]. now rewrite <- ?app_assoc.
Qed.

End AppConfigFacts.

Section ConfigTheorems2.
Variable ResponseWriter : Type.
Import Caddyfile Block FocusFacts.

Lemma NextBlock_noBlock (name : Token) (rest : list Token) :
  noBlock name rest = true ->
  NextBlock 0 (focus [] name rest 0) = (false, focus [] name rest 0).
Proof.
  intros H. unfold NextBlock. cbn [nesting focus]. change (0 >? 0) with false. cbv iota.
  destruct rest as [|next post].
  - now rewrite nextOnSameLine_focus_last.
  - cbn [noBlock] in H. rewrite nextOnSameLine_focus.
    destruct (isNextOnNewLine name next); [reflexivity|].
    cbn [orb] in H. cbn [negb]. rewrite Val_focus, H. reflexivity.
Qed.

(** X9: without a block after the directive name (no token, a token on
    another line, or arguments on its line) [UnmarshalCaddyfile] returns no
    error and an empty map; the arguments are not looked at.  The same
    holds when the dispenser has no token at all. *)
Theorem X9_UnmarshalCaddyfile_without_block
        (l : Handler.Libp2pHandler ResponseWriter) (name : Token) (rest : list Token) :
  noBlock name rest = true ->
  HandlerConfig.UnmarshalCaddyfile l (NewDispenser (name :: rest))
  = Some ({| Handler.WellKnownHandler := Handler.WellKnownHandler l;
             Handler.ParsedProtosMap := [] |},
          focus [] name rest 0, None)
  /\ HandlerConfig.UnmarshalCaddyfile l (NewDispenser [])
     = Some ({| Handler.WellKnownHandler := Handler.WellKnownHandler l;
                Handler.ParsedProtosMap := [] |},
             NewDispenser [], None).
Proof.
  intros H. split; [|reflexivity].
  unfold HandlerConfig.UnmarshalCaddyfile. rewrite Next_NewDispenser. cbn [snd].
  cbn [HandlerConfig.unmarshalLoop]. now rewrite NextBlock_noBlock.
Qed.

(** X10: [parseAppConfig] returns on every dispenser. *)
Theorem X10_parseAppConfig_returns (d : Dispenser) :
  exists returned d', AppConfig.parseAppConfig d = Some (returned, d').
Proof.
  unfold AppConfig.parseAppConfig. destruct (Next d) as [ok d1].
  destruct ok; cbn [negb]; [|eauto].
  destruct (AppConfig.optionsLoop (S (turnsLeft d1)) d1 _) as [[r d']|] eqn:E; [eauto|].
  now apply optionsLoop_returns in E; [|lia].
Qed.

Lemma length_directives (dirs : list Directive) :
  (List.length dirs <= List.length (flat_map directiveTokens dirs))%nat.
Proof.
  induction dirs as [|dir dirs IH]; [reflexivity|].
  cbn [flat_map List.length]. rewrite length_app.
  destruct dir; cbn [directiveTokens List.length]; lia.
Qed.

(** The run of [parseAppConfig] over a whole block. *)
Lemma parseAppConfig_block
        (name open close : Token) (dirs : list Directive) (rest : list Token) :
  opensBlock name open = true ->
  wellFormedDirectives dirs close = true ->
  closesBlock close rest = true ->
  AppConfig.parseAppConfig
    (NewDispenser (name :: open :: flat_map directiveTokens dirs ++ close :: rest))
  = Some (AppConfig.HttpcaddyfileApp "libp2p" (configured dirs),
          focus (name :: open :: flat_map directiveTokens dirs) close rest 0).
Proof.
  intros Hopen Hwf Hclose.
  unfold AppConfig.parseAppConfig. rewrite Next_NewDispenser. cbn [negb].
  destruct (@turns_suffice name
              (open :: flat_map directiveTokens dirs ++ close :: rest)
              (S (List.length dirs))) as [extra ->].
  { cbn [List.length]. rewrite length_app.
    pose proof (length_directives dirs). lia. }
  exact (@options_block name open close dirs rest extra Hopen Hwf Hclose).
Qed.

(** X11: on a well-formed [libp2p] block (lines [advertise_amino],
    [advertise_amino] with a boolean, [private_key] with a path)
    [parseAppConfig] returns the app named ["libp2p"] whose settings are
    those of the lines in order, a later line overriding an earlier one,
    and leaves the cursor on the closing brace. *)
Theorem X11_parseAppConfig_block
        (name open close : Token) (dirs : list Directive) (rest : list Token) :
  opensBlock name open = true ->
  wellFormedDirectives dirs close = true ->
  closesBlock close rest = true ->
  AppConfig.parseAppConfig
    (NewDispenser (name :: open :: flat_map directiveTokens dirs ++ close :: rest))
  = Some (AppConfig.HttpcaddyfileApp "libp2p" (configured dirs),
          focus (name :: open :: flat_map directiveTokens dirs) close rest 0).
Proof. apply parseAppConfig_block. Qed.

(** X12: parsing the block that spells out an app gives this app back,
    for every app whose key path is not the text of an opening brace. *)
Theorem X12_parseAppConfig_render (app : App) :
  String.eqb (PrivateKey app) "{" = false ->
  AppConfig.parseAppConfig (NewDispenser (render app))
  = Some (AppConfig.HttpcaddyfileApp "libp2p" app,
          focus (tok 1 "libp2p" :: tok 1 "{" :: flat_map directiveTokens (directivesOf app))
                (tok 4 "}") [] 0).
Proof.
  intros Hpath. unfold render.
  rewrite (@parseAppConfig_block (tok 1 "libp2p") (tok 1 "{") (tok 4 "}")
             (directivesOf app) []).
  - do 3 f_equal. destruct app as [path amino]. cbn [PrivateKey AdvertiseAmino] in *.
    unfold directivesOf, configured. cbn [PrivateKey AdvertiseAmino].
    destruct (String.eqb_spec path "") as [->|Hne]; destruct amino; reflexivity.
  - reflexivity.
  - destruct app as [path amino]. cbn [PrivateKey AdvertiseAmino] in *.
    unfold directivesOf. cbn [PrivateKey AdvertiseAmino].
    destruct (String.eqb path ""); destruct amino;
      cbn [List.app wellFormedDirectives wellFormedDirective firstToken nameOf Text tok];
      rewrite ?Hpath; reflexivity.
  - reflexivity.
Qed.

End ConfigTheorems2.

Section ConfigTheorems3.
Variable ResponseWriter : Type.
Import Caddyfile Block FocusFacts.

Lemma bad_name_plain (bad : BadDirective) (after : list Token) :
  isBadDirective bad after = true -> isBrace (Text (badName bad)) = false.
Proof.
  destruct bad as [name|name arg|name]; cbn [isBadDirective badName]; intros H;
    repeat (apply andb_true_iff in H as [H ?]).
  - now apply negb_true_iff in H.
  - apply String.eqb_eq in H. now rewrite H.
  - apply String.eqb_eq in H. now rewrite H.
Qed.

(** X13: when well-formed directives are followed by a directive the
    loop does not know, by [advertise_amino] with an argument
    [strconv.ParseBool] rejects, or by [private_key] without path,
    [parseAppConfig] returns nil and an error that names the cause and the
    file and line of the token the cursor is left on, whatever comes
    after and whatever the earlier lines had set.  The cause is the
    message ["unrecognized directive: "] and the name, the
    [*strconv.NumError] that [ParseBool] returns (function ["ParseBool"],
    the argument as its input, a syntax error) handed to [d.WrapErr],
    or the argument error at the name. *)
Theorem X13_parseAppConfig_bad_directive
        (name open : Token) (dirs : list Directive) (bad : BadDirective)
        (after : list Token) :
  opensBlock name open = true ->
  wellFormedDirectives dirs (badName bad) = true ->
  isBadDirective bad after = true ->
  AppConfig.parseAppConfig
    (NewDispenser
       (name :: open :: flat_map directiveTokens dirs ++ badDirectiveTokens bad ++ after))
  = Some (AppConfig.NilAndError
            {| complaint := badDirectiveComplaint bad;
               atFile := File (badDirectiveCulprit bad);
               atLine := Line (badDirectiveCulprit bad) |},
          focus (name :: open :: flat_map directiveTokens dirs ++ badDirectiveBefore bad)
                (badDirectiveCulprit bad) after 1).
Proof.
  intros Hopen Hwf Hbad.
  pose proof (bad_name_plain bad after Hbad) as Hplain.
  unfold AppConfig.parseAppConfig. rewrite Next_NewDispenser. cbn [negb].
  destruct (@turns_suffice name
              (open :: flat_map directiveTokens dirs ++ badDirectiveTokens bad ++ after)
              (List.length dirs + 1)) as [extra ->].
  { cbn [List.length]. rewrite !length_app. pose proof (length_directives dirs).
    destruct bad; cbn [badDirectiveTokens List.length]; lia. }
  apply optionsLoop_more_turns.
  destruct bad as [bname|bname arg|bname];
    cbn [isBadDirective badDirectiveTokens badDirectiveBefore badDirectiveCulprit
         badDirectiveComplaint badName List.app] in *;
    repeat (apply andb_true_iff in Hbad as [Hbad ?]);
    repeat match goal with H : negb _ = true |- _ => apply negb_true_iff in H end.
  - destruct (@options_prefix name open bname dirs after 0 Hopen Hwf Hplain)
      as (d & Hblock & ->).
    cbn [AppConfig.optionsLoop]. rewrite Hblock. cbn [negb].
    rewrite Val_focus, H0, H. unfold Err, errorAt.
    rewrite ?Val_focus, CurrentToken_focus, app_nil_r. reflexivity.
  - destruct (@options_prefix name open bname dirs (arg :: after) 0 Hopen Hwf Hplain)
      as (d & Hblock & ->).
    cbn [AppConfig.optionsLoop]. rewrite Hblock. cbn [negb].
    rewrite Val_focus, Hbad. rewrite NextArg_focus by assumption.
    rewrite Val_focus.
    destruct (ParseBool (Text arg)) as [v|cause] eqn:Hparse; [discriminate|].
    apply ParseBool_error in Hparse. subst cause.
    unfold WrapErr, errorAt. rewrite CurrentToken_focus.
    replace ((name :: open :: flat_map directiveTokens dirs) ++ [bname])
      with (name :: open :: flat_map directiveTokens dirs ++ [bname]) by reflexivity.
    reflexivity.
  - destruct (@options_prefix name open bname dirs after 0 Hopen Hwf Hplain)
      as (d & Hblock & ->).
    cbn [AppConfig.optionsLoop]. rewrite Hblock. cbn [negb].
    rewrite Val_focus. apply String.eqb_eq in Hbad. rewrite Hbad.
    cbn [String.eqb Ascii.eqb Bool.eqb]. cbv iota.
    rewrite NextArg_endsLine by assumption. cbn [negb].
    unfold ArgErr, errorAt. rewrite ?Val_focus, CurrentToken_focus, ?Hbad, app_nil_r.
    reflexivity.
Qed.

(** X14: without any token [parseAppConfig] returns the empty app
    beside an argument error, and this is the only case in which its
    first result is not nil beside an error: from any dispenser, a result
    that is an app beside an error means that [d.Next()] was false, and
    over a new dispenser that there was no token; with the option name
    and no block after it, it returns the app named ["libp2p"] with no
    key file and without advertising, and arguments on the line of the
    name are not looked at. *)
Theorem X14_parseAppConfig_without_block (name : Token) (rest : list Token) :
  noBlock name rest = true ->
  AppConfig.parseAppConfig (NewDispenser [])
  = Some (AppConfig.AppAndError
            {| PrivateKey := ""; AdvertiseAmino := false |}
            {| complaint := WrongArgumentCount ""; atFile := ""; atLine := 0 |},
          NewDispenser [])
  /\ (forall d0 app err d,
      AppConfig.parseAppConfig d0 = Some (AppConfig.AppAndError app err, d) ->
      fst (Next d0) = false)
  /\ (forall toks app err d,
      AppConfig.parseAppConfig (NewDispenser toks)
      = Some (AppConfig.AppAndError app err, d) ->
      toks = [])
  /\ AppConfig.parseAppConfig (NewDispenser (name :: rest))
     = Some (AppConfig.HttpcaddyfileApp "libp2p"
               {| PrivateKey := ""; AdvertiseAmino := false |},
             focus [] name rest 0).
Proof.
  intros H. split; [reflexivity|]. split; [|split].
  - intros d0 app err d Hret. unfold AppConfig.parseAppConfig in Hret.
    destruct (Next d0) as [ok d1]. destruct ok; [|reflexivity].
    cbn [negb] in Hret. now destruct (optionsLoop_first_nil _ _ _ Hret).
  - intros toks app err d Hret. destruct toks as [|first others]; [reflexivity|].
    exfalso. unfold AppConfig.parseAppConfig in Hret.
    rewrite Next_NewDispenser in Hret. cbn [negb] in Hret.
    exact (optionsLoop_first_nil _ _ _ Hret).
  - unfold AppConfig.parseAppConfig. rewrite Next_NewDispenser. cbn [negb].
    cbn [AppConfig.optionsLoop]. now rewrite (NextBlock_noBlock name rest H).
Qed.

End ConfigTheorems3.

(** ** [Provision] *)

Section ProvisionFacts.
Import ProtoMap ProtoMapFacts.

Lemma get_Some_In (k v : string) (m : ProtoMap.t) : get k m = Some v -> In (k, v) m.
Proof.
  induction m as [|[k' v'] m IH]; [discriminate|]. cbn [get].
  destruct (String.eqb_spec k' k) as [->|Hne].
  - intros [= ->]. now left.
  - intros H. right. now apply IH.
Qed.

Lemma get_None_keys (k : string) (m : ProtoMap.t) : get k m = None -> ~ In k (keys m).
Proof.
  induction m as [|[k' v'] m IH]; [intros _ []|]. cbn [get keys map fst In].
  destruct (String.eqb_spec k' k) as [->|Hne]; [discriminate|].
  intros H [Heq|Hin]; [contradiction|]. now apply IH.
Qed.

(** The entries of a map can be looked up in whatever order they are
    listed. *)
Lemma get_Permutation (k : string) (m order : ProtoMap.t) :
  NoDup (keys m) -> Permutation order m -> get k order = get k m.
Proof.
  intros Hnd Hperm.
  assert (Hnd' : NoDup (keys order)).
  { apply (Permutation_NoDup (l := keys m)); [|exact Hnd].
    apply Permutation_sym. unfold keys. now apply Permutation_map. }
  destruct (get k m) as [v|] eqn:E.
  - apply get_In; [exact Hnd'|].
    apply (Permutation_in _ (Permutation_sym Hperm)). now apply get_Some_In.
  - apply get_None. intros Hin. apply (get_None_keys _ _ E).
    apply (Permutation_in (l := keys order)); [|exact Hin].
    unfold keys. now apply Permutation_map.
Qed.

Lemma get_Provision (k : string) (order : ProtoMap.t) :
  forall mapping,
  NoDup (keys order) ->
  get k (fst (HandlerConfig.Provision order mapping))
  = match get k order with
    | Some path => Some path
    | None => get k mapping
    end.
Proof.
  unfold HandlerConfig.Provision. cbn [fst].
  induction order as [|[k' v'] order IH]; intros mapping Hnd; [reflexivity|].
  cbn [keys map fst] in Hnd. inversion Hnd as [|? ? Hnin Hnd']; subst.
  cbn [fold_left fst snd get]. rewrite (IH _ Hnd').
  unfold HandlerConfig.AddProtocolMeta. rewrite get_set.
  destruct (String.eqb_spec k' k) as [->|Hne]; [|reflexivity].
  now rewrite (get_None _ _ Hnin).
Qed.

End ProvisionFacts.

(** ** More on the registration *)

Section RegistrationExtras.
Context {T : Types} (env : Externals T).

Lemma parseAddr_Ok_inv (addr : string) (ma : Multiaddr.Multiaddr) (port : Z)
      (t : list (Event T)) :
  ModuleGo.parseAddr env addr = (Ok (ma, port), t) ->
  exists pre suf,
    addr = (pre ++ String ":" suf)%string
    /\ GoString.contains ":" suf = false
    /\ NewMultiaddr env ("/" ++ pre) = inl ma
    /\ t = [CallNewMultiaddr ("/" ++ pre)].
Proof.
  intros H. destruct (GoString.contains ":" addr) eqn:Hc.
  - destruct (GoStringFacts.split_last_colon addr Hc) as (pre & suf & -> & Hsuf).
    exists pre, suf. repeat split; try assumption.
    + rewrite (ModuleGo_parseAddr_split env pre suf Hsuf) in H. unfold parsedWith in H.
      destruct suf; [|destruct (Strconv.Atoi _); [|discriminate]];
        destruct (NewMultiaddr env _); now inversion H.
    + rewrite (ModuleGo_parseAddr_split env pre suf Hsuf) in H. unfold parsedWith in H.
      destruct suf; [|destruct (Strconv.Atoi _); [|discriminate]];
        destruct (NewMultiaddr env _); now inversion H.
  - rewrite (ModuleGo_parseAddr_no_colon env addr Hc) in H.
    destruct addr; [discriminate|]. now destruct (Strconv.Atoi _).
Qed.

(** Identity loading never panics, fails only with one of its five
    errors, and gives no key exactly when no key file is configured. *)
Lemma loadIdentity_cases (app : App) :
  match ModuleGo.loadIdentity env app with
  | (Ok None, t) => PrivateKey app = ""%string /\ t = []
  | (Ok (Some _), _) => PrivateKey app <> ""%string
  | (Fail e, _) => isIdentityError e = true /\ PrivateKey app <> ""%string
  | (Panic _, _) => False
  end.
Proof.
  unfold ModuleGo.loadIdentity.
  destruct (String.eqb_spec (PrivateKey app) "") as [Hp|Hp]; cbn [negb]; [now split|].
  destruct (ReadFile env (PrivateKey app)) as [data|e]; [|now split].
  cbn [callE bind call].
  destruct (Decode env data) as [[blk|] rest]; [|now split].
  destruct (negb (Pem.Type_ blk =? "PRIVATE KEY")%string); [now split|].
  destruct (ParsePKCS8PrivateKey env (Pem.Bytes blk)) as [k|e]; [|now split].
  cbn [callE bind].
  destruct (KeyPairFromStdKey env (ModuleGo.ed25519Pointer k)); [exact Hp|now split].
Qed.

(** What a registration that called [libp2p.New], or returned a
    listener, has gone through. *)
Lemma register_inv (ctx : Context) (network addr : string) (cfg : ListenConfig) :
  let run := ModuleGo.registerMultiaddrURI env ctx network addr cfg in
  (noHostCalls (calls run) = true /\ forall l, outcome run <> Ok l)
  \/ exists cctx app ma port t0 sk t1,
      ctx = CaddyContext cctx /\ network = "multiaddr:"%string
      /\ Caddy.AppOf cctx "libp2p" = inl (AppPtr app)
      /\ ModuleGo.parseAddr env addr = (Ok (ma, port), t0)
      /\ ModuleGo.loadIdentity env app = (Ok sk, t1)
      /\ let opts := ModuleGo.hostOptions env ctx ma sk app in
         let tag := Libp2p.ProtocolIDForMultistreamSelect in
         run = match New env opts with
               | inr e => (Fail (HostConstructionError e),
                           t0 ++ CallApp "libp2p" :: t1 ++ [CallNew opts])
               | inl h =>
                   (match Listen env h tag [Gostream.IgnoreEOF] with
                    | inl l => Ok l
                    | inr e => Fail (ListenError e)
                    end,
                    t0 ++ CallApp "libp2p" :: t1 ++
                    [CallNew opts;
                     CallPrintln (PrintedID (HostID env h));
                     CallPrintln (PrintedAddrs (HostAddrs env h));
                     CallListen h tag [Gostream.IgnoreEOF]])
               end.
Proof.
  cbv zeta. unfold ModuleGo.registerMultiaddrURI, ModuleGo.buildHost.
  destruct ctx as [cctx|typeName]; [|left; split; [reflexivity|discriminate]].
  destruct (String.eqb_spec network "multiaddr:") as [->|Hne]; cbn [negb];
    [|left; split; [reflexivity|discriminate]].
  pose proof (ModuleGo_parseAddr_noHost env addr) as Hp.
  destruct (ModuleGo.parseAddr env addr) as [[[ma port]|e0|p] t0] eqn:Hparse;
    cbn [bind fail]; [|left; split; [exact Hp|discriminate]..].
  cbn [calls snd] in Hp.
  destruct (Caddy.AppOf cctx "libp2p") as [[app|other]|e] eqn:HApp; cbn [callE bind].
  2,3: left; split; [|discriminate]; cbn [calls snd panic bind];
       rewrite noHostCalls_app, Hp; reflexivity.
  pose proof (ModuleGo_loadIdentity_noHost env app) as Ht.
  destruct (ModuleGo.loadIdentity env app) as [[sk|e1|p1] t1] eqn:Hload;
    cbn [bind List.app]; cbn [calls snd] in Ht.
  2,3: left; split; [|discriminate]; cbn [calls snd];
       rewrite noHostCalls_app, Hp; exact Ht.
  right. exists cctx, app, ma, port, t0, sk, t1. repeat split; try assumption.
  cbn [fst]. cbv zeta.
  destruct (New env (ModuleGo.hostOptions env (CaddyContext cctx) ma sk app)) as [h|e];
    cbn [bind call ret List.app callE].
  - destruct (Listen env h Libp2p.ProtocolIDForMultistreamSelect [Gostream.IgnoreEOF]);
      cbn [callE]; normalize_calls; reflexivity.
  - normalize_calls. reflexivity.
Qed.

(** X1: the port written after the last colon has no effect: two
    addresses that differ only in a port the parser accepts (an empty one
    included) give the same run, calls and result. *)
Theorem X1_port_is_ignored (ctx : Context) (network pre port1 port2 : string)
        (cfg : ListenConfig) :
  acceptedPort port1 = true ->
  acceptedPort port2 = true ->
  ModuleGo.registerMultiaddrURI env ctx network (pre ++ String ":" port1) cfg
  = ModuleGo.registerMultiaddrURI env ctx network (pre ++ String ":" port2) cfg.
Proof.
  assert (Hrun : forall port, acceptedPort port = true ->
            exists n, ModuleGo.parseAddr env (pre ++ String ":" port)
                      = parsedWith env ("/" ++ pre) n).
  { intros port H. unfold acceptedPort in H. apply andb_true_iff in H as [Hc Ha].
    apply negb_true_iff in Hc. rewrite (ModuleGo_parseAddr_split env pre port Hc).
    destruct port; [now exists 0|].
    destruct (Strconv.Atoi _) as [n|]; [now exists n|discriminate]. }
  intros H1 H2. destruct (Hrun _ H1) as [n1 E1]. destruct (Hrun _ H2) as [n2 E2].
  unfold ModuleGo.registerMultiaddrURI, ModuleGo.buildHost.
  destruct ctx as [cctx|typeName]; [|reflexivity].
  destruct (negb (network =? "multiaddr:")%string); [reflexivity|].
  rewrite E1, E2. unfold parsedWith.
  destruct (NewMultiaddr env ("/" ++ pre)); reflexivity.
Qed.

(** X2: the address parser panics exactly on the strings without colon
    that are empty or that [strconv.Atoi] accepts, and then always with the
    slice bound [-1]. *)
Theorem X2_parseAddr_panics_iff (addr : string) (p : GoString.PanicKind) :
  outcome (ModuleGo.parseAddr env addr) = Panic p
  <-> GoString.contains ":" addr = false
      /\ (addr = ""%string \/ exists n, Strconv.Atoi addr = inl n)
      /\ p = GoString.SliceBoundsOutOfRange (-1) (GoString.len addr).
Proof.
  destruct (GoString.contains ":" addr) eqn:Hc.
  - split; [|now intros [? _]].
    intros H. now destruct (@parseAddr_colon_no_panic T env addr p Hc).
  - rewrite (ModuleGo_parseAddr_no_colon env addr Hc).
    destruct addr as [|c s].
    + cbn. split; [intros [= <-]; auto|now intros (_ & _ & ->)].
    + destruct (Strconv.Atoi (String c s)) as [n|e]; cbn.
      * split; [intros [= <-]; eauto|now intros (_ & _ & ->)].
      * split; [discriminate|]. intros (_ & [Hempty|[n Hn]] & _); discriminate.
Qed.

(** X3: the options a registration passes to [libp2p.New] are, in this
    order, the listen address, the default transports, the WebRTC
    transport, the identity if there is one, the routing if it is on.  The
    listen address is the single multiaddr parsed from ["/"] and what
    precedes the last colon of the address; there is an identity exactly
    when a key file is configured, and it is the key loaded from it. *)
Theorem X3_host_options (cctx : Caddy.Context) (app : App) (network addr : string)
        (cfg : ListenConfig) (opts : list (Libp2p.Option_ T)) :
  Caddy.AppOf cctx "libp2p" = inl (AppPtr app) ->
  In (CallNew opts)
     (calls (ModuleGo.registerMultiaddrURI env (CaddyContext cctx) network addr cfg)) ->
  exists pre suf ma sk,
    addr = (pre ++ String ":" suf)%string
    /\ GoString.contains ":" suf = false
    /\ NewMultiaddr env ("/" ++ pre) = inl ma
    /\ outcome (ModuleGo.loadIdentity env app) = Ok sk
    /\ (sk = None <-> PrivateKey app = ""%string)
    /\ opts = [Libp2p.ListenAddrs [ma]; Libp2p.DefaultTransports;
               Libp2p.Transport Libp2p.WebRTCNew]
              ++ match sk with Some k => [Libp2p.Identity k] | None => [] end
              ++ (if AdvertiseAmino app
                  then [Libp2p.Routing (ModuleGo.clientDHT env (CaddyContext cctx))]
                  else []).
Proof.
  intros HApp Hin.
  destruct (register_inv (CaddyContext cctx) network addr cfg)
    as [[Hno _]|(cctx' & app' & ma & port & t0 & sk & t1 & [= <-] & -> & HApp'
                 & Hparse & Hload & Hrun)].
  { now destruct (noHostCalls_not_New _ opts Hno). }
  rewrite HApp in HApp'. injection HApp' as <-.
  destruct (parseAddr_Ok_inv _ Hparse) as (pre & suf & -> & Hsuf & Hma & ->).
  exists pre, suf, ma, sk. repeat split; try assumption.
  - now rewrite Hload.
  - intros ->. pose proof (loadIdentity_cases app) as Hc. rewrite Hload in Hc. tauto.
  - intros Hempty. pose proof (loadIdentity_cases app) as Hc. rewrite Hload in Hc.
    destruct sk; [contradiction|reflexivity].
  - pose proof (ModuleGo_loadIdentity_noHost env app) as Ht. rewrite Hload in Ht.
    cbn [calls snd] in Ht. cbv zeta in Hrun. rewrite Hrun in Hin.
    assert (Heq : opts = ModuleGo.hostOptions env (CaddyContext cctx) ma sk app).
    { destruct (New env _) as [h|e]; cbn [calls snd List.app In] in Hin;
        (destruct Hin as [Hin|[Hin|Hin]]; [discriminate|discriminate|]);
        apply in_app_or in Hin as [Hin|Hin];
        try (now destruct (noHostCalls_not_New _ opts Ht));
        cbn [In] in Hin; intuition (try discriminate); congruence. }
    rewrite Heq. unfold ModuleGo.hostOptions.
    destruct sk; destruct (AdvertiseAmino app); reflexivity.
Qed.

(** X4: a registration that returns a listener was given a caddy context
    and the token ["multiaddr:"]; it has called [libp2p.New] once and
    [gostream.Listen] once, as its last call, and the listener is the one
    [gostream.Listen] returned for the host of [libp2p.New], the protocol
    ID [/http/1.1] and the option [IgnoreEOF]; the host's ID and addresses
    were printed in between. *)
Theorem X4_listener_provenance (ctx : Context) (network addr : string)
        (cfg : ListenConfig) (l : Listener T) :
  outcome (ModuleGo.registerMultiaddrURI env ctx network addr cfg) = Ok l ->
  (exists cctx, ctx = CaddyContext cctx) /\ network = "multiaddr:"%string
  /\ exists before opts h,
      noHostCalls before = true
      /\ calls (ModuleGo.registerMultiaddrURI env ctx network addr cfg)
         = before ++ [CallNew opts;
                      CallPrintln (PrintedID (HostID env h));
                      CallPrintln (PrintedAddrs (HostAddrs env h));
                      CallListen h "/http/1.1" [Gostream.IgnoreEOF]]
      /\ New env opts = inl h
      /\ Listen env h "/http/1.1" [Gostream.IgnoreEOF] = inl l.
Proof.
  intros Hok.
  destruct (register_inv ctx network addr cfg)
    as [[_ Hno]|(cctx & app & ma & port & t0 & sk & t1 & -> & -> & HApp
                 & Hparse & Hload & Hrun)].
  { now destruct (Hno l). }
  split; [eauto|]. split; [reflexivity|].
  cbv zeta in Hrun. rewrite Hrun in Hok |- *.
  pose proof (ModuleGo_loadIdentity_noHost env app) as Ht. rewrite Hload in Ht.
  pose proof (ModuleGo_parseAddr_noHost env addr) as Hp. rewrite Hparse in Hp.
  cbn [calls snd] in Ht, Hp.
  destruct (New env _) as [h|e] eqn:HNew; [|discriminate].
  cbn [outcome fst] in Hok.
  change Libp2p.ProtocolIDForMultistreamSelect with "/http/1.1"%string in *.
  destruct (Listen env h "/http/1.1" [Gostream.IgnoreEOF]) as [l'|e] eqn:HListen;
    [|discriminate].
  injection Hok as ->.
  exists (t0 ++ CallApp "libp2p" :: t1),
         (ModuleGo.hostOptions env (CaddyContext cctx) ma sk app), h.
  repeat split.
  - rewrite noHostCalls_app, Hp. exact Ht.
  - cbn [calls snd]. now rewrite <- app_assoc.
  - exact HNew.
  - exact HListen.
Qed.

(** X5: identity loading never panics: it ends in a key, in no key or
    in an error, and the error is a read, envelope, key-type, decoding or
    conversion error; when it fails, no registration that uses the app
    calls [libp2p.New] or [gostream.Listen] or returns a listener, and
    one that got as far as loading the identity returns that error. *)
Theorem X5_identity_failure_stops_registration
        (cctx : Caddy.Context) (app : App) :
  Caddy.AppOf cctx "libp2p" = inl (AppPtr app) ->
  (forall p, outcome (ModuleGo.loadIdentity env app) <> Panic p)
  /\ forall e, outcome (ModuleGo.loadIdentity env app) = Fail e ->
     isIdentityError e = true
     /\ forall network addr cfg,
         noHostCalls
           (calls (ModuleGo.registerMultiaddrURI env (CaddyContext cctx) network addr cfg))
         = true
         /\ (forall l,
              outcome (ModuleGo.registerMultiaddrURI env (CaddyContext cctx)
                         network addr cfg)
              <> Ok l)
         /\ (network = "multiaddr:"%string ->
             forall r t0, ModuleGo.parseAddr env addr = (Ok r, t0) ->
             outcome (ModuleGo.registerMultiaddrURI env (CaddyContext cctx)
                        network addr cfg)
             = Fail e).
Proof.
  intros HApp.
  pose proof (loadIdentity_cases app) as Hc.
  destruct (ModuleGo.loadIdentity env app) as [[sk|e'|p] t] eqn:Hload;
    cbn [outcome fst]; (split; [intros p'; try discriminate; contradiction|]);
    intros e Hfail; try discriminate.
  injection Hfail as ->. split; [tauto|].
  intros network addr cfg.
  exact (register_identity_fails env cctx HApp Hload network addr cfg).
Qed.

End RegistrationExtras.

Section ProvisionTheorems.
Variable ResponseWriter : Type.
Import Caddyfile Block.

(** X15: [Provision] returns no error and merges the parsed map into the
    mapping of the well-known handler: a protocol ID of the parsed map
    gets its parsed path, overwriting what the mapping had, every other ID
    keeps what it had; this does not depend on the order in which Go
    ranges over the map. *)
Theorem X15_Provision_merges (parsed order mapping : ProtoMap.t) :
  NoDup (ProtoMap.keys parsed) ->
  Permutation order parsed ->
  snd (HandlerConfig.Provision order mapping) = None
  /\ forall id,
      ProtoMap.get id (fst (HandlerConfig.Provision order mapping))
      = match ProtoMap.get id parsed with
        | Some path => Some path
        | None => ProtoMap.get id mapping
        end.
Proof.
  intros Hnd Hperm. split; [reflexivity|]. intros id.
  rewrite get_Provision.
  - now rewrite (get_Permutation id Hnd Hperm).
  - apply (Permutation_NoDup (l := ProtoMap.keys parsed)); [|exact Hnd].
    apply Permutation_sym. unfold ProtoMap.keys. now apply Permutation_map.
Qed.

(** X16: unmarshaling a well-formed block and then provisioning gives a
    mapping in which every protocol ID of the block has the path of its
    last entry and every other ID keeps what it had. *)
Theorem X16_unmarshal_then_provision
        (l : Handler.Libp2pHandler ResponseWriter)
        (name open close : Token) (entries : list Entry) (rest : list Token)
        (order mapping : ProtoMap.t) :
  opensBlock name open = true ->
  forallb wellFormedEntry entries = true ->
  closesBlock close rest = true ->
  Permutation order (stored entries) ->
  exists l' d',
    HandlerConfig.UnmarshalCaddyfile l
      (NewDispenser (name :: open :: flat_map entryTokens entries ++ close :: rest))
    = Some (l', d', None)
    /\ Handler.ParsedProtosMap l' = stored entries
    /\ forall id,
        ProtoMap.get id (fst (HandlerConfig.Provision order mapping))
        = match lastPath id entries with
          | Some path => Some path
          | None => ProtoMap.get id mapping
          end.
Proof.
  intros Hopen Hwf Hclose Hperm.
  eexists. eexists. split; [now apply UnmarshalCaddyfile_block|].
  split; [reflexivity|]. intros id.
  assert (Hnd : NoDup (ProtoMap.keys (stored entries)))
    by (unfold stored; apply NoDup_stored; constructor).
  rewrite get_Provision.
  - rewrite (get_Permutation id Hnd Hperm). unfold stored, lastPath.
    now rewrite (get_stored id entries [] (found := None) eq_refl).
  - apply (Permutation_NoDup (l := ProtoMap.keys (stored entries))); [|exact Hnd].
    apply Permutation_sym. unfold ProtoMap.keys. now apply Permutation_map.
Qed.

End ProvisionTheorems.

(** ** The theorems of the last sections on concrete inputs *)

(** X1 at the ports ["4001"] and none. *)
Lemma X1_port_is_ignored_witness :
  ModuleGo.registerMultiaddrURI Scenario.E Scenario.ctx "multiaddr:"
    "ip4/0.0.0.0/tcp/4001:4001" DefaultListenConfig
  = ModuleGo.registerMultiaddrURI Scenario.E Scenario.ctx "multiaddr:"
      "ip4/0.0.0.0/tcp/4001:" DefaultListenConfig.
Proof.
  apply (@X1_port_is_ignored Sim.simT Scenario.E Scenario.ctx "multiaddr:"
           "ip4/0.0.0.0/tcp/4001" "4001" "" DefaultListenConfig); reflexivity.
Defined.

(** X2 at ["4001"]. *)
Lemma X2_parseAddr_panics_iff_witness :
  outcome (ModuleGo.parseAddr Scenario.E "4001")
  = Panic (GoString.SliceBoundsOutOfRange (-1) 4).
Proof.
  apply (proj2 (@X2_parseAddr_panics_iff Sim.simT Scenario.E "4001"
                  (GoString.SliceBoundsOutOfRange (-1) 4))).
  split; [reflexivity|]. split; [|reflexivity]. right. exists 4001. reflexivity.
Defined.

(** X3 with an ed25519 key file and routing on. *)
Lemma X3_host_options_witness :
  exists pre suf ma sk,
    "ip4/0.0.0.0/tcp/4001:4001"%string = (pre ++ String ":" suf)%string
    /\ GoString.contains ":" suf = false
    /\ NewMultiaddr Scenario.E ("/" ++ pre) = inl ma
    /\ outcome (ModuleGo.loadIdentity Scenario.E Sim.ed25519App) = Ok sk
    /\ (sk = None <-> PrivateKey Sim.ed25519App = ""%string)
    /\ ModuleGo.hostOptions Scenario.E (Sim.simCtx Sim.ed25519App) Scenario.ip4_tcp_4001
         (Some (X509.Ed25519PrivateKeyPtr (Sim.bytes "seed"))) Sim.ed25519App
       = [Libp2p.ListenAddrs [ma]; Libp2p.DefaultTransports;
          Libp2p.Transport Libp2p.WebRTCNew]
         ++ match sk with Some k => [Libp2p.Identity k] | None => [] end
         ++ (if AdvertiseAmino Sim.ed25519App
             then [Libp2p.Routing
                     (ModuleGo.clientDHT Scenario.E (Sim.simCtx Sim.ed25519App))]
             else []).
Proof.
  apply (@X3_host_options Sim.simT Scenario.E (Sim.simCctx Sim.ed25519App)
           Sim.ed25519App "multiaddr:" "ip4/0.0.0.0/tcp/4001:4001" DefaultListenConfig).
  - reflexivity.
  - cbn. do 6 right. left. reflexivity.
Defined.

(** X4 at a registration that succeeds. *)
Lemma X4_listener_provenance_witness :
  exists before opts h,
    noHostCalls before = true
    /\ calls (ModuleGo.registerMultiaddrURI Scenario.E Scenario.ctx "multiaddr:"
                "ip4/0.0.0.0/tcp/4001:4001" DefaultListenConfig)
       = before ++ [CallNew opts;
                    CallPrintln (PrintedID (HostID Scenario.E h));
                    CallPrintln (PrintedAddrs (HostAddrs Scenario.E h));
                    CallListen h "/http/1.1" [Gostream.IgnoreEOF]]
    /\ New Scenario.E opts = inl h
    /\ Listen Scenario.E h "/http/1.1" [Gostream.IgnoreEOF]
       = inl ({| Sim.simAddrs := [Scenario.ip4_tcp_4001]; Sim.simIdentity := None;
                 Sim.simRouting := None |}, "/http/1.1"%string, [Gostream.IgnoreEOF]).
Proof.
  apply (@X4_listener_provenance Sim.simT Scenario.E Scenario.ctx "multiaddr:"
           "ip4/0.0.0.0/tcp/4001:4001" DefaultListenConfig).
  reflexivity.
Defined.

(** X5 at a key file that does not exist. *)
Lemma X5_identity_failure_stops_registration_witness :
  outcome (ModuleGo.registerMultiaddrURI Scenario.E (Sim.simCtx SimConfig.missingKeyApp)
             "multiaddr:" "ip4/0.0.0.0/tcp/4001:" DefaultListenConfig)
  = Fail (IOError "no such file or directory").
Proof.
  refine (proj2 (proj2 (proj2
    (proj2 (@X5_identity_failure_stops_registration Sim.simT Scenario.E
              (Sim.simCctx SimConfig.missingKeyApp) SimConfig.missingKeyApp _)
       (IOError "no such file or directory") _)
    "multiaddr:" "ip4/0.0.0.0/tcp/4001:" DefaultListenConfig))
    _ (Scenario.ip4_tcp_4001, 0) _ _); reflexivity.
Defined.

(** X7 at a block of three entries, two of them for the same ID. *)
Lemma X7_UnmarshalCaddyfile_block_witness :
  HandlerConfig.UnmarshalCaddyfile SimConfig.plainHandler
    (Caddyfile.NewDispenser
       (SimConfig.blockName :: SimConfig.blockOpen
        :: flat_map Block.entryTokens SimConfig.gatewayEntries ++ [SimConfig.blockClose]))
  = Some ({| Handler.WellKnownHandler := Handler.WellKnownHandler SimConfig.plainHandler;
             Handler.ParsedProtosMap := [("/ipfs/gateway", "/gw"); ("/echo/1.0.0", "/echo")]
          |},
          Block.focus
            (SimConfig.blockName :: SimConfig.blockOpen
             :: flat_map Block.entryTokens SimConfig.gatewayEntries)
            SimConfig.blockClose [] 0,
          None).
Proof.
  apply (proj1 (@X7_UnmarshalCaddyfile_block (list string) SimConfig.plainHandler
                  SimConfig.blockName SimConfig.blockOpen SimConfig.blockClose
                  SimConfig.gatewayEntries [] eq_refl eq_refl eq_refl)).
Defined.

(** X8 at a line without arrow after one entry. *)
Lemma X8_UnmarshalCaddyfile_bad_line_witness :
  HandlerConfig.parseCaddyfile SimConfig.zeroHost
    (Caddyfile.NewDispenser
       [SimConfig.blockName; SimConfig.blockOpen;
        Block.tok 2 "/ipfs/gateway"; Block.tok 2 "=>"; Block.tok 2 "/";
        Block.tok 3 "/echo/1.0.0"; Block.tok 3 "/echo"; Block.tok 4 "}"])
  = Some ({| Handler.WellKnownHandler := SimConfig.zeroHost;
             Handler.ParsedProtosMap := [("/ipfs/gateway", "/")] |},
          Some {| Caddyfile.complaint := Caddyfile.Message "expected =>";
                  Caddyfile.atFile := "Caddyfile"; Caddyfile.atLine := 3 |}).
Proof.
  apply (proj2 (@X8_UnmarshalCaddyfile_bad_line (list string) SimConfig.plainHandler
                  SimConfig.zeroHost SimConfig.blockName SimConfig.blockOpen
                  [SimConfig.entry 2 "/ipfs/gateway" "/"]
                  (Block.NotArrow (Block.tok 3 "/echo/1.0.0") (Block.tok 3 "/echo"))
                  [Block.tok 4 "}"] eq_refl eq_refl eq_refl)).
Defined.

(** X9 at a directive with an argument and no block. *)
Lemma X9_UnmarshalCaddyfile_without_block_witness :
  HandlerConfig.UnmarshalCaddyfile SimConfig.plainHandler
    (Caddyfile.NewDispenser [SimConfig.blockName; Block.tok 1 "/ipfs/gateway"])
  = Some ({| Handler.WellKnownHandler := Handler.WellKnownHandler SimConfig.plainHandler;
             Handler.ParsedProtosMap := [] |},
          Block.focus [] SimConfig.blockName [Block.tok 1 "/ipfs/gateway"] 0, None).
Proof.
  apply (proj1 (@X9_UnmarshalCaddyfile_without_block (list string) SimConfig.plainHandler
                  SimConfig.blockName [Block.tok 1 "/ipfs/gateway"] eq_refl)).
Defined.

(** X11 at a key path and [advertise_amino] given twice. *)
Lemma X11_parseAppConfig_block_witness :
  AppConfig.parseAppConfig
    (Caddyfile.NewDispenser
       (SimConfig.optionName :: SimConfig.blockOpen
        :: flat_map Block.directiveTokens SimConfig.optionLines ++ [SimConfig.blockClose]))
  = Some (AppConfig.HttpcaddyfileApp "libp2p"
            {| PrivateKey := "/keys/ed25519.pem"; AdvertiseAmino := true |},
          Block.focus
            (SimConfig.optionName :: SimConfig.blockOpen
             :: flat_map Block.directiveTokens SimConfig.optionLines)
            SimConfig.blockClose [] 0).
Proof.
  apply (@X11_parseAppConfig_block SimConfig.optionName SimConfig.blockOpen
           SimConfig.blockClose SimConfig.optionLines [] eq_refl eq_refl eq_refl).
Defined.

(** X12 at the app of the ed25519 key file. *)
Lemma X12_parseAppConfig_render_witness :
  AppConfig.parseAppConfig (Caddyfile.NewDispenser (Block.render Sim.ed25519App))
  = Some (AppConfig.HttpcaddyfileApp "libp2p" Sim.ed25519App,
          Block.focus
            (Block.tok 1 "libp2p" :: Block.tok 1 "{"
             :: flat_map Block.directiveTokens (Block.directivesOf Sim.ed25519App))
            (Block.tok 4 "}") [] 0).
Proof. apply (@X12_parseAppConfig_render Sim.ed25519App eq_refl). Defined.

(** X13 at [advertise_amino yes] after a key path: [ParseBool] does not
    read ["yes"]. *)
Lemma X13_parseAppConfig_bad_directive_witness :
  AppConfig.parseAppConfig
    (Caddyfile.NewDispenser
       [SimConfig.optionName; SimConfig.blockOpen;
        Block.tok 2 "private_key"; Block.tok 2 "/keys/rsa.pem";
        Block.tok 3 "advertise_amino"; Block.tok 3 "yes"; Block.tok 4 "}"])
  = Some (AppConfig.NilAndError
            {| Caddyfile.complaint :=
                 Caddyfile.Wrapped
                   {| Strconv.Func := "ParseBool"; Strconv.Num := "yes";
                      Strconv.Err := Strconv.ErrSyntax |};
               Caddyfile.atFile := "Caddyfile"; Caddyfile.atLine := 3 |},
          Block.focus
            [SimConfig.optionName; SimConfig.blockOpen;
             Block.tok 2 "private_key"; Block.tok 2 "/keys/rsa.pem";
             Block.tok 3 "advertise_amino"]
            (Block.tok 3 "yes")
            [Block.tok 4 "}"] 1).
Proof.
  apply (@X13_parseAppConfig_bad_directive SimConfig.optionName SimConfig.blockOpen
           [Block.KeyPath (Block.tok 2 "private_key") (Block.tok 2 "/keys/rsa.pem")]
           (Block.BadBool (Block.tok 3 "advertise_amino") (Block.tok 3 "yes"))
           [Block.tok 4 "}"]
           eq_refl eq_refl eq_refl).
Defined.

(** X14 at the option name alone. *)
Lemma X14_parseAppConfig_without_block_witness :
  AppConfig.parseAppConfig (Caddyfile.NewDispenser [SimConfig.optionName])
  = Some (AppConfig.HttpcaddyfileApp "libp2p"
            {| PrivateKey := ""; AdvertiseAmino := false |},
          Block.focus [] SimConfig.optionName [] 0).
Proof.
  apply (proj2 (proj2 (proj2 (@X14_parseAppConfig_without_block SimConfig.optionName []
                                eq_refl)))).
Defined.

(** X15 at a map of two entries ranged over in the other order. *)
Lemma X15_Provision_merges_witness :
  ProtoMap.get "/ipfs/gateway"
    (fst (HandlerConfig.Provision
            [("/echo/1.0.0", "/echo"); ("/ipfs/gateway", "/gw")]
            [("/ipfs/gateway", "/"); ("/stale", "/old")]))
  = Some "/gw"%string.
Proof.
  refine (proj2 (@X15_Provision_merges
                   [("/ipfs/gateway", "/gw"); ("/echo/1.0.0", "/echo")]
                   [("/echo/1.0.0", "/echo"); ("/ipfs/gateway", "/gw")]
                   [("/ipfs/gateway", "/"); ("/stale", "/old")] _ _) "/ipfs/gateway").
  - repeat constructor; cbn; intuition discriminate.
  - apply perm_swap.
Defined.

(** X16 at the block of three entries. *)
Lemma X16_unmarshal_then_provision_witness :
  exists l' d',
    HandlerConfig.UnmarshalCaddyfile SimConfig.plainHandler
      (Caddyfile.NewDispenser
         (SimConfig.blockName :: SimConfig.blockOpen
          :: flat_map Block.entryTokens SimConfig.gatewayEntries
             ++ [SimConfig.blockClose]))
    = Some (l', d', None)
    /\ Handler.ParsedProtosMap l' = Block.stored SimConfig.gatewayEntries
    /\ forall id,
        ProtoMap.get id
          (fst (HandlerConfig.Provision
                  [("/echo/1.0.0", "/echo"); ("/ipfs/gateway", "/gw")]
                  [("/stale", "/old")]))
        = match Block.lastPath id SimConfig.gatewayEntries with
          | Some path => Some path
          | None => ProtoMap.get id [("/stale", "/old")]
          end.
Proof.
  apply (@X16_unmarshal_then_provision (list string) SimConfig.plainHandler
           SimConfig.blockName SimConfig.blockOpen SimConfig.blockClose
           SimConfig.gatewayEntries []
           [("/echo/1.0.0", "/echo"); ("/ipfs/gateway", "/gw")] [("/stale", "/old")]
           eq_refl eq_refl eq_refl).
  apply perm_swap.
Defined.
